(** * Unforgotten BLE scale firmware: framer, responder, indicator, power manager

    A shallow embedding of the MicroPython sources
    - [lib/power_manager.py]                      (module [PowerManager])
    - [esp32-c6/led_manager_c6_combo.py]          (module [C6Combo])
    - [lib/s3_neopixel_led_manager_v1_5_1.py]     (module [S3RGB])
    - [esp32-s3/unf_s3_v1_3_2.py], [esp32-s3/unf_s3.py] (module [BLEScale])
    - [esp32-s3/unf_s3_v1_3_1.py], its per-handle parser (module [BLEScale131])
    with the runtime they import left as parameters (Part I), the vocabulary
    of the statements (Part II) and the properties of the specification that
    concern them (Part III).

    Objects are records passed explicitly; every method takes the object
    and returns the updated object.  A call of [time.ticks_ms()] is an
    extra argument [now] of the method that performs it. *)

From Stdlib Require Import ZArith QArith Qabs List Bool Lia.
From Stdlib Require Import Strings.String Strings.Ascii Strings.Byte.
From stdpp Require Import gmap strings list.

Local Open Scope Z_scope.

Set Warnings "-register-all".

(* ===================================================================== *)
(** * Part I: the programs                                                *)
(* ===================================================================== *)

(** ** lib/power_manager.py *)

Module PowerManager.

(** Module constants.  A weight is a finite float, that is a rational:
    [abs] and [<] on finite floats are exact. *)
Definition NO_LOAD_THRESHOLD_G : Q := 1.
Definition NO_LOAD_STABLE_SAMPLES : Z := 20.
Definition NO_LOAD_IDLE_SECONDS : Z := 30.

Record t := mk {
  _no_load_count : Z;
  _last_active_ms : Z;
  idle : bool
}.

(** [__init__], with [now] the value of [time.ticks_ms()]. *)
Definition init (now : Z) : t :=
  {| _no_load_count := 0; _last_active_ms := now; idle := false |}.

Definition Qltb (a b : Q) : bool := negb (Qle_bool b a).

(** [abs(weight_g) < NO_LOAD_THRESHOLD_G] *)
Definition no_load (weight_g : Q) : bool :=
  Qltb (Qabs weight_g) NO_LOAD_THRESHOLD_G.

Definition update_with_weight (now : Z) (weight_g : Q) (pm : t) : t :=
  if no_load weight_g then
    let pm1 := {| _no_load_count := _no_load_count pm + 1;
                  _last_active_ms := _last_active_ms pm;
                  idle := idle pm |} in
    if NO_LOAD_STABLE_SAMPLES <=? _no_load_count pm1 then
      {| _no_load_count := _no_load_count pm1;
         _last_active_ms := _last_active_ms pm1;
         idle := true |}
    else pm1
  else
    (* any real load = active *)
    {| _no_load_count := 0; _last_active_ms := now; idle := false |}.

(** A run of readings, each with the clock value at its arrival. *)
Definition feed (samples : list (Z * Q)) (pm : t) : t :=
  fold_left (fun p s => update_with_weight (fst s) (snd s) p) samples pm.

End PowerManager.

(** ** Clock, colours and the NeoPixel driver used by the LED managers *)

(** [time.ticks_diff] of MicroPython: the signed difference of two clock
    readings modulo the period of the millisecond counter. *)
Definition TICKS_PERIOD : Z := 2 ^ 30.

Definition ticks_diff (a b : Z) : Z :=
  (a - b + TICKS_PERIOD / 2) mod TICKS_PERIOD - TICKS_PERIOD / 2.

Definition rgb : Type := (Z * Z * Z)%type.

(** What the LED managers import and do not define: the [neopixel] driver
    object and float arithmetic on the brightness.
    [np_show dev idx c] is [dev[idx] = c; dev.write()]; it returns the device
    afterwards and [false] when one of the two calls raised. *)
Class NeoPixelHW := {
  np_dev : Type;
  brightness : Type;
  int_mul : Z -> brightness -> Z;
  np_show : np_dev -> Z -> rgb -> np_dev * bool
}.

(** [_scale(rgb, b)]: [(int(r*b), int(g*b), int(bb*b))] *)
Definition _scale `{NeoPixelHW} (c : rgb) (b : brightness) : rgb :=
  let '(r, g, bb) := c in (int_mul r b, int_mul g b, int_mul bb b).

(** [_win(now, t0, win)] and [_blink(now, period)], the same static methods
    in every manager. *)
Definition _win (now : Z) (t0 : option Z) (win : Z) : bool :=
  match t0 with
  | None => false
  | Some t0 => ticks_diff now t0 <? win
  end.

Definition _blink (now period : Z) : Z :=
  if period <=? 0 then 0
  else
    let half := if period / 2 =? 0 then 1 else period / 2 in
    Z.land (now / half) 1.

Definition C_OFF : rgb := (0, 0, 0).
Definition C_B : rgb := (0, 0, 255).
Definition C_G : rgb := (0, 255, 0).
Definition C_R : rgb := (255, 0, 0).

(** Calls made on an indicator by the control loop and the BLE handler. *)
Inductive led_event :=
| Connect
| Disconnect
| Transfer (now : Z)
| Error (now : Z)
| ClearError (now : Z)
| OffAll
| Update (now : Z).

(** ** esp32-c6/led_manager_c6_combo.py *)

Module C6Combo.
Section WithHW.
Context `{HW : NeoPixelHW}.

Record t := mk {
  _np_ok : bool;
  _np : np_dev;
  _idx : Z;
  _b : brightness;
  _blue : Z;            (* level last written to each Pin *)
  _green : Z;
  _red : Z;
  _low : bool;
  _connected : bool;
  _t_xfer : option Z;
  _t_err : option Z;
  _p_blue : Z;
  _w_green : Z;
  _p_green : Z;
  _w_red : Z;
  _p_red : Z
}.

Definition with_np (ok : bool) (d : np_dev) (m : t) : t :=
  mk ok d (_idx m) (_b m) (_blue m) (_green m) (_red m) (_low m)
     (_connected m) (_t_xfer m) (_t_err m)
     (_p_blue m) (_w_green m) (_p_green m) (_w_red m) (_p_red m).

Definition with_pins (b g r : Z) (m : t) : t :=
  mk (_np_ok m) (_np m) (_idx m) (_b m) b g r (_low m)
     (_connected m) (_t_xfer m) (_t_err m)
     (_p_blue m) (_w_green m) (_p_green m) (_w_red m) (_p_red m).

Definition with_events (c : bool) (x e : option Z) (m : t) : t :=
  mk (_np_ok m) (_np m) (_idx m) (_b m) (_blue m) (_green m) (_red m) (_low m)
     c x e
     (_p_blue m) (_w_green m) (_p_green m) (_w_red m) (_p_red m).

(** [_pin_set(pin, v)]: the level of the pin afterwards. *)
Definition _pin_set (low : bool) (pin v : Z) : Z :=
  let v := if low then (if v =? 0 then 1 else 0) else v in
  if negb (pin =? v) then v else pin.

(** [_set_rgb], first half: drive NeoPixel. *)
Definition drive_np (c : rgb) (m : t) : t :=
  if _np_ok m then
    let '(d, ok) := np_show (_np m) (_idx m) (_scale c (_b m)) in
    if ok then with_np true d m else with_np false d m
  else m.

(** [_set_rgb], second half: drive discrete. *)
Definition drive_pins (c : rgb) (m : t) : t :=
  let '(r, g, b) := c in
  let red' := _pin_set (_low m) (_red m) (if r =? 0 then 0 else 1) in
  let green' := _pin_set (_low m) (_green m) (if g =? 0 then 0 else 1) in
  let blue' := _pin_set (_low m) (_blue m) (if b =? 0 then 0 else 1) in
  with_pins blue' green' red' m.

Definition _set_rgb (c : rgb) (m : t) : t := drive_pins c (drive_np c m).

(** [__init__]: [np0] is the result of constructing the NeoPixel
    ([None] when the module is missing or the constructor raised; the
    attribute then stays [None], modelled by the unused [dflt]). *)
Definition init (np0 : option np_dev) (dflt : np_dev)
    (np_index : Z) (np_brightness : brightness) (active_low_rgb : bool)
    (blue_blink_period_ms green_pulse_window_ms green_blink_period_ms
     red_error_window_ms red_blink_period_ms : Z) (self_test : bool) : t :=
  let m := mk (match np0 with Some _ => true | None => false end) (default dflt np0)
              np_index np_brightness 0 0 0 active_low_rgb
              false None None
              blue_blink_period_ms green_pulse_window_ms green_blink_period_ms
              red_error_window_ms red_blink_period_ms in
  let m := _set_rgb C_OFF m in
  if _np_ok m && self_test then
    fold_left (fun m c => _set_rgb c m) [C_R; C_G; C_B; C_OFF] m
  else m.

Definition on_connect (m : t) : t :=
  _set_rgb C_B (with_events true (_t_xfer m) (_t_err m) m).
Definition on_disconnect (m : t) : t :=
  with_events false None (_t_err m) m.
Definition on_transfer (now : Z) (m : t) : t :=
  with_events (_connected m) (Some now) (_t_err m) m.
Definition on_error (now : Z) (m : t) : t :=
  with_events (_connected m) (_t_xfer m) (Some now) m.
Definition off_all (m : t) : t := _set_rgb C_OFF m.

(** The colour [update] hands to [_set_rgb]: each of its branches ends
    in exactly one such call. *)
Definition update_rgb (now : Z) (m : t) : rgb :=
  (* Error dominates *)
  if _win now (_t_err m) (_w_red m) then
    if _blink now (_p_red m) =? 0 then C_OFF else C_R
  (* Activity pulse *)
  else if _connected m && _win now (_t_xfer m) (_w_green m) then
    if _blink now (_p_green m) =? 0 then C_OFF else C_G
  (* Baseline *)
  else if _connected m then C_B
  else if _blink now (_p_blue m) =? 0 then C_OFF else C_B.

Definition update (now : Z) (m : t) : t := _set_rgb (update_rgb now m) m.

(** This manager has no [clear_error]; the event is not for it. *)
Definition step (m : t) (e : led_event) : t :=
  match e with
  | Connect => on_connect m
  | Disconnect => on_disconnect m
  | Transfer now => on_transfer now m
  | Error now => on_error now m
  | ClearError _ => m
  | OffAll => off_all m
  | Update now => update now m
  end.

Definition run (es : list led_event) (m : t) : t := fold_left step es m.

End WithHW.
End C6Combo.

(** ** lib/s3_neopixel_led_manager_v1_5_1.py *)

Module S3RGB.
Section WithHW.
Context `{HW : NeoPixelHW}.

Record t := mk {
  _np_ok : bool;
  _np : np_dev;
  _idx : Z;
  _b : brightness;
  _connected : bool;
  _t_xfer : option Z;
  _error_active : bool;
  _p_blue : Z;
  _w_green : Z;
  _p_green : Z
}.

Definition with_np (ok : bool) (d : np_dev) (m : t) : t :=
  mk ok d (_idx m) (_b m) (_connected m) (_t_xfer m) (_error_active m)
     (_p_blue m) (_w_green m) (_p_green m).

Definition with_flags (c : bool) (x : option Z) (e : bool) (m : t) : t :=
  mk (_np_ok m) (_np m) (_idx m) (_b m) c x e
     (_p_blue m) (_w_green m) (_p_green m).

Definition _set (c : rgb) (m : t) : t :=
  if negb (_np_ok m) then m
  else
    let '(d, ok) := np_show (_np m) (_idx m) (_scale c (_b m)) in
    if ok then with_np true d m else with_np false d m.

Definition init (np0 : option np_dev) (dflt : np_dev)
    (np_index : Z) (np_brightness : brightness)
    (blue_blink_period_ms green_pulse_window_ms green_blink_period_ms : Z)
    (self_test : bool) : t :=
  let m := mk (match np0 with Some _ => true | None => false end) (default dflt np0)
              np_index np_brightness false None false
              blue_blink_period_ms green_pulse_window_ms
              green_blink_period_ms in
  let m := _set C_OFF m in
  if _np_ok m && self_test then
    fold_left (fun m c => _set c m) [C_R; C_G; C_B; C_OFF] m
  else m.

Definition on_connect (m : t) : t :=
  let m := with_flags true (_t_xfer m) (_error_active m) m in
  if negb (_error_active m) then _set C_B m else m.

Definition on_disconnect (m : t) : t :=
  let m := with_flags false None (_error_active m) m in
  if negb (_error_active m) then _set C_OFF m else m.

Definition on_transfer (now : Z) (m : t) : t :=
  with_flags (_connected m) (Some now) (_error_active m) m.

Definition on_error (m : t) : t :=
  _set C_R (with_flags (_connected m) (_t_xfer m) true m).

Definition off_all (m : t) : t := _set C_OFF m.

(** The colour [update] hands to [_set]. *)
Definition update_rgb (now : Z) (m : t) : rgb :=
  (* 1) ERROR has highest priority: solid RED *)
  if _error_active m then C_R
  (* 2) Recent transfer: GREEN blink (only when connected) *)
  else if _connected m && _win now (_t_xfer m) (_w_green m) then
    if _blink now (_p_green m) =? 0 then C_OFF else C_G
  (* 3) Connected but no recent transfer: solid BLUE *)
  else if _connected m then C_B
  (* 4) Not connected: BLUE blinking *)
  else if _blink now (_p_blue m) =? 0 then C_OFF else C_B.

Definition update (now : Z) (m : t) : t := _set (update_rgb now m) m.

Definition clear_error (now : Z) (m : t) : t :=
  update now (with_flags (_connected m) (_t_xfer m) false m).

(** [on_error] reads no clock here; the time of the event is unused. *)
Definition step (m : t) (e : led_event) : t :=
  match e with
  | Connect => on_connect m
  | Disconnect => on_disconnect m
  | Transfer now => on_transfer now m
  | Error _ => on_error m
  | ClearError now => clear_error now m
  | OffAll => off_all m
  | Update now => update now m
  end.

Definition run (es : list led_event) (m : t) : t := fold_left step es m.

End WithHW.
End S3RGB.

(** A simulated strip for closed examples: a list of pixels, brightness a
    rational, [int] truncating; a write raises [IndexError] exactly when the
    index is outside the strip. *)
Module SimHW.
Definition sim_int_mul (c : Z) (b : Q) : Z :=
  Z.quot (c * Qnum b) (Z.pos (Qden b)).

Definition sim_show (dev : list rgb) (idx : Z) (c : rgb) : list rgb * bool :=
  if (0 <=? idx) && (idx <? Z.of_nat (length dev))
  then (<[Z.to_nat idx := c]> dev, true)
  else (dev, false).

#[global] Instance hw : NeoPixelHW :=
  {| np_dev := list rgb; brightness := Q;
     int_mul := sim_int_mul; np_show := sim_show |}.
End SimHW.

(** ** lib/power_manager.py, the second method, and the cadence of [run] *)

Module DeepIdle.

(** [should_enter_deep_idle], with [now] the value of [time.ticks_ms()].
    [elapsed_ms / 1000.0 > NO_LOAD_IDLE_SECONDS] is decided on the exact
    quotient: float division is monotone and the floats next to 30.0 are
    much closer to it than a thousandth. *)
Definition should_enter_deep_idle (now : Z) (pm : PowerManager.t) : bool :=
  if negb (PowerManager.idle pm) then false
  else
    let elapsed_ms := ticks_diff now (PowerManager._last_active_ms pm) in
    PowerManager.Qltb (inject_Z PowerManager.NO_LOAD_IDLE_SECONDS)
                      (elapsed_ms # 1000).

(** Step 3 of [run], the same in the three BLEScale files: the seconds to
    sleep before the next turn. *)
Definition base_sleep (now : Z) (pm : PowerManager.t) : Q :=
  if should_enter_deep_idle now pm then 5
  else if PowerManager.idle pm then 2
  else 1 # 2.

End DeepIdle.

(** ** lib/sensors/hx711.py *)

Module HX711.

(** The attributes the methods below use: the level of the clock pin and
    the number of extra clock pulses. *)
Record t := mk {
  pSCK : Z;
  GAIN : Z
}.

(** Every call of [self.pOUT()] reads the data pin: [pout j] is the level
    it returns at the call number [j] made during one [read].

    [while self.pOUT() == 1: idle()]: the number of calls made when the
    loop is left.  The loop runs for as long as the pin reads 1; [fuel]
    bounds the turns looked at, and [None] says the pin read 1 at each of
    them. *)
Fixpoint wait_ready (fuel : nat) (pout : nat -> Z) (j : nat) : option nat :=
  match fuel with
  | O => None
  | S fuel' =>
      if pout j =? 1 then wait_ready fuel' pout (S j) else Some (S j)
  end.

(** The loop of [read]: [result = (result << 1) | self.pOUT()]. *)
Definition shift_in (bits : list Z) : Z :=
  fold_left (fun result b => Z.lor (Z.shiftl result 1) b) bits 0.

(** [read].  Every turn of the second loop pulses the clock pin, leaves it
    low and then reads the data pin.  [None]: still waiting for the device
    after [fuel] reads. *)
Definition read (fuel : nat) (pout : nat -> Z) (hx : t) : option (Z * t) :=
  (* wait for the device being ready *)
  match wait_ready fuel pout 0 with
  | None => None
  | Some j0 =>
      (* shift in data, and gain & channel info *)
      let result := shift_in (map pout (seq j0 (Z.to_nat (24 + GAIN hx)))) in
      (* shift back the extra bits *)
      let result := Z.shiftr result (GAIN hx) in
      (* check sign *)
      let result := if 0x7fffff <? result then result - 0x1000000 else result in
      Some (result, mk (if 0 <? 24 + GAIN hx then 0 else pSCK hx) (GAIN hx))
  end.

Definition power_down (hx : t) : t := mk 1 (GAIN hx).

Definition power_up (hx : t) : t := mk 0 (GAIN hx).

End HX711.

(** ** lib/low_power_scale.py, and [get_weight], [check_scale] of
    unf_s3_v1_3_2.py

    [hx.get_units(times)] averages reads in float arithmetic; its result
    is an argument [units] of the methods, [None] when it raised.  It
    leaves the clock pin low as every read does.  The BLEScale object and
    its LowPowerScale share one PowerManager object: it is kept once, in
    the LowPowerScale. *)

Module LowPowerScale.

Record t := mk {
  hx : HX711.t;
  pm : PowerManager.t;
  _last_weight_g : Q
}.

(** The result is the object afterwards and the returned weight, [None]
    when the exception of [get_units] went through. *)
Definition read_weight_normal (now : Z) (units : option Q) (s : t) : t * option Q :=
  let h := HX711.power_up (hx s) in
  match units with
  | None => (mk h (pm s) (_last_weight_g s), None)
  | Some weight =>
      (mk h (PowerManager.update_with_weight now weight (pm s)) weight, Some weight)
  end.

Definition read_weight_low_power (now : Z) (units : option Q) (s : t) : t * option Q :=
  let h := HX711.power_up (hx s) in
  match units with
  | None => (mk h (pm s) (_last_weight_g s), None)
  | Some weight =>
      let pm' := PowerManager.update_with_weight now weight (pm s) in
      let h := if PowerManager.idle pm' then HX711.power_down h else h in
      (mk h pm' weight, Some weight)
  end.

End LowPowerScale.

Module ScaleLoop.
Section WithKg.
(** [weight_g / 1000] and [0.0], floats. *)
Variable kg : Type.
Variable kg_of_g : Q -> kg.
Variable kg_zero : kg.

Record t := mk {
  scale : LowPowerScale.t;
  last_weight_g : Q;
  weight_tx : kg
}.

Definition get_weight (now : Z) (units : option Q) (b : t) : t * kg :=
  let '(sc, r) :=
    if PowerManager.idle (LowPowerScale.pm (scale b))
    then LowPowerScale.read_weight_low_power now units (scale b)
    else LowPowerScale.read_weight_normal now units (scale b) in
  match r with
  | Some weight_g => (mk sc weight_g (weight_tx b), kg_of_g weight_g)
  | None => (mk sc (last_weight_g b) (weight_tx b), kg_zero)
  end.

Definition check_scale (now : Z) (units : option Q) (b : t) : t :=
  let '(b', weight_kg) := get_weight now units b in
  mk (scale b') (last_weight_g b') weight_kg.

(** A run of turns of the main loop, each with its clock and reading. *)
Definition turns (rs : list (Z * option Q)) (b : t) : t :=
  fold_left (fun b r => check_scale (fst r) (snd r) b) rs b.

End WithKg.
End ScaleLoop.

Arguments ScaleLoop.mk {kg}.
Arguments ScaleLoop.scale {kg}.
Arguments ScaleLoop.last_weight_g {kg}.
Arguments ScaleLoop.weight_tx {kg}.
Arguments ScaleLoop.get_weight {kg}.
Arguments ScaleLoop.check_scale {kg}.
Arguments ScaleLoop.turns {kg}.


(** ** Bytes, text and Python values used by the BLE peripheral *)

(** [bytes] objects are lists of bytes.  A [str] is kept as its UTF-8
    encoding, the representation MicroPython uses: searching, replacing and
    slicing between positions returned by a search agree with the same
    operations on code points. *)
Abbreviation bytes := (list byte).

Definition bs (s : string) : bytes := list_byte_of_string s.

Definition NL : byte := x0a.
Definition DQUOTE : byte := x22.

Definition byte_in (c : byte) (set : bytes) : bool :=
  existsb (Byte.eqb c) set.

(** Whitespace stripped by [bytes.strip()], and by [str.strip()] in
    MicroPython: space, tab, newline, carriage return, vertical tab, form
    feed. *)
Definition WHITESPACE : bytes := [x20; x09; x0a; x0d; x0b; x0c].

Fixpoint lstrip (s : bytes) : bytes :=
  match s with
  | c :: r => if byte_in c WHITESPACE then lstrip r else s
  | [] => []
  end.

Definition strip (s : bytes) : bytes := rev (lstrip (rev (lstrip s))).

Fixpoint starts_with (p s : bytes) : bool :=
  match p, s with
  | [], _ => true
  | a :: p', b :: s' => Byte.eqb a b && starts_with p' s'
  | _ :: _, [] => false
  end.

Fixpoint bytes_eqb (a b : bytes) : bool :=
  match a, b with
  | [], [] => true
  | x :: a', y :: b' => Byte.eqb x y && bytes_eqb a' b'
  | _, _ => false
  end.

(** [s.find(p)] is [find_at p s 0]; [s.find(p, i)] for [0 <= i <= len(s)] is
    [find_from p s i].  Both return [-1] when there is no occurrence. *)
Fixpoint find_at (p s : bytes) (k : Z) : Z :=
  if starts_with p s then k
  else match s with
       | [] => -1
       | _ :: s' => find_at p s' (k + 1)
       end.

Definition find (p s : bytes) : Z := find_at p s 0.

Definition find_from (p s : bytes) (i : Z) : Z :=
  find_at p (drop (Z.to_nat i) s) i.

(** [s.rfind(c)] for a one-character [c]. *)
Fixpoint rfind_at (c : byte) (s : bytes) (k : Z) (last : Z) : Z :=
  match s with
  | [] => last
  | b :: s' => rfind_at c s' (k + 1) (if Byte.eqb b c then k else last)
  end.

Definition rfind (c : byte) (s : bytes) : Z := rfind_at c s 0 (-1).

(** [s[i:j]] for [0 <= i <= j]. *)
Definition slice (s : bytes) (i j : Z) : bytes :=
  take (Z.to_nat (j - i)) (drop (Z.to_nat i) s).

Definition ends_with (p s : bytes) : bool := starts_with (rev p) (rev s).

(** [s.replace(p, "")] for a non-empty [p]: occurrences are removed from
    left to right without overlap; [skip] counts the bytes of an occurrence
    still to be dropped. *)
Fixpoint remove_at (p s : bytes) (skip : nat) : bytes :=
  match s with
  | [] => []
  | c :: r =>
      match skip with
      | S k => remove_at p r k
      | O => if starts_with p s then remove_at p r (length p - 1)
             else c :: remove_at p r 0
      end
  end.

Definition remove_all (p s : bytes) : bytes := remove_at p s 0.

(** [while i < len(text) and text[i] in set: i += 1], on the text from
    position [i]: the part skipped and the part left. *)
Fixpoint take_while_in (set s : bytes) : bytes :=
  match s with
  | c :: r => if byte_in c set then c :: take_while_in set r else []
  | [] => []
  end.

Fixpoint drop_while_in (set s : bytes) : bytes :=
  match s with
  | c :: r => if byte_in c set then drop_while_in set r else s
  | [] => []
  end.

(** UTF-8 well-formedness (Unicode table 3-7). *)
Definition between (lo hi : N) (b : byte) : bool :=
  (N.leb lo (Byte.to_N b) && N.leb (Byte.to_N b) hi)%bool.

Definition cont (b : byte) : bool := between 128 191 b.

Definition lead2 (b0 : byte) : bool := between 194 223 b0.

Definition lead3 (b0 b1 : byte) : bool :=
  (between 224 224 b0 && between 160 191 b1)
  || (between 225 236 b0 && cont b1)
  || (between 237 237 b0 && between 128 159 b1)
  || (between 238 239 b0 && cont b1).

Definition lead4 (b0 b1 : byte) : bool :=
  (between 240 240 b0 && between 144 191 b1)
  || (between 241 243 b0 && cont b1)
  || (between 244 244 b0 && between 128 143 b1).

(** [b.decode("utf-8", "ignore")], as the source asks for it: bytes that
    are not part of a well-formed sequence are dropped, so the call cannot
    raise and the [except] around it is never entered. *)
Fixpoint utf8_ignore (b : bytes) : bytes :=
  match b with
  | [] => []
  | b0 :: r =>
      if between 0 127 b0 then b0 :: utf8_ignore r
      else
        match r with
        | b1 :: r1 =>
            if lead2 b0 && cont b1 then b0 :: b1 :: utf8_ignore r1
            else
              match r1 with
              | b2 :: r2 =>
                  if lead3 b0 b1 && cont b2 then b0 :: b1 :: b2 :: utf8_ignore r2
                  else
                    match r2 with
                    | b3 :: r3 =>
                        if lead4 b0 b1 && cont b2 && cont b3
                        then b0 :: b1 :: b2 :: b3 :: utf8_ignore r3
                        else utf8_ignore r
                    | [] => utf8_ignore r
                    end
              | [] => utf8_ignore r
              end
        | [] => utf8_ignore r
        end
  end.

(** [b.decode()]: raises [UnicodeError] ([None]) unless every byte belongs
    to a well-formed sequence. *)
Definition utf8_decode (b : bytes) : option bytes :=
  if Nat.eqb (length (utf8_ignore b)) (length b) then Some b else None.

(** Python values that reach the RX/TX dictionaries; [F] is the type of
    floats. *)
Inductive pyobj (F : Type) : Type :=
| PNone
| PBool (b : bool)
| PInt (z : Z)
| PFloat (x : F)
| PStr (s : bytes)
| PList (l : list (pyobj F))
| PDict (d : list (string * pyobj F)).

Arguments PNone {F}.
Arguments PBool {F} b.
Arguments PInt {F} z.
Arguments PFloat {F} x.
Arguments PStr {F} s.
Arguments PList {F} l.
Arguments PDict {F} d.

(** Builtins the peripheral calls and does not define.  A [None] result
    is a raised exception.  First the float operations. *)
Class PyFloat := {
  pyfloat : Type;
  float_zero : pyfloat;                           (* 0.0 *)
  float_of_str : bytes -> option pyfloat;         (* float(text) *)
  round7 : pyfloat -> pyfloat;                    (* round(x, 7) *)
  int_of_float : pyfloat -> option Z              (* int(x) *)
}.

(** Then the JSON decoder, [ujson.loads(text)]. *)
Class Ujson `{PyFloat} := {
  ujson_loads : bytes -> option (pyobj pyfloat)
}.

(** [b'"key"'], [b'"key":value'] and [b'{"key":value}']. *)
Definition quoted (k : string) : bytes := DQUOTE :: bs k ++ [DQUOTE].

Definition field (k v : string) : bytes := quoted k ++ bs ":" ++ bs v.

Definition object1 (k v : string) : bytes := bs "{" ++ field k v ++ bs "}".

(** ** esp32-s3/unf_s3_v1_3_2.py and esp32-s3/unf_s3.py: class BLEScale *)

Module BLEScale.
Section WithRuntime.
Context `{PF : PyFloat} `{UJ : !Ujson}.

Abbreviation obj := (pyobj pyfloat).
Abbreviation dict := (gmap string obj).

(** The two RX dictionaries an item assignment can go to. *)
Inductive target := Fused | Gps.

Record t := mk {
  weight_tx_handle : Z;
  weight_rx_handle : Z;
  fused_tx_handle : Z;
  fused_rx_handle : Z;
  gps_tx_handle : Z;
  gps_rx_handle : Z;
  weight_tx : obj;
  pm : PowerManager.t;
  rx_buffer : bytes;
  fused_rx_data : dict;
  gps_rx_data : dict;
  tx_data : dict;
  (* not an attribute: the item assignments made on the RX dictionaries,
     oldest first *)
  stores : list (target * string * obj)
}.

(** The dictionary literal of [__init__] and [clear]. *)
Definition rx_defaults : dict :=
  <["time" := PInt 0]> (<["latitude" := PFloat float_zero]>
  (<["longitude" := PFloat float_zero]> (<["speed" := PFloat float_zero]>
  (<["altitude" := PFloat float_zero]> (<["accuracy" := PFloat float_zero]> ∅))))).

Definition with_rx_buffer (b : bytes) (st : t) : t :=
  mk (weight_tx_handle st) (weight_rx_handle st) (fused_tx_handle st)
     (fused_rx_handle st) (gps_tx_handle st) (gps_rx_handle st)
     (weight_tx st) (pm st) b (fused_rx_data st) (gps_rx_data st)
     (tx_data st) (stores st).

Definition with_tx_data (d : dict) (st : t) : t :=
  mk (weight_tx_handle st) (weight_rx_handle st) (fused_tx_handle st)
     (fused_rx_handle st) (gps_tx_handle st) (gps_rx_handle st)
     (weight_tx st) (pm st) (rx_buffer st) (fused_rx_data st) (gps_rx_data st)
     d (stores st).

Definition rx_data (tg : target) (st : t) : dict :=
  match tg with Fused => fused_rx_data st | Gps => gps_rx_data st end.

(** [target[key] = v] *)
Definition store (tg : target) (key : string) (v : obj) (st : t) : t :=
  mk (weight_tx_handle st) (weight_rx_handle st) (fused_tx_handle st)
     (fused_rx_handle st) (gps_tx_handle st) (gps_rx_handle st)
     (weight_tx st) (pm st) (rx_buffer st)
     (match tg with Fused => <[key := v]> (fused_rx_data st)
                  | Gps => fused_rx_data st end)
     (match tg with Fused => gps_rx_data st
                  | Gps => <[key := v]> (gps_rx_data st) end)
     (tx_data st) (stores st ++ [(tg, key, v)]).

Definition store_opt (tg : target) (key : string) (v : option obj) (st : t) : t :=
  match v with Some v => store tg key v st | None => st end.

(** *** The framing loop, the same in every parser

    [b"\n" in buf] and [buf.split(b"\n", 1)]: the line before the first
    newline and the bytes after it. *)
Fixpoint split_nl (buf : bytes) : option (bytes * bytes) :=
  match buf with
  | [] => None
  | c :: r =>
      if Byte.eqb c NL then Some ([], r)
      else match split_nl r with
           | Some (line, rest) => Some (c :: line, rest)
           | None => None
           end
  end.

(** [while b"\n" in self.rx_buffer: try: <split>; <body> except: print].
    [body] is the code after the split for one line, with the exceptions it
    can raise already caught.  Each turn shortens the buffer, so [fuel]
    above its length is never used up. *)
Fixpoint rx_loop (body : bytes -> t -> t) (fuel : nat) (st : t) : t :=
  match fuel with
  | O => st
  | S fuel' =>
      match split_nl (rx_buffer st) with
      | None => st
      | Some (json_bytes, rest) =>
          rx_loop body fuel' (body json_bytes (with_rx_buffer rest st))
      end
  end.

Definition ingest (body : bytes -> t -> t) (raw_data : bytes) (st : t) : t :=
  let st := with_rx_buffer (rx_buffer st ++ raw_data) st in
  rx_loop body (S (length (rx_buffer st))) st.

(** *** unf_s3_v1_3_2.py: [save_received_data], the tolerant parser *)

(** The nested helper [_extract_number(text, key, default=None)]. *)
Definition _extract_number (text : bytes) (key : string) : option pyfloat :=
  let pattern := quoted key in
  let i := find pattern text in
  if i =? -1 then None
  else
    (* find colon after the key *)
    let i := find_from (bs ":") text i in
    if i =? -1 then None
    else
      let i := i + 1 in
      (* skip spaces *)
      let rest := drop_while_in (bs " " ++ [x09]) (drop (Z.to_nat i) text) in
      let number := take_while_in (bs "-+0123456789.eE") rest in
      match number with
      | [] => None                      (* start == i *)
      | _ => float_of_str number        (* except Exception: return default *)
      end.

(** Steps 3 and 4: the decoded text without BOM, NUL and CR, stripped. *)
Definition decode_clean (json_bytes : bytes) : bytes :=
  (* 3) Decode (ignore bad sequences) *)
  let s := utf8_ignore json_bytes in
  (* 4) Strip common garbage *)
  let s := remove_all [xef; xbb; xbf] s in
  let s := remove_all [x00] s in
  let s := remove_all [x0d] s in
  strip s.

(** Steps 2 to 5: what is left of a line for the extraction, [None] on
    each [continue]. *)
Definition clean_line (json_bytes : bytes) : option bytes :=
  let json_bytes := strip json_bytes in
  match json_bytes with
  | [] => None
  | _ =>
      let s := decode_clean json_bytes in
      match s with
      | [] => None
      | _ =>
          (* 5) Crop to first '{' and last '}' *)
          let lb := find (bs "{") s in
          let rb := rfind "}"%byte s in
          if (lb =? -1) || (rb =? -1) || (rb <=? lb) then None
          else Some (slice s lb (rb + 1))
      end
  end.

(** Step 8, the choice of [target]. *)
Definition rx_target (attr_handle : Z) (st : t) : option target :=
  if attr_handle =? fused_rx_handle st then Some Fused
  else if attr_handle =? gps_rx_handle st then Some Gps
  else None.

(** [int(t)], or [t] itself when [int] raises. *)
Definition time_value (x : pyfloat) : obj :=
  match int_of_float x with
  | Some z => PInt z
  | None => PFloat x
  end.

(** Steps 7 and 8 for a line that has a target: extract, round, store. *)
Definition scan_store (tg : target) (s : bytes) (st : t) : t :=
  (* 7) Extract fields *)
  let lat := _extract_number s "latitude" in
  let lon := _extract_number s "longitude" in
  let alt := _extract_number s "altitude" in
  let spd := _extract_number s "speed" in
  let tm := _extract_number s "time" in
  let acc := _extract_number s "accuracy" in
  (* Optional rounding for lat/lon *)
  let lat := option_map round7 lat in
  let lon := option_map round7 lon in
  (* 8) update only existing values *)
  let st := store_opt tg "latitude" (option_map PFloat lat) st in
  let st := store_opt tg "longitude" (option_map PFloat lon) st in
  let st := store_opt tg "altitude" (option_map PFloat alt) st in
  let st := store_opt tg "speed" (option_map PFloat spd) st in
  let st := store_opt tg "time" (option_map time_value tm) st in
  store_opt tg "accuracy" (option_map PFloat acc) st.

(** The body of the loop after the split.  The extraction has no effect,
    so a line without target stores nothing. *)
Definition rx_line (attr_handle : Z) (json_bytes : bytes) (st : t) : t :=
  match clean_line json_bytes with
  | None => st
  | Some s =>
      match rx_target attr_handle st with
      | None => st
      | Some tg => scan_store tg s st
      end
  end.

Definition save_received_data (attr_handle : Z) (raw_data : bytes) (st : t) : t :=
  ingest (rx_line attr_handle) raw_data st.

(** *** unf_s3.py: [save_received_data_1], the parser built on [ujson] *)

(** [key in data]; [None] is the [TypeError] of a value without [in]. *)
Definition py_contains (key : string) (data : obj) : option bool :=
  match data with
  | PDict d => Some (existsb (fun kv => String.eqb (fst kv) key) d)
  | PList l =>
      Some (existsb (fun x => match x with
                              | PStr s => bytes_eqb s (bs key)
                              | _ => false
                              end) l)
  | PStr s => Some (negb (find (bs key) s =? -1))
  | _ => None
  end.

(** [data[key]]; [None] is the [KeyError] or [TypeError]. *)
Definition py_getitem (data : obj) (key : string) : option obj :=
  match data with
  | PDict d =>
      match List.find (fun kv => String.eqb (fst kv) key) d with
      | Some kv => Some (snd kv)
      | None => None
      end
  | _ => None
  end.

(** The run of [if k in data: target[k] = data[k]] statements; the first
    exception ends it, what was stored before stays. *)
Fixpoint copy_keys (tg : target) (keys : list string) (data : obj) (st : t) : t :=
  match keys with
  | [] => st
  | k :: keys' =>
      match py_contains k data with
      | None => st
      | Some false => copy_keys tg keys' data st
      | Some true =>
          match py_getitem data k with
          | None => st
          | Some v => copy_keys tg keys' data (store tg k v st)
          end
      end
  end.

Definition RX_KEYS : list string :=
  ["latitude"; "longitude"; "altitude"; "speed"; "time"; "accuracy"]%string.

Definition rx_line_1 (attr_handle : Z) (json_bytes : bytes) (st : t) : t :=
  match json_bytes with
  | [] => st
  | _ =>
      match utf8_decode json_bytes with
      | None => st
      | Some json_str =>
          (* Parse into Python dict. *)
          match ujson_loads json_str with
          | None => st
          | Some data =>
              (* Fused location data update. *)
              if attr_handle =? fused_rx_handle st then
                copy_keys Fused RX_KEYS data st
              (* GPS location data update. *)
              else if attr_handle =? gps_rx_handle st then
                copy_keys Gps RX_KEYS data st
              else st
          end
      end
  end.

Definition save_received_data_1 (attr_handle : Z) (raw_data : bytes) (st : t) : t :=
  ingest (rx_line_1 attr_handle) raw_data st.

(** *** [send_tx_as_json_response], the same in both files

    The result holds the object afterwards and the dictionary handed to
    [ujson.dumps] for [gatts_write], if any. *)
Definition tx_base (st : t) : dict :=
  <["from" := PStr []]> (<["weight" := weight_tx st]>
  (<["time" := PInt 0]> (<["latitude" := PFloat float_zero]>
  (<["longitude" := PFloat float_zero]> (<["speed" := PFloat float_zero]>
  (<["altitude" := PFloat float_zero]> (<["accuracy" := PFloat float_zero]>
  (<["idle" := PBool (PowerManager.idle (pm st))]> ∅)))))))).

Definition send_tx_as_json_response (attr_handle : Z) (st : t) : t * option dict :=
  (* Base payload: always include weight and idle flag. *)
  let tx := tx_base st in
  if attr_handle =? weight_tx_handle st then
    let tx := <["from" := PStr (bs "weight")]> tx in
    (with_tx_data tx st, Some tx)
  else if attr_handle =? fused_tx_handle st then
    let tx := fused_rx_data st ∪ tx in
    let tx := <["from" := PStr (bs "fused")]> tx in
    (with_tx_data tx st, Some tx)
  else if attr_handle =? gps_tx_handle st then
    let tx := gps_rx_data st ∪ tx in
    let tx := <["from" := PStr (bs "gps")]> tx in
    (with_tx_data tx st, Some tx)
  else
    (with_tx_data tx st, None).

(** *** [clear], called on disconnect

    It binds fresh dictionaries and makes no item assignment.  In
    unf_s3_v1_3_2.py (and unf_s3_v1_3_1.py) it leaves [rx_buffer] alone. *)
Definition clear (st : t) : t :=
  mk (weight_tx_handle st) (weight_rx_handle st) (fused_tx_handle st)
     (fused_rx_handle st) (gps_tx_handle st) (gps_rx_handle st)
     (weight_tx st) (pm st) (rx_buffer st) rx_defaults rx_defaults ∅ (stores st).

(** In unf_s3.py it ends with [self.rx_buffer = b""]. *)
Definition clear_unf_s3 (st : t) : t := with_rx_buffer [] (clear st).


End WithRuntime.
End BLEScale.

(** ** esp32-s3/unf_s3_v1_3_1.py: [save_received_data_1], one buffer per handle

    The parser of v1.3.1 that [_on_write] calls (the IRQ handler of that
    file calls the single-buffer [save_received_data] instead).  The object
    has the attributes of [BLEScale.t] and, once this method has run,
    [_rx_buffers]. *)

(** [str(x)], which this parser applies to every value it stores. *)
Class PyStr `{PyFloat} := {
  py_str : pyobj pyfloat -> bytes
}.

Module BLEScale131.
Section WithRuntime.
Context `{PF : PyFloat} `{UJ : !Ujson} `{PS : !PyStr}.

Record t := mk {
  core : BLEScale.t;
  _rx_buffers : option (gmap Z bytes)     (* [None]: no such attribute yet *)
}.

(** The run of [if k in data: target[k] = str(data[k])] statements.  No
    [try] surrounds it: the flag is [false] when one of them raised. *)
Fixpoint copy_keys_str (tg : BLEScale.target) (keys : list string)
    (data : pyobj pyfloat) (c : BLEScale.t) : BLEScale.t * bool :=
  match keys with
  | [] => (c, true)
  | k :: keys' =>
      match BLEScale.py_contains k data with
      | None => (c, false)
      | Some false => copy_keys_str tg keys' data c
      | Some true =>
          match BLEScale.py_getitem data k with
          | None => (c, false)
          | Some v =>
              copy_keys_str tg keys' data
                (BLEScale.store tg k (PStr (py_str v)) c)
          end
      end
  end.

(** One turn of the loop after the split. *)
Definition rx_line (attr_handle : Z) (line : bytes) (c : BLEScale.t)
  : BLEScale.t * bool :=
  let line := strip line in
  match line with
  | [] => (c, true)
  | _ =>
      match utf8_decode line with
      | None => (c, true)
      | Some json_str =>
          (* Must look like a full JSON object *)
          if negb (starts_with (bs "{") json_str && ends_with (bs "}") json_str)
          then (c, true)
          else
            match ujson_loads json_str with
            | None => (c, true)
            | Some data =>
                if attr_handle =? BLEScale.fused_rx_handle c then
                  copy_keys_str BLEScale.Fused BLEScale.RX_KEYS data c
                else if attr_handle =? BLEScale.gps_rx_handle c then
                  copy_keys_str BLEScale.Gps BLEScale.RX_KEYS data c
                else (c, true)
            end
      end
  end.

(** [while True: nl = buf.find(b"\n"); if nl == -1: break; ...] on the
    local [buf]; the second component is [None] when an exception left the
    loop. *)
Fixpoint rx_loop (fuel : nat) (attr_handle : Z) (buf : bytes) (c : BLEScale.t)
  : BLEScale.t * option bytes :=
  match fuel with
  | O => (c, Some buf)
  | S fuel' =>
      match BLEScale.split_nl buf with
      | None => (c, Some buf)
      | Some (line, rest) =>
          let '(c', ok) := rx_line attr_handle line c in
          if ok then rx_loop fuel' attr_handle rest c' else (c', None)
      end
  end.

Definition buffers (st : t) : gmap Z bytes := default ∅ (_rx_buffers st).

Definition save_received_data_1 (attr_handle : Z) (raw_data : bytes) (st : t) : t :=
  (* Lazy-init per-handle buffers dict *)
  let bufs := buffers st in
  (* Get current buffer for this handle, append new raw bytes *)
  let buf := default [] (bufs !! attr_handle) ++ raw_data in
  let '(c, leftover) := rx_loop (S (length buf)) attr_handle buf (core st) in
  match leftover with
  | Some buf' =>
      (* Save leftover partial bytes for this handle *)
      mk c (Some (<[attr_handle := buf']> bufs))
  | None => mk c (Some bufs)
  end.

End WithRuntime.
End BLEScale131.

(** ** A reference runtime for closed examples

    Floats are exact decimals (rationals in lowest terms): [float] reads
    the decimal syntax Python accepts over the characters
    [-+0123456789.eE], [round(x, 7)] rounds half to even at the seventh
    decimal, [int] truncates towards zero.  On the literals of the examples
    below (a few digits, magnitude far from the float range) this is what a
    binary float runtime returns as well.  The JSON decoder follows the
    grammar of RFC 8259; a repeated key keeps its last value. *)
Module RefRuntime.

Definition digit (b : byte) : option Z :=
  if between 48 57 b then Some (Z.of_N (Byte.to_N b) - 48) else None.

(** Leading digits: their value on top of [acc], how many, and the rest. *)
Fixpoint digits (s : bytes) (acc : Z) (n : nat) : Z * nat * bytes :=
  match s with
  | c :: r =>
      match digit c with
      | Some d => digits r (10 * acc + d) (S n)
      | None => (acc, n, s)
      end
  | [] => (acc, n, [])
  end.

Definition sign (s : bytes) : bool * bytes :=
  match s with
  | "-"%byte :: r => (true, r)
  | "+"%byte :: r => (false, r)
  | _ => (false, s)
  end.

(** [m * 10^e] in lowest terms. *)
Definition scale10 (m e : Z) : Q :=
  if 0 <=? e then inject_Z (m * 10 ^ e)
  else Qred (m # Z.to_pos (10 ^ (- e))).

Definition exponent (s : bytes) : option (Z * bytes) :=
  match s with
  | c :: r =>
      if byte_in c (bs "eE") then
        let '(neg, r) := sign r in
        let '(e, n, r) := digits r 0 0 in
        match n with
        | O => None
        | _ => Some (if neg then - e else e, r)
        end
      else Some (0, s)
  | [] => Some (0, [])
  end.

Definition dec_float (s : bytes) : option Q :=
  let '(neg, s) := sign s in
  let '(ip, ni, s) := digits s 0 0 in
  let '(m, nf, s) :=
    match s with
    | "."%byte :: r => digits r ip 0
    | _ => (ip, O, s)
    end in
  match (ni + nf)%nat with
  | O => None
  | _ =>
      match exponent s with
      | Some (e, []) => Some (scale10 (if neg then - m else m) (e - Z.of_nat nf))
      | _ => None
      end
  end.

(** Nearest integer, ties to even. *)
Definition round_half_even (q : Q) : Z :=
  let n := Qnum q in
  let d := Z.pos (Qden q) in
  let f := n / d in
  let r := n mod d in
  if 2 * r <? d then f
  else if d <? 2 * r then f + 1
  else if Z.even f then f else f + 1.

Definition dec_round7 (q : Q) : Q :=
  Qred (round_half_even (Qmult q (inject_Z (10 ^ 7))) # Z.to_pos (10 ^ 7)).

Definition dec_int (q : Q) : option Z :=
  Some (Z.quot (Qnum q) (Z.pos (Qden q))).

(** JSON text. *)
Definition JSON_WS : bytes := [x20; x09; x0a; x0d].

Definition skip_ws (s : bytes) : bytes := drop_while_in JSON_WS s.

Definition hex (b : byte) : option N :=
  let n := Byte.to_N b in
  if between 48 57 b then Some (n - 48)%N
  else if between 97 102 b then Some (n - 87)%N
  else if between 65 70 b then Some (n - 55)%N
  else None.

Definition byte_of (n : N) : byte := default x00 (Byte.of_N n).

(** UTF-8 of a code point of the basic plane. *)
Definition utf8_of (cp : N) : bytes :=
  if (cp <? 128)%N then [byte_of cp]
  else if (cp <? 2048)%N then
    [byte_of (192 + cp / 64); byte_of (128 + cp mod 64)]
  else
    [byte_of (224 + cp / 4096); byte_of (128 + (cp / 64) mod 64);
     byte_of (128 + cp mod 64)].

Definition escape (e : byte) : option byte :=
  match e with
  | x22 => Some x22
  | x5c => Some x5c
  | x2f => Some x2f
  | "b"%byte => Some x08
  | "f"%byte => Some x0c
  | "n"%byte => Some x0a
  | "r"%byte => Some x0d
  | "t"%byte => Some x09
  | _ => None
  end.

(** The characters of a string after its opening quote, and what follows
    the closing quote. *)
Fixpoint json_string (s : bytes) : option (bytes * bytes) :=
  match s with
  | [] => None
  | x22 :: r => Some ([], r)
  | x5c :: "u"%byte :: h1 :: h2 :: h3 :: h4 :: r =>
      match hex h1, hex h2, hex h3, hex h4, json_string r with
      | Some a, Some b, Some c, Some d, Some (txt, rest) =>
          Some (utf8_of (((a * 16 + b) * 16 + c) * 16 + d)%N ++ txt, rest)
      | _, _, _, _, _ => None
      end
  | x5c :: e :: r =>
      match escape e, json_string r with
      | Some c, Some (txt, rest) => Some (c :: txt, rest)
      | _, _ => None
      end
  | c :: r =>
      if between 0 31 c then None
      else match json_string r with
           | Some (txt, rest) => Some (c :: txt, rest)
           | None => None
           end
  end.

Definition all_digits (s : bytes) : bool := forallb (between 48 57) s.

(** A number: an integer literal is an [int], anything else a float. *)
Definition json_number (s : bytes) : option (pyobj Q * bytes) :=
  let tok := take_while_in (bs "-+0123456789.eE") s in
  let rest := drop_while_in (bs "-+0123456789.eE") s in
  match tok with
  | [] => None
  | "+"%byte :: _ => None
  | "-"%byte :: ds =>
      if all_digits ds then
        match ds with
        | [] => None
        | _ => Some (PInt (- fst (fst (digits ds 0 0))), rest)
        end
      else option_map (fun x => (PFloat x, rest)) (dec_float tok)
  | _ =>
      if all_digits tok then Some (PInt (fst (fst (digits tok 0 0))), rest)
      else option_map (fun x => (PFloat x, rest)) (dec_float tok)
  end.

(** [d[k] = v] on the members read so far. *)
Fixpoint member_set (k : string) (v : pyobj Q) (d : list (string * pyobj Q))
  : list (string * pyobj Q) :=
  match d with
  | [] => [(k, v)]
  | (k', v') :: d' =>
      if String.eqb k' k then (k, v) :: d' else (k', v') :: member_set k v d'
  end.

Fixpoint json_value (fuel : nat) (s : bytes) : option (pyobj Q * bytes) :=
  match fuel with
  | O => None
  | S f =>
      match skip_ws s with
      | "{"%byte :: r =>
          match skip_ws r with
          | "}"%byte :: r' => Some (PDict [], r')
          | _ => json_members f r []
          end
      | "["%byte :: r =>
          match skip_ws r with
          | "]"%byte :: r' => Some (PList [], r')
          | _ => json_elements f r []
          end
      | x22 :: r =>
          option_map (fun p => (PStr (fst p), snd p)) (json_string r)
      | "t"%byte :: "r"%byte :: "u"%byte :: "e"%byte :: r => Some (PBool true, r)
      | "f"%byte :: "a"%byte :: "l"%byte :: "s"%byte :: "e"%byte :: r =>
          Some (PBool false, r)
      | "n"%byte :: "u"%byte :: "l"%byte :: "l"%byte :: r => Some (PNone, r)
      | s' => json_number s'
      end
  end
with json_members (fuel : nat) (s : bytes) (acc : list (string * pyobj Q))
  : option (pyobj Q * bytes) :=
  match fuel with
  | O => None
  | S f =>
      match skip_ws s with
      | x22 :: r =>
          match json_string r with
          | Some (k, r1) =>
              match skip_ws r1 with
              | ":"%byte :: r2 =>
                  match json_value f r2 with
                  | Some (v, r3) =>
                      let acc := member_set (string_of_list_byte k) v acc in
                      match skip_ws r3 with
                      | ","%byte :: r4 => json_members f r4 acc
                      | "}"%byte :: r4 => Some (PDict acc, r4)
                      | _ => None
                      end
                  | None => None
                  end
              | _ => None
              end
          | None => None
          end
      | _ => None
      end
  end
with json_elements (fuel : nat) (s : bytes) (acc : list (pyobj Q))
  : option (pyobj Q * bytes) :=
  match fuel with
  | O => None
  | S f =>
      match json_value f s with
      | Some (v, r1) =>
          match skip_ws r1 with
          | ","%byte :: r2 => json_elements f r2 (acc ++ [v])
          | "]"%byte :: r2 => Some (PList (acc ++ [v]), r2)
          | _ => None
          end
      | None => None
      end
  end.

Definition json_loads (s : bytes) : option (pyobj Q) :=
  match json_value (2 * length s + 2) s with
  | Some (v, rest) =>
      match skip_ws rest with
      | [] => Some v
      | _ => None
      end
  | None => None
  end.

#[global] Instance pf : PyFloat :=
  {| pyfloat := Q; float_zero := 0%Q; float_of_str := dec_float;
     round7 := dec_round7; int_of_float := dec_int |}.

#[global] Instance uj : Ujson := {| ujson_loads := json_loads |}.

(** A freshly constructed peripheral: handles as a BLE stack hands them
    out, nothing received yet. *)
Definition fresh : BLEScale.t :=
  BLEScale.mk 16 18 20 22 24 26 (PFloat 0%Q) (PowerManager.init 0) []
    BLEScale.rx_defaults BLEScale.rx_defaults ∅ [].

End RefRuntime.

(* ===================================================================== *)
(** * Part II: vocabulary of the statements                               *)
(* ===================================================================== *)

(** A reading below the no-load threshold. *)
Definition quiet (s : Z * Q) : Prop := PowerManager.no_load (snd s) = true.

Definition is_error (e : led_event) : bool :=
  match e with Error _ => true | _ => false end.

Definition is_clear_error (e : led_event) : bool :=
  match e with ClearError _ => true | _ => false end.

(** The level a pin shows for a colour component. *)
Definition pin_level (low : bool) (x : Z) : Z :=
  if low then (if x =? 0 then 1 else 0) else (if x =? 0 then 0 else 1).

Definition pin_levels (low : bool) (c : rgb) : Z * Z * Z :=
  let '(r, g, b) := c in (pin_level low r, pin_level low g, pin_level low b).

(** The levels of the three discrete pins. *)
Definition pins `{HW : NeoPixelHW} (m : C6Combo.t) : Z * Z * Z :=
  (C6Combo._red m, C6Combo._green m, C6Combo._blue m).

(** What a call leaves alone: the configuration, and the event state. *)
Definition config `{HW : NeoPixelHW} (m : C6Combo.t) :=
  (C6Combo._idx m, C6Combo._b m, C6Combo._low m, C6Combo._p_blue m,
   C6Combo._w_green m, C6Combo._p_green m, C6Combo._w_red m, C6Combo._p_red m).

Definition events `{HW : NeoPixelHW} (m : C6Combo.t) :=
  (C6Combo._connected m, C6Combo._t_xfer m, C6Combo._t_err m).

Definition s3_flags `{HW : NeoPixelHW} (m : S3RGB.t) :=
  (S3RGB._connected m, S3RGB._t_xfer m, S3RGB._error_active m).

Definition s3_config `{HW : NeoPixelHW} (m : S3RGB.t) :=
  (S3RGB._idx m, S3RGB._b m, S3RGB._p_blue m, S3RGB._w_green m, S3RGB._p_green m).

(** The half period [period // 2 or 1] of a blink with a positive
    period, in milliseconds. *)
Definition half_period (period : Z) : Z := Z.max 1 (period / 2).

(** The colour of the error indication of the time-windowed manager at
    clock [now]: the clock counted in half periods of the error blink is
    odd in the on-phase, which shows red, and even in the off-phase, which
    shows nothing; so does a blink whose period is not positive. *)
Definition error_blink (now p_red : Z) : rgb :=
  if (0 <? p_red) && Z.odd (now / half_period p_red) then (255, 0, 0)
  else (0, 0, 0).

(** A colour blinking with a period at clock [now]: shown while the clock,
    counted in half periods, is odd, and dark while it is even; a blink
    whose period is not positive stays dark. *)
Definition blinking (c : rgb) (now period : Z) : rgb :=
  if (0 <? period) && Z.odd (now / half_period period) then c else (0, 0, 0).

(** A colour at brightness [b], as the NeoPixel receives it. *)
Definition dimmed `{HW : NeoPixelHW} (c : rgb) (b : brightness) : rgb :=
  (int_mul (fst (fst c)) b, int_mul (snd (fst c)) b, int_mul (snd c) b).

(** The complete lines of a byte stream and the bytes after its last
    newline. *)
Fixpoint lines_rem (buf : bytes) : list bytes * bytes :=
  match buf with
  | [] => ([], [])
  | c :: r =>
      let '(ls, rem) := lines_rem r in
      if Byte.eqb c NL then ([] :: ls, rem)
      else match ls with
           | [] => ([], c :: rem)
           | l :: ls' => ((c :: l) :: ls', rem)
           end
  end.

(** A loop body that neither reads nor writes [rx_buffer]. *)
Definition buffer_framed `{PF : PyFloat}
    (body : bytes -> BLEScale.t -> BLEScale.t) : Prop :=
  forall line b st,
    body line (BLEScale.with_rx_buffer b st) = BLEScale.with_rx_buffer b (body line st).

Definition apply_lines `{PF : PyFloat}
    (body : bytes -> BLEScale.t -> BLEScale.t) (ls : list bytes) (st : BLEScale.t)
  : BLEScale.t :=
  fold_left (fun s l => body l s) ls st.

(** The test of step 5 on the decoded, stripped text. *)
Definition no_object (s : bytes) : Prop :=
  find (bs "{") s = -1 \/ rfind "}"%byte s = -1 \/ rfind "}"%byte s <= find (bs "{") s.

(** The per-line decode as the specification words it (4.1, steps 1 to 4):
    trim and drop an empty line; drop a line that does not start with ['{']
    and end with ['}']; attempt the strict decode and, only when it fails,
    fall back to the tolerant scan; merge the recognised fields into the
    record of the channel. *)
Definition two_stage_line `{PF : PyFloat} `{UJ : !Ujson}
    (attr_handle : Z) (json_bytes : bytes) (st : BLEScale.t) : BLEScale.t :=
  let s := strip json_bytes in
  match s with
  | [] => st
  | _ =>
      if starts_with (bs "{") s && ends_with (bs "}") s then
        match BLEScale.rx_target attr_handle st with
        | None => st
        | Some tg =>
            match ujson_loads s with
            | Some data => BLEScale.copy_keys tg BLEScale.RX_KEYS data st
            | None => BLEScale.scan_store tg s st
            end
        end
      else st
  end.

(** The readings of a run since its last load reading (all of them when
    there was none), and the clock of that load reading. *)
Fixpoint quiet_since (samples : list (Z * Q)) : nat :=
  match samples with
  | [] => O
  | s :: r =>
      if forallb (fun x => PowerManager.no_load (snd x)) r
      then (if PowerManager.no_load (snd s) then S (length r) else length r)
      else quiet_since r
  end.

Fixpoint last_load (samples : list (Z * Q)) : option Z :=
  match samples with
  | [] => None
  | s :: r =>
      match last_load r with
      | Some t => Some t
      | None => if PowerManager.no_load (snd s) then None else Some (fst s)
      end
  end.

(** A level read from a pin, and the value of a word given by its bits,
    most significant first. *)
Definition is_bit (b : Z) : Prop := b = 0 \/ b = 1.

Fixpoint msb_first (bits : list Z) : Z :=
  match bits with
  | [] => 0
  | b :: r => b * 2 ^ Z.of_nat (length r) + msb_first r
  end.

(** The turns of the main loop whose reading succeeded, as the power
    manager sees them. *)
Definition readings (rs : list (Z * option Q)) : list (Z * Q) :=
  omap (fun r => match snd r with Some w => Some (fst r, w) | None => None end) rs.

(** The power manager and the level of the HX711 clock pin, seen from the
    object that runs the main loop. *)
Definition loop_pm {kg} (b : ScaleLoop.t kg) : PowerManager.t :=
  LowPowerScale.pm (ScaleLoop.scale b).

Definition loop_sck {kg} (b : ScaleLoop.t kg) : Z :=
  HX711.pSCK (LowPowerScale.hx (ScaleLoop.scale b)).

(** The keys of an RX record, and of a payload. *)
Definition RX_KEY_SET : gset string := list_to_set BLEScale.RX_KEYS.

Definition PAYLOAD_KEY_SET : gset string :=
  {[ "from"; "weight"; "time"; "latitude"; "longitude"; "speed";
     "altitude"; "accuracy"; "idle" ]}%string.

(** A number, as opposed to the other values JSON can carry. *)
Definition is_number {F} (v : pyobj F) : Prop :=
  match v with PInt _ | PFloat _ => True | _ => False end.

(** Both RX records have exactly the six keys. *)
Definition records_shaped `{PF : PyFloat} (st : BLEScale.t) : Prop :=
  dom (BLEScale.fused_rx_data st) = RX_KEY_SET
  /\ dom (BLEScale.gps_rx_data st) = RX_KEY_SET.

(** Every value of both RX records is a number. *)
Definition records_numeric `{PF : PyFloat} (st : BLEScale.t) : Prop :=
  map_Forall (fun _ v => is_number v) (BLEScale.fused_rx_data st)
  /\ map_Forall (fun _ v => is_number v) (BLEScale.gps_rx_data st).

(** A run of writes, each with the handle it is made on. *)
Definition writes `{PF : PyFloat}
    (save : Z -> bytes -> BLEScale.t -> BLEScale.t)
    (ws : list (Z * bytes)) (st : BLEScale.t) : BLEScale.t :=
  fold_left (fun s w => save (fst w) (snd w) s) ws st.

(** What no write touches: the handles, the weight to send, the power
    manager and the last payload. *)
Definition rx_frame `{PF : PyFloat} (st : BLEScale.t) :=
  (BLEScale.weight_tx_handle st, BLEScale.weight_rx_handle st,
   BLEScale.fused_tx_handle st, BLEScale.fused_rx_handle st,
   BLEScale.gps_tx_handle st, BLEScale.gps_rx_handle st,
   BLEScale.weight_tx st, BLEScale.pm st, BLEScale.tx_data st).

(** A stream as its complete lines, each followed by a newline, and the
    bytes after the last newline. *)
Definition join_lines (ls : list bytes) (rem : bytes) : bytes :=
  concat (map (fun l => l ++ [NL]) ls) ++ rem.

Definition no_newline (b : bytes) : Prop := ~ In NL b.

(** The handles of a channel and the name it sends as [from]. *)
Definition rx_handle `{PF : PyFloat} (tg : BLEScale.target) (st : BLEScale.t) : Z :=
  match tg with
  | BLEScale.Fused => BLEScale.fused_rx_handle st
  | BLEScale.Gps => BLEScale.gps_rx_handle st
  end.

Definition tx_handle `{PF : PyFloat} (tg : BLEScale.target) (st : BLEScale.t) : Z :=
  match tg with
  | BLEScale.Fused => BLEScale.fused_tx_handle st
  | BLEScale.Gps => BLEScale.gps_tx_handle st
  end.

Definition channel_name (tg : BLEScale.target) : bytes :=
  match tg with BLEScale.Fused => bs "fused" | BLEScale.Gps => bs "gps" end.

(** The BLE stack hands out six different handles; these are the
    differences the code relies on. *)
Definition handles_distinct `{PF : PyFloat} (st : BLEScale.t) : Prop :=
  BLEScale.fused_rx_handle st <> BLEScale.gps_rx_handle st
  /\ BLEScale.weight_tx_handle st <> BLEScale.fused_tx_handle st
  /\ BLEScale.weight_tx_handle st <> BLEScale.gps_tx_handle st
  /\ BLEScale.fused_tx_handle st <> BLEScale.gps_tx_handle st.

(** The value kept under a key for the number [x] read for it: latitude
    and longitude rounded to seven places, time as the integer [int(x)],
    or as [x] itself where [int] raises (infinities and NaN), any other
    key as [x]. *)
Definition stored_value `{PF : PyFloat} (k : string) (x : pyfloat) : pyobj pyfloat :=
  if String.eqb k "latitude" || String.eqb k "longitude" then PFloat (round7 x)
  else if String.eqb k "time" then
    match int_of_float x with
    | Some z => PInt z
    | None => PFloat x
    end
  else PFloat x.

(** *** The text of a field, as the tolerant scan reads it *)

(** The characters a number is made of, and the blanks that may come
    before it. *)
Definition NUMBER_CHARS : bytes := bs "-+0123456789.eE".

Definition BLANKS : bytes := [x20; x09].

(** The text [p] occurs somewhere in [s]. *)
Definition occurs_in (p s : bytes) : Prop := exists a b, s = a ++ p ++ b.

(** The text [l] does not go on with a character of [set]. *)
Definition stops_at (set l : bytes) : Prop :=
  match l with
  | c :: _ => ~ In c set
  | [] => True
  end.

(** [s] holds the characters [number] for [key]: [s] is cut at the first
    occurrence of the quoted key and at the first colon from there on;
    after that colon come spaces and tabs, all of them, and then [number],
    the longest run of number characters, possibly empty. *)
Definition field_text (key : string) (number s : bytes) : Prop :=
  exists pre mid ws rest : bytes,
    s = pre ++ quoted key ++ mid ++ [":"%byte] ++ ws ++ number ++ rest
    /\ ~ occurs_in (quoted key) (pre ++ removelast (quoted key))
    /\ ~ In ":"%byte (quoted key ++ mid)
    /\ Forall (fun c => In c BLANKS) ws
    /\ stops_at BLANKS (number ++ rest)
    /\ Forall (fun c => In c NUMBER_CHARS) number
    /\ stops_at NUMBER_CHARS rest.

(** [s] holds the quoted key, and no colon from its first occurrence on. *)
Definition field_cut (key : string) (s : bytes) : Prop :=
  exists pre mid : bytes,
    s = pre ++ quoted key ++ mid
    /\ ~ occurs_in (quoted key) (pre ++ removelast (quoted key))
    /\ ~ In ":"%byte (quoted key ++ mid).

(** [s] is the span of [t] from its first ['{'] to its last ['}']. *)
Definition cropped (t s : bytes) : Prop :=
  exists pre m post : bytes,
    t = pre ++ s ++ post
    /\ s = "{"%byte :: m ++ ["}"%byte]
    /\ ~ In "{"%byte pre
    /\ ~ In "}"%byte post.



(* ===================================================================== *)
(** * Part III: properties                                                *)
(* ===================================================================== *)

(** ** Sampling controller *)

Section PowerManagerProps.
Import PowerManager.

Lemma no_load_lt w : no_load w = true <-> (Qabs w < NO_LOAD_THRESHOLD_G)%Q.
Proof.
  unfold no_load, Qltb. rewrite negb_true_iff.
  split; intros H.
  - apply Qnot_le_lt. intros Hle. apply Qle_bool_iff in Hle. congruence.
  - destruct (Qle_bool NO_LOAD_THRESHOLD_G (Qabs w)) eqn:E; [|reflexivity].
    apply Qle_bool_iff in E. exfalso. eapply Qlt_not_le; eassumption.
Qed.

Lemma no_load_ge w : no_load w = false <-> (NO_LOAD_THRESHOLD_G <= Qabs w)%Q.
Proof.
  unfold no_load, Qltb. rewrite negb_false_iff. apply Qle_bool_iff.
Qed.

Lemma feed_snoc samples s pm :
  feed (samples ++ [s]) pm = update_with_weight (fst s) (snd s) (feed samples pm).
Proof. unfold feed. now rewrite fold_left_app. Qed.

(** While only no-load readings arrive, the counter counts them and the
    clock of the last activity is not touched. *)
Lemma feed_quiet_count samples pm :
  Forall quiet samples ->
  _no_load_count (feed samples pm) = _no_load_count pm + Z.of_nat (length samples)
  /\ _last_active_ms (feed samples pm) = _last_active_ms pm.
Proof.
  induction samples as [|s samples IH] using rev_ind; intros Hq.
  - cbn. split; [lia | reflexivity].
  - apply Forall_app in Hq as [Hq Hs].
    apply Forall_inv in Hs. red in Hs.
    destruct (IH Hq) as [IHc IHt].
    rewrite feed_snoc, length_app. cbn [length].
    unfold update_with_weight. rewrite Hs. cbn.
    destruct (_ <=? _); cbn; split; try lia; assumption.
Qed.

(** From a non-idle state, [idle] is raised exactly when the counter
    reaches the threshold. *)
Lemma feed_quiet_idle samples pm :
  Forall quiet samples -> idle pm = false ->
  0 <= _no_load_count pm ->
  idle (feed samples pm) =
    (bool_decide (samples <> []) &&
     (NO_LOAD_STABLE_SAMPLES <=? _no_load_count pm + Z.of_nat (length samples))).
Proof.
  induction samples as [|s samples IH] using rev_ind; intros Hq Hi Hc.
  - cbn. rewrite Hi. reflexivity.
  - apply Forall_app in Hq as [Hq Hs].
    apply Forall_inv in Hs. red in Hs.
    specialize (IH Hq Hi Hc).
    destruct (feed_quiet_count samples pm Hq) as [Hcnt _].
    rewrite feed_snoc, length_app. cbn [length].
    unfold update_with_weight. rewrite Hs. cbn.
    rewrite Hcnt.
    rewrite bool_decide_true by (now destruct samples).
    replace (_no_load_count pm + Z.of_nat (length samples + 1))
      with (_no_load_count pm + Z.of_nat (length samples) + 1) by lia.
    destruct (Z.leb_spec NO_LOAD_STABLE_SAMPLES
                (_no_load_count pm + Z.of_nat (length samples) + 1)) as [Hle|Hlt];
      cbn; [reflexivity|].
    rewrite IH.
    destruct (Z.leb_spec NO_LOAD_STABLE_SAMPLES
                (_no_load_count pm + Z.of_nat (length samples))); [lia|].
    now rewrite andb_false_r.
Qed.

(** C6. Sampling-controller hysteresis.  Starting from the initial state,
    [NO_LOAD_STABLE_SAMPLES - 1] consecutive readings with
    [|w| < NO_LOAD_THRESHOLD_G] leave [idle] false after each of them, and
    the next such reading sets [idle]; from any state one reading with
    [|w| >= NO_LOAD_THRESHOLD_G] clears [idle], resets the counter to 0 and
    stores the current clock in [_last_active_ms]. *)
Theorem update_with_weight_hysteresis :
  forall (t0 : Z) (samples : list (Z * Q)) (s : Z * Q)
         (pm : t) (now : Z) (w : Q),
    Forall (fun x => (Qabs (snd x) < NO_LOAD_THRESHOLD_G)%Q) samples ->
    length samples = Z.to_nat (NO_LOAD_STABLE_SAMPLES - 1) ->
    (Qabs (snd s) < NO_LOAD_THRESHOLD_G)%Q ->
    (NO_LOAD_THRESHOLD_G <= Qabs w)%Q ->
    (forall k, idle (feed (take k samples) (init t0)) = false)
    /\ idle (feed (samples ++ [s]) (init t0)) = true
    /\ update_with_weight now w pm =
         {| _no_load_count := 0; _last_active_ms := now; idle := false |}.
Proof.
  intros t0 samples s pm now w Hq Hlen Hs Hw.
  assert (Hq' : Forall quiet samples).
  { eapply Forall_impl; [exact Hq|]. intros x Hx. now apply no_load_lt. }
  split; [|split].
  - intros k.
    rewrite feed_quiet_idle;
      [| now apply Forall_take | reflexivity | cbn; lia].
    apply andb_false_iff. right. apply Z.leb_gt.
    rewrite length_take, Hlen.
    unfold NO_LOAD_STABLE_SAMPLES. cbn [init _no_load_count]. lia.
  - rewrite feed_quiet_idle; [| | reflexivity | cbn; lia].
    + rewrite bool_decide_true by (now destruct samples).
      rewrite length_app, Hlen. reflexivity.
    + apply Forall_app. split; [assumption|].
      constructor; [|constructor]. now apply no_load_lt.
  - unfold update_with_weight.
    apply no_load_ge in Hw. now rewrite Hw.
Qed.

Lemma update_with_weight_hysteresis_witness :
  (forall k, idle (feed (take k (repeat (0, (1 # 2)%Q) 19)) (init 0)) = false)
  /\ idle (feed (repeat (0, (1 # 2)%Q) 19 ++ [(7, (-1 # 4)%Q)]) (init 0)) = true
  /\ update_with_weight 4100 (-(5 # 2))%Q (PowerManager.mk 23 17 true) =
       {| _no_load_count := 0; _last_active_ms := 4100; idle := false |}.
Proof.
  apply (update_with_weight_hysteresis 0 (repeat (0, (1 # 2)%Q) 19)
           (7, (-1 # 4)%Q) (PowerManager.mk 23 17 true) 4100 (-(5 # 2))%Q).
  - cbn [repeat]. repeat constructor.
  - reflexivity.
  - reflexivity.
  - cbn. unfold Qle. cbn. lia.
Defined.

End PowerManagerProps.

(** ** Indicator state machine *)

Section C6ComboProps.
Context `{HW : NeoPixelHW}.
Import C6Combo.

Lemma pin_set_level low pin x :
  _pin_set low pin (if x =? 0 then 0 else 1) = pin_level low x.
Proof.
  unfold _pin_set, pin_level.
  destruct low, (x =? 0); cbn;
    match goal with |- context [pin =? ?v] => destruct (Z.eqb_spec pin v) end;
    cbn; congruence.
Qed.

Lemma drive_np_frame c m :
  config (drive_np c m) = config m /\ events (drive_np c m) = events m
  /\ pins (drive_np c m) = pins m.
Proof.
  unfold drive_np. destruct (_np_ok m); [|easy].
  destruct (np_show _ _ _) as [d []]; easy.
Qed.

Lemma drive_pins_frame c m :
  config (drive_pins c m) = config m /\ events (drive_pins c m) = events m
  /\ _np_ok (drive_pins c m) = _np_ok m /\ _np (drive_pins c m) = _np m.
Proof. unfold drive_pins. destruct c as [[r g] b]. easy. Qed.

Lemma drive_pins_levels c m : pins (drive_pins c m) = pin_levels (_low m) c.
Proof.
  unfold drive_pins, pins, pin_levels. destruct c as [[r g] b]. cbn.
  now rewrite !pin_set_level.
Qed.

Lemma set_rgb_frame c m :
  config (_set_rgb c m) = config m /\ events (_set_rgb c m) = events m.
Proof.
  unfold _set_rgb.
  destruct (drive_pins_frame c (drive_np c m)) as (H1 & H2 & _).
  destruct (drive_np_frame c m) as (H3 & H4 & _).
  split; congruence.
Qed.

(** The pins are driven on every call, whatever happens to the NeoPixel. *)
Lemma set_rgb_levels c m : pins (_set_rgb c m) = pin_levels (_low m) c.
Proof.
  unfold _set_rgb. rewrite drive_pins_levels.
  destruct (drive_np_frame c m) as (H & _). unfold config in H. congruence.
Qed.

(** Once degraded, the NeoPixel is never written nor re-enabled. *)
Lemma set_rgb_degraded c m :
  _np_ok m = false ->
  _set_rgb c m = drive_pins c m.
Proof. intros H. unfold _set_rgb, drive_np. now rewrite H. Qed.

Lemma set_rgb_config c m : config (_set_rgb c m) = config m.
Proof. apply set_rgb_frame. Qed.

Lemma set_rgb_t_err c m : _t_err (_set_rgb c m) = _t_err m.
Proof.
  destruct (set_rgb_frame c m) as [_ H]. unfold events in H. congruence.
Qed.

Lemma step_config m e : config (step m e) = config m.
Proof.
  destruct e; unfold step, on_connect, on_disconnect, on_transfer, on_error,
    off_all, update; rewrite ?set_rgb_config; reflexivity.
Qed.

Lemma step_t_err m e : is_error e = false -> _t_err (step m e) = _t_err m.
Proof.
  intros He.
  destruct e; try discriminate;
    unfold step, on_connect, on_disconnect, on_transfer, off_all, update;
    rewrite ?set_rgb_t_err; reflexivity.
Qed.

Lemma step_degraded m e :
  _np_ok m = false -> _np_ok (step m e) = false /\ _np (step m e) = _np m.
Proof.
  intros H.
  assert (Hset : forall c x, _np_ok x = false ->
            _np_ok (_set_rgb c x) = false /\ _np (_set_rgb c x) = _np x).
  { intros c x Hx. rewrite set_rgb_degraded by assumption.
    destruct (drive_pins_frame c x) as (_ & _ & -> & ->). now split. }
  destruct e; unfold step, on_connect, on_disconnect, on_transfer, on_error,
    off_all, update; try (now split);
    match goal with |- context [_set_rgb ?c ?x] =>
      destruct (Hset c x H) as [H1 H2]; split; [exact H1 | exact H2] end.
Qed.

Lemma run_config es m : config (run es m) = config m.
Proof.
  revert m. induction es as [|e es IH]; intros m; cbn; [reflexivity|].
  unfold run in IH. rewrite IH. apply step_config.
Qed.

Lemma run_t_err es m :
  Forall (fun e => is_error e = false) es -> _t_err (run es m) = _t_err m.
Proof.
  revert m. induction es as [|e es IH]; intros m Hes; cbn; [reflexivity|].
  inversion Hes; subst. unfold run in IH. rewrite IH by assumption.
  now apply step_t_err.
Qed.

Lemma run_degraded es m :
  _np_ok m = false -> _np_ok (run es m) = false /\ _np (run es m) = _np m.
Proof.
  revert m. induction es as [|e es IH]; intros m H; cbn; [easy|].
  destruct (step_degraded m e H) as [H1 H2].
  unfold run in IH. destruct (IH _ H1) as [H3 H4]. split; congruence.
Qed.

(** [_blink] counts the clock in half periods and returns the parity. *)
Lemma blink_mod now period :
  0 < period -> _blink now period = (now / half_period period) mod 2.
Proof.
  intros Hp. unfold _blink, half_period.
  destruct (Z.leb_spec period 0); [lia|].
  assert (0 <= period / 2) by (apply Z.div_pos; lia).
  replace (if period / 2 =? 0 then 1 else period / 2) with (Z.max 1 (period / 2))
    by (destruct (Z.eqb_spec (period / 2) 0); lia).
  change 1 with (Z.ones 1) at 2. now rewrite Z.land_ones by lia.
Qed.

Lemma blink_phase now period :
  (_blink now period =? 0) = negb ((0 <? period) && Z.odd (now / half_period period)).
Proof.
  destruct (Z.ltb_spec 0 period) as [Hp|Hp]; cbn [andb negb].
  - rewrite blink_mod by assumption.
    rewrite Zmod_odd. now destruct (Z.odd (now / half_period period)).
  - unfold _blink. destruct (Z.leb_spec period 0); [reflexivity|lia].
Qed.

Lemma scale_dimmed c b : _scale c b = dimmed c b.
Proof. now destruct c as [[r g] bb]. Qed.

(** A write on a working NeoPixel hands the dimmed colour to the driver
    and keeps what the driver returns. *)
Lemma set_rgb_drives c m :
  _np_ok m = true ->
  _np (_set_rgb c m) = fst (np_show (_np m) (_idx m) (dimmed c (_b m)))
  /\ _np_ok (_set_rgb c m) = snd (np_show (_np m) (_idx m) (dimmed c (_b m))).
Proof.
  intros Hok. unfold _set_rgb.
  destruct (drive_pins_frame c (drive_np c m)) as (_ & _ & -> & ->).
  unfold drive_np. rewrite Hok, scale_dimmed.
  destruct (np_show _ _ _) as [d []]; now split.
Qed.

End C6ComboProps.

Section S3RGBProps.
Context `{HW : NeoPixelHW}.
Import S3RGB.

Lemma set_frame c m :
  s3_flags (_set c m) = s3_flags m /\ s3_config (_set c m) = s3_config m.
Proof.
  unfold _set. destruct (_np_ok m); cbn; [|easy].
  destruct (np_show _ _ _) as [d []]; easy.
Qed.

Lemma set_error_active c m : _error_active (_set c m) = _error_active m.
Proof.
  destruct (set_frame c m) as [H _]. unfold s3_flags in H. congruence.
Qed.

(** A degraded NeoPixel is skipped: [_set] returns at once. *)
Lemma set_degraded c m : _np_ok m = false -> _set c m = m.
Proof. intros H. unfold _set. now rewrite H. Qed.

Lemma set_fault c m :
  _np_ok m = true ->
  snd (np_show (_np m) (_idx m) (_scale c (_b m))) = false ->
  _np_ok (_set c m) = false.
Proof.
  intros Hok Hf. unfold _set. rewrite Hok. cbn.
  destruct (np_show _ _ _) as [d ok]. cbn in Hf. now subst ok.
Qed.

(** No call other than [clear_error] lowers the error flag. *)
Lemma step_error_active m e :
  is_clear_error e = false ->
  _error_active m = true -> _error_active (step m e) = true.
Proof.
  intros He H.
  destruct e; try discriminate;
    unfold step, on_connect, on_disconnect, on_transfer, on_error, off_all,
      update; cbn [with_flags _error_active];
    repeat match goal with |- context [if ?b then _ else _] => destruct b end;
    rewrite ?set_error_active; solve [assumption | reflexivity].
Qed.

Lemma run_error_active es m :
  Forall (fun e => is_clear_error e = false) es ->
  _error_active m = true -> _error_active (run es m) = true.
Proof.
  revert m. induction es as [|e es IH]; intros m Hes H; cbn; [assumption|].
  inversion Hes; subst. unfold run in IH. apply IH; [assumption|].
  now apply step_error_active.
Qed.

Lemma on_error_active m : _error_active (on_error m) = true.
Proof. unfold on_error. now rewrite set_error_active. Qed.

Lemma update_error_active now m :
  _error_active m = true ->
  update_rgb now m = C_R /\ update now m = _set C_R m.
Proof. intros H. unfold update, update_rgb. now rewrite H. Qed.

Lemma set_drives c m :
  _np_ok m = true ->
  _np (_set c m) = fst (np_show (_np m) (_idx m) (dimmed c (_b m)))
  /\ _np_ok (_set c m) = snd (np_show (_np m) (_idx m) (dimmed c (_b m))).
Proof.
  intros Hok. unfold _set. rewrite Hok, scale_dimmed. cbn [negb].
  destruct (np_show _ _ _) as [d []]; now split.
Qed.

Lemma step_s3_config m e : s3_config (step m e) = s3_config m.
Proof.
  destruct e; unfold step, on_connect, on_disconnect, on_transfer, on_error,
    off_all, clear_error, update;
    repeat match goal with |- context [if ?b then _ else _] => destruct b end;
    repeat match goal with |- context [_set ?c ?x] =>
             destruct (set_frame c x) as [_ ->] end;
    reflexivity.
Qed.

Lemma run_s3_config es m : s3_config (run es m) = s3_config m.
Proof.
  revert m. induction es as [|e es IH]; intros m; cbn; [reflexivity|].
  unfold run in IH. rewrite IH. apply step_s3_config.
Qed.

End S3RGBProps.

(** C7 (as amended). Error dominates.  After [on_connect] and [on_error],
    and whatever calls other than a new [on_error] follow (transfers
    included), every [update] at a time inside the error window drives the
    error indication and nothing else.  In the time-windowed manager that
    is the error blink: red while the clock, counted in half periods of
    the error blink, is odd, and off while it is even; the pins take the
    levels of that colour, and a working NeoPixel is handed it at the
    configured brightness and index.  In the sticky manager it is solid
    red, handed to a working NeoPixel in the same way, as long as
    [clear_error] is not called.  The transfer pulse never shows. *)
Theorem error_dominates_update `{HW : NeoPixelHW}
    (m0 : C6Combo.t) (te : Z) (es : list led_event)
    (s0 : S3RGB.t) (es' : list led_event) (now : Z) :
  Forall (fun e => is_error e = false) es ->
  ticks_diff now te < C6Combo._w_red m0 ->
  Forall (fun e => is_clear_error e = false) es' ->
  let m := C6Combo.run es (C6Combo.on_error te (C6Combo.on_connect m0)) in
  let s := S3RGB.run es' (S3RGB.on_error (S3RGB.on_connect s0)) in
  let c := error_blink now (C6Combo._p_red m0) in
  let shown := np_show (C6Combo._np m) (C6Combo._idx m0) (dimmed c (C6Combo._b m0)) in
  let red := np_show (S3RGB._np s) (S3RGB._idx s0) (dimmed (255, 0, 0) (S3RGB._b s0)) in
  (C6Combo.update_rgb now m = c
   /\ C6Combo.update now m = C6Combo._set_rgb c m
   /\ pins (C6Combo.update now m) = pin_levels (C6Combo._low m0) c
   /\ (C6Combo._np_ok m = true ->
       C6Combo._np (C6Combo.update now m) = fst shown
       /\ C6Combo._np_ok (C6Combo.update now m) = snd shown))
  /\ (S3RGB.update_rgb now s = (255, 0, 0)
      /\ S3RGB.update now s = S3RGB._set C_R s
      /\ (S3RGB._np_ok s = true ->
          S3RGB._np (S3RGB.update now s) = fst red
          /\ S3RGB._np_ok (S3RGB.update now s) = snd red)).
Proof.
  intros Hes Hlt Hes' m s c shown red.
  assert (Hwin : _win now (Some te) (C6Combo._w_red m0) = true)
    by (now apply Z.ltb_lt).
  assert (Hcfg : config m = config m0).
  { unfold m. rewrite run_config. unfold C6Combo.on_error, C6Combo.on_connect.
    change (config (C6Combo.with_events ?c ?x ?e ?y)) with (config y).
    now rewrite set_rgb_config. }
  assert (Herr : C6Combo._t_err m = Some te).
  { unfold m. now rewrite run_t_err. }
  unfold config in Hcfg.
  assert (Hrgb : C6Combo.update_rgb now m = c).
  { unfold C6Combo.update_rgb, c, error_blink. rewrite Herr.
    replace (C6Combo._w_red m) with (C6Combo._w_red m0) by congruence.
    rewrite Hwin. replace (C6Combo._p_red m) with (C6Combo._p_red m0) by congruence.
    rewrite blink_phase.
    now destruct ((0 <? C6Combo._p_red m0)
                  && Z.odd (now / half_period (C6Combo._p_red m0))). }
  assert (Hs3 : s3_config s = s3_config s0).
  { unfold s. rewrite run_s3_config.
    change (S3RGB.on_error (S3RGB.on_connect s0))
      with (S3RGB.step (S3RGB.step s0 Connect) (Error 0)).
    now rewrite !step_s3_config. }
  unfold s3_config in Hs3.
  assert (Ha : S3RGB._error_active s = true).
  { unfold s. apply run_error_active; [assumption|]. apply on_error_active. }
  destruct (update_error_active now s Ha) as [Hred Hupd].
  split; [split; [|split; [|split]] | split; [|split]].
  - exact Hrgb.
  - unfold C6Combo.update. now rewrite Hrgb.
  - unfold C6Combo.update. rewrite set_rgb_levels, Hrgb.
    replace (C6Combo._low m) with (C6Combo._low m0) by congruence. reflexivity.
  - intros Hok. unfold C6Combo.update. rewrite Hrgb.
    destruct (set_rgb_drives c m Hok) as [Hd Ho]. unfold shown.
    replace (C6Combo._idx m0) with (C6Combo._idx m) by congruence.
    replace (C6Combo._b m0) with (C6Combo._b m) by congruence.
    now split.
  - exact Hred.
  - exact Hupd.
  - intros Hok. rewrite Hupd.
    destruct (set_drives C_R s Hok) as [Hd Ho]. unfold red.
    replace (S3RGB._idx s0) with (S3RGB._idx s) by congruence.
    replace (S3RGB._b s0) with (S3RGB._b s) by congruence.
    now split.
Qed.

(** On a one-pixel strip at brightness 0.2, error at 1000 ms, transfers
    at 1010 and 1030 ms: at 1040 ms the clock is in the eleventh half
    period of the 180 ms error blink, so both managers show red, the pixel
    holds red at a fifth of full scale and only the red pin is high. *)
Lemma error_dominates_update_witness :
  let m0 := C6Combo.init (HW := SimHW.hw) (Some [C_OFF]) [] 0 (1 # 5)%Q false
              1000 600 200 2000 180 true in
  let s0 := S3RGB.init (HW := SimHW.hw) (Some [C_OFF]) [] 0 (1 # 5)%Q 1000 600 200 true in
  let es := [Transfer 1010; Update 1020; Transfer 1030] in
  let m := C6Combo.run es (C6Combo.on_error 1000 (C6Combo.on_connect m0)) in
  let s := S3RGB.run es (S3RGB.on_error (S3RGB.on_connect s0)) in
  (C6Combo.update_rgb 1040 m = (255, 0, 0)
   /\ pins (C6Combo.update 1040 m) = (1, 0, 0)
   /\ C6Combo._np (C6Combo.update 1040 m) = [(51, 0, 0)]
   /\ C6Combo._np_ok (C6Combo.update 1040 m) = true)
  /\ (S3RGB.update_rgb 1040 s = (255, 0, 0)
      /\ S3RGB._np (S3RGB.update 1040 s) = [(51, 0, 0)]
      /\ S3RGB._np_ok (S3RGB.update 1040 s) = true).
Proof.
  intros m0 s0 es m s.
  pose proof (error_dominates_update m0 1000 es s0 es 1040
                ltac:(repeat constructor) ltac:(vm_compute; reflexivity)
                ltac:(repeat constructor)) as H.
  cbv zeta in H. fold m s in H.
  destruct H as ((H1 & _ & H3 & H4) & (H5 & _ & H7)).
  destruct (H4 ltac:(vm_compute; reflexivity)) as [H4a H4b].
  destruct (H7 ltac:(vm_compute; reflexivity)) as [H7a H7b].
  split; [split; [|split; [|split]] | split; [|split]].
  - rewrite H1. reflexivity.
  - rewrite H3. reflexivity.
  - rewrite H4a. vm_compute. reflexivity.
  - rewrite H4b. vm_compute. reflexivity.
  - exact H5.
  - rewrite H7a. vm_compute. reflexivity.
  - rewrite H7b. vm_compute. reflexivity.
Defined.

(** C7 as stated fails in the time-windowed manager: connected, error at
    1000 ms, a transfer at 1010 ms; at 1090 ms the error window (2000 ms) is
    open, yet [update] is in the off-phase of the 180 ms error blink and
    drives every pin low instead of showing red. *)
Lemma error_window_off_phase_counterexample :
  let m0 := C6Combo.init (HW := SimHW.hw) (Some [C_OFF]) [] 0 (1 # 5)%Q false
              1000 600 200 2000 180 true in
  let m := C6Combo.on_transfer 1010
             (C6Combo.on_error 1000 (C6Combo.on_connect m0)) in
  _win 1090 (C6Combo._t_err m) (C6Combo._w_red m) = true
  /\ C6Combo.update_rgb 1090 m = C_OFF
  /\ pins (C6Combo.update 1090 m) = (0, 0, 0)
  /\ pins (C6Combo._set_rgb C_R m) = (1, 0, 0)
  /\ C6Combo.update 1090 m <> C6Combo._set_rgb C_R m.
Proof.
  cbv zeta. repeat split; try (vm_compute; reflexivity).
  intros H. apply (f_equal pins) in H. vm_compute in H. discriminate H.
Qed.

(** C8. Degraded-output isolation.  When the NeoPixel write raises inside
    [_set_rgb], only the NeoPixel is marked degraded and the pins are still
    driven with the colour in that same call; whatever calls follow, the
    NeoPixel stays degraded and is never written again, while every
    [update] drives the pins with the colour it resolves.  In the manager
    whose only output is the NeoPixel, the failed write marks it degraded
    and later writes are skipped. *)
Theorem neopixel_fault_isolated `{HW : NeoPixelHW}
    (m : C6Combo.t) (c : rgb) (es : list led_event) (now : Z)
    (s : S3RGB.t) (c' c'' : rgb) :
  C6Combo._np_ok m = true ->
  snd (np_show (C6Combo._np m) (C6Combo._idx m)
         (_scale c (C6Combo._b m))) = false ->
  S3RGB._np_ok s = true ->
  snd (np_show (S3RGB._np s) (S3RGB._idx s) (_scale c' (S3RGB._b s))) = false ->
  let m1 := C6Combo._set_rgb c m in
  let m2 := C6Combo.run es m1 in
  let m3 := C6Combo.update now m2 in
  (C6Combo._np_ok m1 = false /\ pins m1 = pin_levels (C6Combo._low m) c)
  /\ (C6Combo._np_ok m2 = false /\ C6Combo._np m2 = C6Combo._np m1)
  /\ (C6Combo._np_ok m3 = false /\ C6Combo._np m3 = C6Combo._np m1
      /\ pins m3 = pin_levels (C6Combo._low m) (C6Combo.update_rgb now m2))
  /\ (S3RGB._np_ok (S3RGB._set c' s) = false
      /\ S3RGB._set c'' (S3RGB._set c' s) = S3RGB._set c' s).
Proof.
  intros Hok Hf Hok' Hf' m1 m2 m3.
  assert (H1 : C6Combo._np_ok m1 = false).
  { unfold m1, C6Combo._set_rgb.
    destruct (drive_pins_frame c (C6Combo.drive_np c m)) as (_ & _ & -> & _).
    unfold C6Combo.drive_np. rewrite Hok.
    destruct (np_show _ _ _) as [d ok]. cbn in Hf. now subst ok. }
  destruct (run_degraded es m1 H1) as [H2 H2'].
  fold m2 in H2, H2'.
  destruct (step_degraded m2 (Update now) H2) as [H3 H3'].
  change (C6Combo.step m2 (Update now)) with m3 in H3, H3'.
  assert (Hlow : C6Combo._low m2 = C6Combo._low m).
  { pose proof (run_config es m1) as Hc. fold m2 in Hc.
    pose proof (set_rgb_config c m) as Hc'. fold m1 in Hc'.
    unfold config in Hc, Hc'. congruence. }
  repeat split; try assumption.
  - apply set_rgb_levels.
  - congruence.
  - unfold m3, C6Combo.update. rewrite set_rgb_levels. now rewrite Hlow.
  - now apply set_fault.
  - apply set_degraded. now apply set_fault.
Qed.

Lemma neopixel_fault_isolated_witness :
  let m := C6Combo.mk (HW := SimHW.hw) true [C_OFF] 3 (1 # 5)%Q 0 0 0 false
             true None None 1000 600 200 2000 180 in
  let s := S3RGB.mk (HW := SimHW.hw) true [C_OFF] 3 (1 # 5)%Q true None false 1000 600 200 in
  let m1 := C6Combo._set_rgb C_B m in
  let m2 := C6Combo.run [Transfer 40; Update 50; Disconnect] m1 in
  let m3 := C6Combo.update 700 m2 in
  (C6Combo._np_ok m1 = false /\ pins m1 = pin_levels false C_B)
  /\ (C6Combo._np_ok m2 = false /\ C6Combo._np m2 = C6Combo._np m1)
  /\ (C6Combo._np_ok m3 = false /\ C6Combo._np m3 = C6Combo._np m1
      /\ pins m3 = pin_levels false (C6Combo.update_rgb 700 m2))
  /\ (S3RGB._np_ok (S3RGB._set C_B s) = false
      /\ S3RGB._set C_G (S3RGB._set C_B s) = S3RGB._set C_B s).
Proof.
  intros m s.
  apply (neopixel_fault_isolated m C_B [Transfer 40; Update 50; Disconnect]
           700 s C_B C_G); reflexivity.
Defined.

(** C10. Sticky error.  In [S3RGBManager] of v1.5.1, once [on_error] has
    been called, no sequence of [on_connect], [on_disconnect],
    [on_transfer], [on_error], [off_all] or [update] calls, at whatever
    times, clears the error: the flag stays set and every [update] resolves
    to and drives solid red, that is, a working NeoPixel is handed red at
    the configured brightness and index and the manager keeps what the
    driver returns; a NeoPixel that has failed before is left alone.  A
    [clear_error] call lowers the flag, and [update] then resolves blue or
    green from connection and transfer state again: blinking green while
    connected within the transfer pulse, solid blue while connected
    otherwise, blinking blue while disconnected. *)
Theorem sticky_error_persists `{HW : NeoPixelHW}
    (s0 : S3RGB.t) (es : list led_event) (now now' : Z) :
  Forall (fun e => is_clear_error e = false) es ->
  let s := S3RGB.run es (S3RGB.on_error s0) in
  let s' := S3RGB.clear_error now' s in
  let red := np_show (S3RGB._np s) (S3RGB._idx s0) (dimmed (255, 0, 0) (S3RGB._b s0)) in
  S3RGB._error_active s = true
  /\ S3RGB.update_rgb now s = (255, 0, 0)
  /\ S3RGB.update now s = S3RGB._set C_R s
  /\ (S3RGB._np_ok s = true ->
      S3RGB._np (S3RGB.update now s) = fst red
      /\ S3RGB._np_ok (S3RGB.update now s) = snd red
      /\ s3_flags (S3RGB.update now s) = s3_flags s)
  /\ (S3RGB._np_ok s = false -> S3RGB.update now s = s)
  /\ S3RGB._error_active s' = false
  /\ S3RGB.update_rgb now s' =
       (if S3RGB._connected s && _win now (S3RGB._t_xfer s) (S3RGB._w_green s0)
        then blinking (0, 255, 0) now (S3RGB._p_green s0)
        else if S3RGB._connected s then (0, 0, 255)
        else blinking (0, 0, 255) now (S3RGB._p_blue s0)).
Proof.
  intros Hes s s' red.
  assert (Ha : S3RGB._error_active s = true).
  { apply run_error_active; [assumption | apply on_error_active]. }
  destruct (update_error_active now s Ha) as [Hrgb Hupd].
  assert (Hf : s3_flags s' = (S3RGB._connected s, S3RGB._t_xfer s, false)
               /\ s3_config s' = s3_config s).
  { unfold s', S3RGB.clear_error, S3RGB.update.
    match goal with |- context [S3RGB._set ?c ?x] =>
      destruct (set_frame c x) as [-> ->] end. now split. }
  destruct Hf as [Hf Hc]. unfold s3_flags in Hf. unfold s3_config in Hc.
  assert (Hs3 : s3_config s = s3_config s0).
  { unfold s. rewrite run_s3_config.
    change (S3RGB.on_error s0) with (S3RGB.step s0 (Error 0)).
    now rewrite step_s3_config. }
  unfold s3_config in Hs3.
  split; [assumption|]. split; [assumption|]. split; [assumption|].
  split; [|split; [|split]].
  - intros Hok. rewrite Hupd.
    destruct (set_drives C_R s Hok) as [Hd Ho]. unfold red.
    replace (S3RGB._idx s0) with (S3RGB._idx s) by congruence.
    replace (S3RGB._b s0) with (S3RGB._b s) by congruence.
    split; [assumption|]. split; [assumption|]. apply set_frame.
  - intros Hok. rewrite Hupd. now apply set_degraded.
  - congruence.
  - unfold S3RGB.update_rgb.
    replace (S3RGB._error_active s') with false by congruence.
    replace (S3RGB._connected s') with (S3RGB._connected s) by congruence.
    replace (S3RGB._t_xfer s') with (S3RGB._t_xfer s) by congruence.
    replace (S3RGB._w_green s') with (S3RGB._w_green s) by congruence.
    replace (S3RGB._p_green s') with (S3RGB._p_green s) by congruence.
    replace (S3RGB._p_blue s') with (S3RGB._p_blue s) by congruence.
    replace (S3RGB._w_green s) with (S3RGB._w_green s0) by congruence.
    replace (S3RGB._p_green s) with (S3RGB._p_green s0) by congruence.
    replace (S3RGB._p_blue s) with (S3RGB._p_blue s0) by congruence.
    rewrite !blink_phase. unfold blinking.
    destruct (S3RGB._connected s && _win now (S3RGB._t_xfer s) (S3RGB._w_green s0)).
    + now destruct ((0 <? S3RGB._p_green s0)
                    && Z.odd (now / half_period (S3RGB._p_green s0))).
    + destruct (S3RGB._connected s); [reflexivity|].
      now destruct ((0 <? S3RGB._p_blue s0)
                    && Z.odd (now / half_period (S3RGB._p_blue s0))).
Qed.

(** On a one-pixel strip at brightness 0.2: after the error and a run of
    connects, disconnects, transfers and updates over fifteen minutes, an
    update leaves the pixel at red, a fifth of full scale; after
    [clear_error] the manager, connected with a transfer 8 ms ago, is in
    the green pulse again. *)
Lemma sticky_error_persists_witness :
  let s0 := S3RGB.init (HW := SimHW.hw) (Some [C_OFF]) [] 0 (1 # 5)%Q 1000 600 200 true in
  let es := [Connect; Transfer 100; Update 200; Disconnect; OffAll;
             Connect; Update 900000; Error 900001; Transfer 900002] in
  let s := S3RGB.run es (S3RGB.on_error s0) in
  let s' := S3RGB.clear_error 900010 s in
  S3RGB._error_active s = true
  /\ S3RGB.update_rgb 900005 s = (255, 0, 0)
  /\ S3RGB._np (S3RGB.update 900005 s) = [(51, 0, 0)]
  /\ S3RGB._np_ok (S3RGB.update 900005 s) = true
  /\ S3RGB._error_active s' = false
  /\ S3RGB.update_rgb 900110 s' = (0, 255, 0).
Proof.
  intros s0 es s s'.
  pose proof (sticky_error_persists s0 es 900005 900010
                ltac:(repeat constructor)) as H.
  pose proof (sticky_error_persists s0 es 900110 900010
                ltac:(repeat constructor)) as H'.
  cbv zeta in H, H'. fold s s' in H, H'.
  destruct H as (H1 & H2 & _ & H4 & _ & H6 & _).
  destruct H' as (_ & _ & _ & _ & _ & _ & H7).
  destruct (H4 ltac:(vm_compute; reflexivity)) as (H4a & H4b & _).
  split; [exact H1|]. split; [exact H2|].
  split; [rewrite H4a; vm_compute; reflexivity|].
  split; [rewrite H4b; vm_compute; reflexivity|].
  split; [exact H6|].
  rewrite H7. vm_compute. reflexivity.
Defined.


(** ** Channel framer *)

Section FramerProps.
Context `{PF : PyFloat}.
Import BLEScale.

Lemma with_rx_buffer_id st : with_rx_buffer (rx_buffer st) st = st.
Proof. now destruct st. Qed.

Lemma split_nl_length buf line rest :
  split_nl buf = Some (line, rest) -> (length rest < length buf)%nat.
Proof.
  revert line. induction buf as [|c r IH]; intros line H; cbn in *; [discriminate|].
  destruct (Byte.eqb c NL).
  - injection H as <- <-. lia.
  - destruct (split_nl r) as [[l' r']|]; [|discriminate].
    injection H as <- <-. specialize (IH _ eq_refl). lia.
Qed.

Lemma split_nl_lines buf line rest :
  split_nl buf = Some (line, rest) ->
  lines_rem buf = (line :: fst (lines_rem rest), snd (lines_rem rest)).
Proof.
  revert line. induction buf as [|c r IH]; intros line H; cbn in *; [discriminate|].
  destruct (Byte.eqb c NL).
  - injection H as <- <-. now destruct (lines_rem r).
  - destruct (split_nl r) as [[l' r']|]; [|discriminate].
    injection H as <- <-. rewrite (IH _ eq_refl). reflexivity.
Qed.

Lemma split_nl_none buf : split_nl buf = None -> lines_rem buf = ([], buf).
Proof.
  induction buf as [|c r IH]; intros H; cbn in *; [reflexivity|].
  destruct (Byte.eqb c NL); [discriminate|].
  destruct (split_nl r) as [[l' r']|]; [discriminate|].
  now rewrite IH.
Qed.

Lemma lines_rem_drained buf : split_nl (snd (lines_rem buf)) = None.
Proof.
  induction buf as [|c r IH]; cbn; [reflexivity|].
  destruct (lines_rem r) as [ls rem]. cbn in IH.
  destruct (Byte.eqb c NL) eqn:E; [assumption|].
  destruct ls; cbn; [|assumption].
  now rewrite E, IH.
Qed.

(** Splitting the stream anywhere: the lines of the first part, then the
    lines of what it left pending followed by the second part. *)
Lemma lines_rem_app a b :
  lines_rem (a ++ b) =
    (fst (lines_rem a) ++ fst (lines_rem (snd (lines_rem a) ++ b)),
     snd (lines_rem (snd (lines_rem a) ++ b))).
Proof.
  induction a as [|c a IH]; cbn.
  - now destruct (lines_rem b).
  - rewrite IH. destruct (lines_rem a) as [la ra]. cbn.
    destruct (Byte.eqb c NL) eqn:E; [reflexivity|].
    destruct la as [|l la]; cbn.
    + rewrite E. now destruct (lines_rem (ra ++ b)) as [[|l' lb] rb].
    + reflexivity.
Qed.

Section Loop.
Variable body : bytes -> t -> t.
Hypothesis body_framed : buffer_framed body.

Lemma apply_lines_framed ls b st :
  apply_lines body ls (with_rx_buffer b st) = with_rx_buffer b (apply_lines body ls st).
Proof.
  unfold apply_lines. revert st.
  induction ls as [|l ls IH]; intros st; cbn [fold_left]; [reflexivity|].
  rewrite body_framed. apply IH.
Qed.

(** With fuel above the length of the buffer the loop runs until no
    newline is left: it applies the body to each complete line in order
    and keeps the rest. *)
Lemma rx_loop_lines fuel st :
  (length (rx_buffer st) < fuel)%nat ->
  rx_loop body fuel st =
    with_rx_buffer (snd (lines_rem (rx_buffer st)))
      (apply_lines body (fst (lines_rem (rx_buffer st))) st).
Proof.
  revert st. induction fuel as [|fuel IH]; intros st Hlen; [lia|].
  cbn [rx_loop].
  destruct (split_nl (rx_buffer st)) as [[line rest]|] eqn:E.
  - pose proof (split_nl_length _ _ _ E) as Hr.
    rewrite body_framed.
    rewrite IH by (cbn; lia).
    rewrite (split_nl_lines _ _ _ E). cbn.
    now rewrite apply_lines_framed.
  - rewrite (split_nl_none _ E). cbn. now rewrite with_rx_buffer_id.
Qed.

Lemma ingest_lines raw st :
  ingest body raw st =
    with_rx_buffer (snd (lines_rem (rx_buffer st ++ raw)))
      (apply_lines body (fst (lines_rem (rx_buffer st ++ raw))) st).
Proof.
  unfold ingest. rewrite rx_loop_lines by (cbn; lia).
  cbn. now rewrite apply_lines_framed.
Qed.

(** The loop has really ended: no newline is left in the buffer. *)
Lemma ingest_drained raw st : split_nl (rx_buffer (ingest body raw st)) = None.
Proof. rewrite ingest_lines. cbn. apply lines_rem_drained. Qed.

(** More fuel changes nothing. *)
Lemma rx_loop_fuel fuel st :
  (length (rx_buffer st) < fuel)%nat ->
  rx_loop body fuel st = rx_loop body (S (length (rx_buffer st))) st.
Proof. intros H. rewrite !rx_loop_lines by lia. reflexivity. Qed.

Lemma ingest_app a b st :
  ingest body (a ++ b) st = ingest body b (ingest body a st).
Proof.
  rewrite !ingest_lines. cbn.
  rewrite app_assoc, lines_rem_app. cbn.
  rewrite apply_lines_framed. cbn.
  unfold apply_lines. now rewrite fold_left_app.
Qed.

Lemma ingest_nil st : split_nl (rx_buffer st) = None -> ingest body [] st = st.
Proof.
  intros H. rewrite ingest_lines, app_nil_r, (split_nl_none _ H). cbn.
  apply with_rx_buffer_id.
Qed.

Lemma ingest_chunks chunks st :
  split_nl (rx_buffer st) = None ->
  fold_left (fun s c => ingest body c s) chunks st = ingest body (concat chunks) st.
Proof.
  revert st. induction chunks as [|c cs IH]; intros st H; cbn [fold_left concat].
  - symmetry. now apply ingest_nil.
  - rewrite IH by apply ingest_drained. now rewrite ingest_app.
Qed.

End Loop.

Lemma store_opt_framed tg k v b st :
  store_opt tg k v (with_rx_buffer b st) = with_rx_buffer b (store_opt tg k v st).
Proof. now destruct v. Qed.

Lemma rx_line_framed h : buffer_framed (rx_line h).
Proof.
  intros line b st. unfold rx_line.
  destruct (clean_line line) as [s|]; [|reflexivity].
  change (rx_target h (with_rx_buffer b st)) with (rx_target h st).
  destruct (rx_target h st) as [tg|]; [|reflexivity].
  unfold scan_store. now rewrite !store_opt_framed.
Qed.

Lemma copy_keys_framed tg keys data b st :
  copy_keys tg keys data (with_rx_buffer b st) =
  with_rx_buffer b (copy_keys tg keys data st).
Proof.
  revert st. induction keys as [|k keys IH]; intros st; cbn; [reflexivity|].
  destruct (py_contains k data) as [[|]|]; try reflexivity; [|apply IH].
  destruct (py_getitem data k) as [v|]; [|reflexivity].
  change (store tg k v (with_rx_buffer b st)) with (with_rx_buffer b (store tg k v st)).
  apply IH.
Qed.

Lemma rx_line_1_framed `{UJ : !Ujson} h : buffer_framed (rx_line_1 h).
Proof.
  intros line b st. unfold rx_line_1.
  destruct line as [|c line]; [reflexivity|].
  destruct (utf8_decode (c :: line)) as [s|]; [|reflexivity].
  destruct (ujson_loads s) as [data|]; [|reflexivity].
  change (fused_rx_handle (with_rx_buffer b st)) with (fused_rx_handle st).
  change (gps_rx_handle (with_rx_buffer b st)) with (gps_rx_handle st).
  destruct (h =? fused_rx_handle st); [apply copy_keys_framed|].
  destruct (h =? gps_rx_handle st); [apply copy_keys_framed|reflexivity].
Qed.

End FramerProps.

(** C1. Chunking invariance.  Whatever bytes are delivered to one
    characteristic, cut into chunks at arbitrary places and handed to the
    ingest function one call per chunk, the object ends in the same state as
    after one call with the whole stream: the same telemetry records, the
    same sequence of item assignments, the same pending bytes; and the loop
    has ended with no complete line left.  This holds for the tolerant
    parser [save_received_data] of v1.3.2 and for [save_received_data_1]
    of unf_s3.py. *)
Theorem chunking_invariance `{PF : PyFloat} `{UJ : !Ujson}
    (attr_handle : Z) (chunks : list bytes) (st : BLEScale.t) :
  BLEScale.split_nl (BLEScale.rx_buffer st) = None ->
  let chunked :=
    fold_left (fun s c => BLEScale.save_received_data attr_handle c s) chunks st in
  let whole := BLEScale.save_received_data attr_handle (concat chunks) st in
  let chunked_1 :=
    fold_left (fun s c => BLEScale.save_received_data_1 attr_handle c s) chunks st in
  let whole_1 := BLEScale.save_received_data_1 attr_handle (concat chunks) st in
  (chunked = whole
   /\ BLEScale.fused_rx_data chunked = BLEScale.fused_rx_data whole
   /\ BLEScale.gps_rx_data chunked = BLEScale.gps_rx_data whole
   /\ BLEScale.stores chunked = BLEScale.stores whole
   /\ BLEScale.split_nl (BLEScale.rx_buffer whole) = None)
  /\ (chunked_1 = whole_1
      /\ BLEScale.fused_rx_data chunked_1 = BLEScale.fused_rx_data whole_1
      /\ BLEScale.gps_rx_data chunked_1 = BLEScale.gps_rx_data whole_1
      /\ BLEScale.stores chunked_1 = BLEScale.stores whole_1
      /\ BLEScale.split_nl (BLEScale.rx_buffer whole_1) = None).
Proof.
  intros Hst chunked whole chunked_1 whole_1.
  assert (E : chunked = whole).
  { apply (ingest_chunks _ (rx_line_framed attr_handle)); assumption. }
  assert (E1 : chunked_1 = whole_1).
  { apply (ingest_chunks _ (rx_line_1_framed attr_handle)); assumption. }
  split.
  - rewrite E. repeat split; try reflexivity.
    apply (ingest_drained _ (rx_line_framed attr_handle)).
  - rewrite E1. repeat split; try reflexivity.
    apply (ingest_drained _ (rx_line_1_framed attr_handle)).
Qed.

Lemma chunking_invariance_witness :
  let chunks :=
    [bs "{" ++ [DQUOTE] ++ bs "lat";
     bs "itude" ++ [DQUOTE] ++ bs ":1.0}" ++ [NL] ++ bs "{" ++ [DQUOTE] ++ bs "longi";
     bs "tude" ++ [DQUOTE] ++ bs ":2";
     bs ".0}" ++ [NL]] in
  let st := RefRuntime.fresh in
  let chunked :=
    fold_left (fun s c => BLEScale.save_received_data 22 c s) chunks st in
  let whole := BLEScale.save_received_data 22 (concat chunks) st in
  let chunked_1 :=
    fold_left (fun s c => BLEScale.save_received_data_1 22 c s) chunks st in
  let whole_1 := BLEScale.save_received_data_1 22 (concat chunks) st in
  (chunked = whole
   /\ BLEScale.fused_rx_data chunked = BLEScale.fused_rx_data whole
   /\ BLEScale.gps_rx_data chunked = BLEScale.gps_rx_data whole
   /\ BLEScale.stores chunked = BLEScale.stores whole
   /\ BLEScale.split_nl (BLEScale.rx_buffer whole) = None)
  /\ (chunked_1 = whole_1
      /\ BLEScale.fused_rx_data chunked_1 = BLEScale.fused_rx_data whole_1
      /\ BLEScale.gps_rx_data chunked_1 = BLEScale.gps_rx_data whole_1
      /\ BLEScale.stores chunked_1 = BLEScale.stores whole_1
      /\ BLEScale.split_nl (BLEScale.rx_buffer whole_1) = None).
Proof.
  intros chunks st.
  apply (chunking_invariance 22 chunks st).
  reflexivity.
Defined.

Section LineProps.
Context `{PF : PyFloat}.
Import BLEScale.

Lemma lines_rem_one line :
  split_nl line = None -> lines_rem (line ++ [NL]) = ([line], []).
Proof.
  induction line as [|c r IH]; intros H; cbn in *; [reflexivity|].
  destruct (Byte.eqb c NL); [discriminate|].
  destruct (split_nl r) as [[l' r']|]; [discriminate|].
  now rewrite IH.
Qed.

Lemma framed_keeps_buffer body line st :
  buffer_framed body -> rx_buffer (body line st) = rx_buffer st.
Proof.
  intros Hf. rewrite <- (with_rx_buffer_id st) at 1. now rewrite Hf.
Qed.

(** One complete line arriving on an empty buffer: the body runs once on
    it and the buffer is empty again. *)
Lemma ingest_one_line body line st :
  buffer_framed body ->
  rx_buffer st = [] -> split_nl line = None ->
  ingest body (line ++ [NL]) st = body line st.
Proof.
  intros Hf Hb Hl. rewrite (ingest_lines _ Hf), Hb. cbn [app].
  rewrite (lines_rem_one _ Hl). cbn.
  rewrite <- (with_rx_buffer_id (body line st)).
  now rewrite (framed_keeps_buffer _ _ _ Hf), Hb.
Qed.


Lemma store_lookup_same tg key v st : rx_data tg (store tg key v st) !! key = Some v.
Proof. destruct tg; cbn; apply lookup_insert_eq. Qed.

Lemma store_lookup_other tg tg' key v st k :
  tg <> tg' \/ key <> k ->
  rx_data tg' (store tg key v st) !! k = rx_data tg' st !! k.
Proof.
  intros H. destruct tg, tg'; cbn; try reflexivity;
    destruct H as [H|H]; try congruence; now apply lookup_insert_ne.
Qed.

Lemma store_opt_lookup tg tg' key v st k :
  (key = k -> v = None) ->
  rx_data tg' (store_opt tg key v st) !! k = rx_data tg' st !! k.
Proof.
  intros H. destruct v as [v|]; [|reflexivity]. cbn.
  apply store_lookup_other. right. intros E. now specialize (H E).
Qed.

Lemma extract_absent s k : find (quoted k) s = -1 -> _extract_number s k = None.
Proof. intros H. unfold _extract_number. now rewrite H. Qed.

(** The tolerant body leaves alone every key whose quoted name does not
    occur in the cleaned line. *)
Lemma rx_line_lookup_absent h line st tg' k :
  (forall s, clean_line line = Some s -> find (quoted k) s = -1) ->
  rx_data tg' (rx_line h line st) !! k = rx_data tg' st !! k.
Proof.
  intros H. unfold rx_line.
  destruct (clean_line line) as [s|]; [|reflexivity].
  specialize (H s eq_refl). apply extract_absent in H.
  destruct (rx_target h st) as [tg|]; [|reflexivity].
  unfold scan_store.
  rewrite !store_opt_lookup; try reflexivity;
    intros <-; now rewrite H.
Qed.

Lemma copy_keys_lookup_absent tg tg' keys data st k :
  py_contains k data = Some false ->
  rx_data tg' (copy_keys tg keys data st) !! k = rx_data tg' st !! k.
Proof.
  intros H. revert st.
  induction keys as [|k0 keys IH]; intros st; cbn; [reflexivity|].
  destruct (py_contains k0 data) as [[|]|] eqn:E; try reflexivity; [|apply IH].
  destruct (py_getitem data k0) as [v|]; [|reflexivity].
  rewrite IH. apply store_lookup_other. right. congruence.
Qed.

Lemma utf8_decode_some b s : utf8_decode b = Some s -> s = b.
Proof. unfold utf8_decode. destruct (Nat.eqb _ _); congruence. Qed.

Lemma rx_line_1_lookup_absent `{UJ : !Ujson} h line data st tg' k :
  ujson_loads line = Some data ->
  py_contains k data = Some false ->
  rx_data tg' (rx_line_1 h line st) !! k = rx_data tg' st !! k.
Proof.
  intros Hl Hk. unfold rx_line_1.
  destruct line as [|c line]; [reflexivity|].
  destruct (utf8_decode (c :: line)) as [s|] eqn:E; [|reflexivity].
  apply utf8_decode_some in E. subst s. rewrite Hl.
  destruct (h =? fused_rx_handle st); [now apply copy_keys_lookup_absent|].
  destruct (h =? gps_rx_handle st); [now apply copy_keys_lookup_absent|reflexivity].
Qed.

(** The tolerant body on a line that survives cleaning and comes on an
    RX handle, given what the six extractions return. *)
Lemma rx_line_eval h tg st line s (lat lon alt spd tm acc : option pyfloat) :
  rx_target h st = Some tg ->
  clean_line line = Some s ->
  (_extract_number s "latitude", _extract_number s "longitude",
   _extract_number s "altitude", _extract_number s "speed",
   _extract_number s "time", _extract_number s "accuracy")
  = (lat, lon, alt, spd, tm, acc) ->
  rx_line h line st =
    store_opt tg "accuracy" (option_map PFloat acc)
      (store_opt tg "time" (option_map time_value tm)
        (store_opt tg "speed" (option_map PFloat spd)
          (store_opt tg "altitude" (option_map PFloat alt)
            (store_opt tg "longitude" (option_map PFloat (option_map round7 lon))
              (store_opt tg "latitude" (option_map PFloat (option_map round7 lat))
                 st))))).
Proof.
  intros Ht Hc He. unfold rx_line, scan_store. rewrite Hc, Ht.
  injection He as -> -> -> -> -> ->. reflexivity.
Qed.

End LineProps.

Section MergeProps.
Context `{PF : PyFloat} `{UJ : !Ujson}.
Import BLEScale.

Lemma rx_line_1_eval h tg st line data :
  line <> [] ->
  utf8_decode line = Some line ->
  ujson_loads line = Some data ->
  rx_target h st = Some tg ->
  rx_line_1 h line st = copy_keys tg RX_KEYS data st.
Proof.
  intros Hne Hd Hl Ht. unfold rx_line_1.
  destruct line as [|c line]; [congruence|].
  rewrite Hd, Hl. unfold rx_target in Ht.
  destruct (h =? fused_rx_handle st); [now injection Ht as <-|].
  destruct (h =? gps_rx_handle st); [now injection Ht as <-|discriminate].
Qed.

Lemma store_target h tg key v st : rx_target h (store tg key v st) = rx_target h st.
Proof. reflexivity. Qed.

(** Two stores of different keys, read back. *)
Lemma two_stores_lookup tg st (x y : pyobj pyfloat) (k1 k2 : string) :
  k1 <> k2 ->
  let a := store tg k2 y (store tg k1 x st) in
  rx_data tg a !! k1 = Some x
  /\ rx_data tg a !! k2 = Some y
  /\ (forall k, k <> k1 -> k <> k2 -> rx_data tg a !! k = rx_data tg st !! k).
Proof.
  intros Hne a. unfold a. repeat split.
  - rewrite store_lookup_other by (right; congruence). apply store_lookup_same.
  - apply store_lookup_same.
  - intros k H1 H2.
    rewrite !store_lookup_other by (right; congruence). reflexivity.
Qed.

End MergeProps.

(** What holds of the sparse merge.  On either RX characteristic,
    ingesting the line [{"latitude":1.0}] and then the line
    [{"longitude":2.0}] leaves the record of that characteristic with
    latitude 1.0 and longitude 2.0 and every other key as it was.  A
    message leaves untouched, in both records: with the [ujson] parser,
    every key that is not in the decoded object; with the tolerant parser,
    every key whose quoted name occurs nowhere in the cleaned line, which
    is less than every key the message does not contain (see below). *)
Theorem sparse_merge `{PF : PyFloat} `{UJ : !Ujson}
    (st : BLEScale.t) (h : Z) (tg : BLEScale.target) (one two : pyfloat)
    (line s line1 : bytes) (data : pyobj pyfloat) (k : string) :
  BLEScale.rx_buffer st = [] ->
  BLEScale.rx_target h st = Some tg ->
  float_of_str (bs "1.0") = Some one -> round7 one = one ->
  float_of_str (bs "2.0") = Some two -> round7 two = two ->
  ujson_loads (object1 "latitude" "1.0") = Some (PDict [("latitude"%string, PFloat one)]) ->
  ujson_loads (object1 "longitude" "2.0") = Some (PDict [("longitude"%string, PFloat two)]) ->
  BLEScale.split_nl line = None ->
  BLEScale.clean_line line = Some s ->
  find (quoted k) s = -1 ->
  BLEScale.split_nl line1 = None ->
  ujson_loads line1 = Some data ->
  BLEScale.py_contains k data = Some false ->
  let l1 := object1 "latitude" "1.0" ++ [NL] in
  let l2 := object1 "longitude" "2.0" ++ [NL] in
  let a := BLEScale.save_received_data h l2 (BLEScale.save_received_data h l1 st) in
  let a1 := BLEScale.save_received_data_1 h l2 (BLEScale.save_received_data_1 h l1 st) in
  (BLEScale.rx_data tg a !! "latitude"%string = Some (PFloat one)
   /\ BLEScale.rx_data tg a !! "longitude"%string = Some (PFloat two)
   /\ (forall k', k' <> "latitude"%string -> k' <> "longitude"%string ->
         BLEScale.rx_data tg a !! k' = BLEScale.rx_data tg st !! k'))
  /\ (BLEScale.rx_data tg a1 !! "latitude"%string = Some (PFloat one)
      /\ BLEScale.rx_data tg a1 !! "longitude"%string = Some (PFloat two)
      /\ (forall k', k' <> "latitude"%string -> k' <> "longitude"%string ->
            BLEScale.rx_data tg a1 !! k' = BLEScale.rx_data tg st !! k'))
  /\ (forall tg',
        BLEScale.rx_data tg' (BLEScale.save_received_data h (line ++ [NL]) st) !! k
        = BLEScale.rx_data tg' st !! k)
  /\ (forall tg',
        BLEScale.rx_data tg' (BLEScale.save_received_data_1 h (line1 ++ [NL]) st) !! k
        = BLEScale.rx_data tg' st !! k).
Proof.
  intros Hb Ht H1 Hr1 H2 Hr2 Hj1 Hj2 Hl Hc Hf Hl1 Hj Hk l1 l2 a a1.
  assert (Ea : a = BLEScale.store tg "longitude" (PFloat two)
                     (BLEScale.store tg "latitude" (PFloat one) st)).
  { unfold a, l1, l2, BLEScale.save_received_data.
    rewrite (ingest_one_line _ _ _ (rx_line_framed h) Hb)
      by (vm_compute; reflexivity).
    rewrite (rx_line_eval h tg st _ (object1 "latitude" "1.0")
               (float_of_str (bs "1.0")) None None None None None Ht);
      [| vm_compute; reflexivity | vm_compute; reflexivity].
    rewrite H1. cbn [option_map BLEScale.store_opt]. rewrite Hr1.
    rewrite (ingest_one_line _ _ _ (rx_line_framed h))
      by (first [exact Hb | vm_compute; reflexivity]).
    rewrite (rx_line_eval h tg _ _ (object1 "longitude" "2.0")
               None (float_of_str (bs "2.0")) None None None None);
      [| exact Ht | vm_compute; reflexivity | vm_compute; reflexivity].
    rewrite H2. cbn [option_map BLEScale.store_opt]. now rewrite Hr2. }
  assert (Ea1 : a1 = BLEScale.store tg "longitude" (PFloat two)
                       (BLEScale.store tg "latitude" (PFloat one) st)).
  { unfold a1, l1, l2, BLEScale.save_received_data_1.
    rewrite (ingest_one_line _ _ _ (rx_line_1_framed h) Hb)
      by (vm_compute; reflexivity).
    rewrite (rx_line_1_eval h tg st (object1 "latitude" "1.0")
               (PDict [("latitude"%string, PFloat one)]));
      [| by vm_compute | vm_compute; reflexivity | exact Hj1 | exact Ht].
    rewrite (ingest_one_line _ _ _ (rx_line_1_framed h))
      by (first [exact Hb | vm_compute; reflexivity]).
    rewrite (rx_line_1_eval h tg _ (object1 "longitude" "2.0")
               (PDict [("longitude"%string, PFloat two)]));
      [| by vm_compute | vm_compute; reflexivity | exact Hj2 | exact Ht].
    reflexivity. }
  split; [|split; [|split]].
  - rewrite Ea. now apply two_stores_lookup.
  - rewrite Ea1. now apply two_stores_lookup.
  - intros tg'. unfold BLEScale.save_received_data.
    rewrite (ingest_one_line _ _ _ (rx_line_framed h) Hb Hl).
    apply rx_line_lookup_absent. intros s' Hs'. congruence.
  - intros tg'. unfold BLEScale.save_received_data_1.
    rewrite (ingest_one_line _ _ _ (rx_line_1_framed h) Hb Hl1).
    now apply (rx_line_1_lookup_absent h line1 data).
Qed.

Lemma sparse_merge_witness :
  let st := RefRuntime.fresh in
  let line := object1 "speed" "4.5" in
  let k := "altitude"%string in
  let l1 := object1 "latitude" "1.0" ++ [NL] in
  let l2 := object1 "longitude" "2.0" ++ [NL] in
  let a := BLEScale.save_received_data 22 l2 (BLEScale.save_received_data 22 l1 st) in
  let a1 := BLEScale.save_received_data_1 22 l2 (BLEScale.save_received_data_1 22 l1 st) in
  (BLEScale.fused_rx_data a !! "latitude"%string = Some (PFloat 1%Q)
   /\ BLEScale.fused_rx_data a !! "longitude"%string = Some (PFloat 2%Q)
   /\ (forall k', k' <> "latitude"%string -> k' <> "longitude"%string ->
         BLEScale.fused_rx_data a !! k' = BLEScale.fused_rx_data st !! k'))
  /\ (BLEScale.fused_rx_data a1 !! "latitude"%string = Some (PFloat 1%Q)
      /\ BLEScale.fused_rx_data a1 !! "longitude"%string = Some (PFloat 2%Q)
      /\ (forall k', k' <> "latitude"%string -> k' <> "longitude"%string ->
            BLEScale.fused_rx_data a1 !! k' = BLEScale.fused_rx_data st !! k'))
  /\ (forall tg',
        BLEScale.rx_data tg' (BLEScale.save_received_data 22 (line ++ [NL]) st) !! k
        = BLEScale.rx_data tg' st !! k)
  /\ (forall tg',
        BLEScale.rx_data tg' (BLEScale.save_received_data_1 22 (line ++ [NL]) st) !! k
        = BLEScale.rx_data tg' st !! k).
Proof.
  intros st line k.
  apply (sparse_merge st 22 BLEScale.Fused 1%Q 2%Q line line line
           (PDict [("speed"%string, PFloat (9 # 2)%Q)]) k);
    vm_compute; reflexivity.
Defined.

(** C2 (fails on the code).  Sparse merge: a message updates only the
    fields it contains.  The line [{"label":"time","latitude":5}] is a
    JSON object with the two fields label and latitude; it has no field
    time.  The [ujson] parser of unf_s3.py stores latitude and leaves time
    as it was.  The tolerant parser of v1.3.2 finds the quoted name in the
    value of label, takes the number after the next colon, which is the
    latitude, and stores it as time as well: a field absent from the
    message does not retain its value. *)
Theorem sparse_merge_value_taken_for_key :
  let st := RefRuntime.fresh in
  let line := bs "{" ++ quoted "label" ++ bs ":" ++ quoted "time" ++ bs ","
              ++ field "latitude" "5" ++ bs "}" in
  let a := BLEScale.save_received_data (BLEScale.fused_rx_handle st) (line ++ [NL]) st in
  let a1 := BLEScale.save_received_data_1 (BLEScale.fused_rx_handle st) (line ++ [NL]) st in
  ujson_loads line
    = Some (PDict [("label"%string, PStr (bs "time")); ("latitude"%string, PInt 5)])
  /\ BLEScale.fused_rx_data st !! "time"%string = Some (PInt 0)
  /\ (BLEScale.fused_rx_data a1 !! "time"%string = Some (PInt 0)
      /\ BLEScale.stores a1 = [(BLEScale.Fused, "latitude"%string, PInt 5)])
  /\ (BLEScale.fused_rx_data a !! "time"%string = Some (PInt 5)
      /\ BLEScale.stores a = [(BLEScale.Fused, "latitude"%string, PFloat 5%Q);
                              (BLEScale.Fused, "time"%string, PInt 5)]).
Proof. cbv zeta. repeat split; vm_compute; reflexivity. Qed.

(** ** One buffer for all characteristics *)

Section SharedBuffer.
Context `{PF : PyFloat}.
Import BLEScale.

(** Bytes left pending by a write are the head of the stream of the next
    write, whatever the two handles are: the pending bytes carry no mark of
    the characteristic they came from. *)
Lemma pending_bytes_cross_handles body1 body2 a b st :
  buffer_framed body1 -> buffer_framed body2 ->
  split_nl (rx_buffer st ++ a) = None ->
  ingest body2 b (ingest body1 a st) = ingest body2 (a ++ b) st.
Proof.
  intros H1 H2 Hn.
  rewrite (ingest_lines _ H1 a), (split_nl_none _ Hn). cbn [fst snd apply_lines fold_left].
  unfold ingest. cbn. now rewrite app_assoc.
Qed.

End SharedBuffer.

(** The parser of v1.3.1, in contrast, keeps the pending bytes of each
    handle apart: a write on one handle leaves the pending bytes of every
    other handle as they were. *)
Lemma per_handle_buffers_apart `{PF : PyFloat} `{UJ : !Ujson} `{PS : !PyStr}
    (h h' : Z) (raw : bytes) (st : BLEScale131.t) :
  h <> h' ->
  BLEScale131.buffers (BLEScale131.save_received_data_1 h raw st) !! h'
  = BLEScale131.buffers st !! h'.
Proof.
  intros Hne. unfold BLEScale131.save_received_data_1.
  destruct (BLEScale131.rx_loop _ _ _ _) as [c [buf'|]]; cbn.
  - now apply lookup_insert_ne.
  - reflexivity.
Qed.

(** There a terminator written to another handle does not complete a
    pending line: nothing is stored and the line stays pending. *)
Lemma per_handle_pending_kept `{PF : PyFloat} `{UJ : !Ujson} `{PS : !PyStr}
    (h h' : Z) (part : bytes) (st : BLEScale131.t) :
  h <> h' ->
  BLEScale.split_nl part = None ->
  BLEScale131.buffers st !! h = None ->
  BLEScale131.buffers st !! h' = None ->
  let st1 := BLEScale131.save_received_data_1 h part st in
  let st2 := BLEScale131.save_received_data_1 h' [NL] st1 in
  BLEScale131.core st2 = BLEScale131.core st
  /\ BLEScale131.buffers st2 !! h = Some part
  /\ BLEScale131.buffers st2 !! h' = Some [].
Proof.
  intros Hne Hp Hh Hh' st1 st2.
  unfold BLEScale131.buffers in *.
  set (bufs := default ∅ (BLEScale131._rx_buffers st)) in *.
  assert (E1 : st1 = BLEScale131.mk (BLEScale131.core st) (Some (<[h := part]> bufs))).
  { unfold st1, BLEScale131.save_received_data_1, BLEScale131.buffers.
    fold bufs. rewrite Hh. cbn [default app BLEScale131.rx_loop].
    now rewrite Hp. }
  assert (E2 : st2 = BLEScale131.mk (BLEScale131.core st)
                       (Some (<[h' := []]> (<[h := part]> bufs)))).
  { unfold st2. rewrite E1.
    unfold BLEScale131.save_received_data_1, BLEScale131.buffers.
    cbn [BLEScale131._rx_buffers BLEScale131.core default from_option id].
    rewrite lookup_insert_ne by congruence. rewrite Hh'. reflexivity. }
  rewrite E2. cbn [BLEScale131._rx_buffers BLEScale131.core default from_option id].
  repeat split.
  - rewrite lookup_insert_ne by congruence. apply lookup_insert_eq.
  - apply lookup_insert_eq.
Qed.

(** C3 (fails on the code).  The peripheral keeps one [rx_buffer] for all
    characteristics.  A line written to the Fused characteristic without
    its terminator stays pending; a later write of the terminator to the
    GPS characteristic completes it, and the line is applied to the GPS
    record while the Fused record never receives it.  Both ingest
    functions behave so; [save_received_data_1] of v1.3.1, which keeps one
    buffer per handle, is not the function either file calls. *)
Theorem shared_rx_buffer_mixes_channels :
  let st := RefRuntime.fresh in
  let part := object1 "latitude" "1.0" in
  let st1 := BLEScale.save_received_data (BLEScale.fused_rx_handle st) part st in
  let st2 := BLEScale.save_received_data (BLEScale.gps_rx_handle st) [NL] st1 in
  let u1 := BLEScale.save_received_data_1 (BLEScale.fused_rx_handle st) part st in
  let u2 := BLEScale.save_received_data_1 (BLEScale.gps_rx_handle st) [NL] u1 in
  (BLEScale.rx_buffer st1 = part
   /\ BLEScale.rx_buffer st2 = []
   /\ BLEScale.fused_rx_data st2 = BLEScale.fused_rx_data st
   /\ BLEScale.gps_rx_data st2 !! "latitude"%string = Some (PFloat 1%Q)
   /\ BLEScale.stores st2 = [(BLEScale.Gps, "latitude"%string, PFloat 1%Q)])
  /\ (BLEScale.rx_buffer u1 = part
      /\ BLEScale.rx_buffer u2 = []
      /\ BLEScale.fused_rx_data u2 = BLEScale.fused_rx_data st
      /\ BLEScale.gps_rx_data u2 !! "latitude"%string = Some (PFloat 1%Q)
      /\ BLEScale.stores u2 = [(BLEScale.Gps, "latitude"%string, PFloat 1%Q)]).
Proof. cbv zeta. repeat split; vm_compute; reflexivity. Qed.

(** ** The text the tolerant scan reads *)

Section TextProps.

Lemma byte_in_In c set : byte_in c set = true <-> In c set.
Proof.
  unfold byte_in. rewrite existsb_exists. split.
  - intros (x & Hx & E). apply Byte.byte_dec_bl in E. now subst.
  - intros H. exists c. split; [assumption|]. now apply Byte.byte_dec_lb.
Qed.

Lemma byte_in_not c set : byte_in c set = false <-> ~ In c set.
Proof.
  rewrite <- byte_in_In. destruct (byte_in c set); split; congruence.
Qed.

Lemma starts_with_prefix p s : starts_with p s = true <-> exists b, s = p ++ b.
Proof.
  revert s. induction p as [|a p IH]; intros s; cbn.
  - split; [intros _; now exists s | reflexivity].
  - destruct s as [|c s].
    + split; [discriminate | intros (b & E); discriminate E].
    + rewrite andb_true_iff, IH. split.
      * intros (E & b & ->). apply Byte.byte_dec_bl in E. subst. now exists b.
      * intros (b & E). injection E as -> ->.
        split; [now apply Byte.byte_dec_lb | now exists b].
Qed.

(** [find] says -1 exactly when there is no occurrence. *)
Lemma find_at_none p s k :
  0 <= k -> (find_at p s k = -1 <-> ~ occurs_in p s).
Proof.
  revert k. induction s as [|c s IH]; intros k Hk; cbn [find_at].
  - destruct (starts_with p []) eqn:E.
    + split; [lia|]. intros H. exfalso. apply H.
      apply starts_with_prefix in E as (b & Eb). now exists [], b.
    + split; [|reflexivity]. intros _ (a & b & Ea).
      destruct a; [|discriminate].
      assert (starts_with p [] = true) by (apply starts_with_prefix; now exists b).
      congruence.
  - destruct (starts_with p (c :: s)) eqn:E.
    + split; [lia|]. intros H. exfalso. apply H.
      apply starts_with_prefix in E as (b & Eb). now exists [], b.
    + rewrite IH by lia. split.
      * intros H (a & b & Ha). destruct a as [|x a].
        -- assert (starts_with p (c :: s) = true)
             by (apply starts_with_prefix; now exists b).
           congruence.
        -- injection Ha as -> ->. apply H. now exists a, b.
      * intros H (a & b & ->). apply H. now exists (c :: a), b.
Qed.

Lemma removelast_take (p : bytes) : removelast p = take (length p - 1) p.
Proof.
  rewrite removelast_firstn_len. f_equal. lia.
Qed.

(** The first occurrence: [find] returns where it starts. *)
Lemma find_at_first p pre tl k :
  p <> [] ->
  ~ occurs_in p (pre ++ removelast p) ->
  find_at p (pre ++ p ++ tl) k = k + Z.of_nat (length pre).
Proof.
  intros Hp. revert k. induction pre as [|c pre IH]; intros k Hn.
  - cbn [app length]. destruct (p ++ tl) as [|x r] eqn:E.
    + destruct p; [congruence|discriminate].
    + cbn [find_at]. rewrite <- E.
      replace (starts_with p (p ++ tl)) with true
        by (symmetry; apply starts_with_prefix; now exists tl).
      cbn. lia.
  - change ((c :: pre) ++ p ++ tl) with (c :: (pre ++ p ++ tl)).
    cbn [find_at].
    destruct (starts_with p (c :: pre ++ p ++ tl)) eqn:E.
    + exfalso. apply Hn.
      apply starts_with_prefix in E as (b & Eb).
      exists [], (take (length pre) b). cbn [app].
      assert (Hlp : (0 < length p)%nat) by (destruct p; [congruence|cbn; lia]).
      apply (f_equal (take (length p + length pre))) in Eb.
      rewrite take_app_add in Eb. rewrite <- Eb.
      change (c :: pre ++ p ++ tl) with ((c :: pre) ++ p ++ tl).
      replace (length p + length pre)%nat
        with (length (c :: pre) + (length p - 1))%nat by (cbn; lia).
      rewrite take_app_add, take_app_le by lia.
      now rewrite removelast_take.
    + rewrite IH.
      * cbn [length]. lia.
      * intros (a & b & Ha). apply Hn. exists (c :: a), b. cbn. now rewrite Ha.
Qed.

End TextProps.

Section ScanTextProps.
Context `{PF : PyFloat}.
Import BLEScale.

Lemma find_at_char c u v k :
  ~ In c u -> find_at [c] (u ++ c :: v) k = k + Z.of_nat (length u).
Proof.
  revert k. induction u as [|x u IH]; intros k Hn.
  - cbn. rewrite (Byte.byte_dec_lb eq_refl). cbn. lia.
  - cbn [app find_at starts_with].
    destruct (Byte.eqb c x) eqn:E.
    + apply Byte.byte_dec_bl in E. subst. exfalso. apply Hn. now left.
    + cbn [andb]. rewrite IH by (intros H; apply Hn; now right).
      cbn [length]. lia.
Qed.

Lemma find_at_char_none c u k : 0 <= k -> ~ In c u -> find_at [c] u k = -1.
Proof.
  intros Hk Hn. apply find_at_none; [assumption|].
  intros (a & b & ->). apply Hn. apply in_or_app. right. now left.
Qed.

Lemma drop_blanks set ws l :
  Forall (fun c => In c set) ws -> stops_at set l ->
  drop_while_in set (ws ++ l) = l.
Proof.
  intros Hw Hl. induction Hw as [|c ws Hc _ IH]; cbn [app].
  - destruct l as [|c l]; [reflexivity|]. cbn in *.
    apply byte_in_not in Hl. now rewrite Hl.
  - cbn. apply byte_in_In in Hc. now rewrite Hc.
Qed.

Lemma take_number set number rest :
  Forall (fun c => In c set) number -> stops_at set rest ->
  take_while_in set (number ++ rest) = number.
Proof.
  intros Hn Hr. induction Hn as [|c number Hc _ IH]; cbn [app].
  - destruct rest as [|c rest]; [reflexivity|]. cbn in *.
    apply byte_in_not in Hr. now rewrite Hr.
  - cbn. apply byte_in_In in Hc. rewrite Hc. now rewrite IH.
Qed.

Lemma quoted_nonempty k : quoted k <> [].
Proof. discriminate. Qed.

(** [_extract_number] against the text: it returns what [float] makes of
    the characters the text holds for the key, and nothing when there are
    none. *)
Lemma extract_field key number s :
  field_text key number s ->
  _extract_number s key =
    match number with [] => None | _ => float_of_str number end.
Proof.
  intros (pre & mid & ws & rest & -> & Hfirst & Hcolon & Hws & Hstop & Hnum & Hend).
  unfold _extract_number, find.
  rewrite find_at_first by (assumption || apply quoted_nonempty).
  destruct (Z.eqb_spec (0 + Z.of_nat (length pre)) (-1)); [lia|].
  unfold find_from. rewrite Z.add_0_l, Nat2Z.id, drop_app_length.
  change (bs ":") with [":"%byte].
  replace (quoted key ++ mid ++ [":"%byte] ++ ws ++ number ++ rest)
    with ((quoted key ++ mid) ++ ":"%byte :: ws ++ number ++ rest)
    by (now rewrite <- app_assoc).
  rewrite find_at_char by assumption.
  destruct (Z.eqb_spec (Z.of_nat (length pre)
                        + Z.of_nat (length (quoted key ++ mid))) (-1)); [lia|].
  replace (Z.to_nat (Z.of_nat (length pre)
                     + Z.of_nat (length (quoted key ++ mid)) + 1))
    with (length (pre ++ (quoted key ++ mid) ++ [":"%byte]))
    by (rewrite !length_app; cbn [length]; lia).
  replace (pre ++ (quoted key ++ mid) ++ ":"%byte :: ws ++ number ++ rest)
    with ((pre ++ (quoted key ++ mid) ++ [":"%byte]) ++ ws ++ number ++ rest)
    by (rewrite <- !app_assoc; reflexivity).
  rewrite drop_app_length.
  change (bs " " ++ [x09]) with BLANKS.
  change (bs "-+0123456789.eE") with NUMBER_CHARS.
  rewrite drop_blanks by assumption.
  now rewrite take_number by assumption.
Qed.

Lemma extract_no_occurrence key s :
  ~ occurs_in (quoted key) s -> _extract_number s key = None.
Proof.
  intros H. apply extract_absent. unfold find. now apply find_at_none.
Qed.

Lemma extract_cut key s : field_cut key s -> _extract_number s key = None.
Proof.
  intros (pre & mid & -> & Hfirst & Hcolon).
  unfold _extract_number, find.
  rewrite find_at_first by (assumption || apply quoted_nonempty).
  destruct (Z.eqb_spec (0 + Z.of_nat (length pre)) (-1)); [lia|].
  unfold find_from. rewrite Z.add_0_l, Nat2Z.id, drop_app_length.
  change (bs ":") with [":"%byte].
  rewrite find_at_char_none by (assumption || lia).
  reflexivity.
Qed.

End ScanTextProps.

(** ** Fragments *)

Section FragmentProps.
Context `{PF : PyFloat} `{UJ : !Ujson}.
Import BLEScale.




End FragmentProps.

Section CropProps.
Context `{PF : PyFloat}.
Import BLEScale.

Lemma find_char_split c t k :
  0 <= k -> find_at [c] t k <> -1 ->
  exists pre tl, t = pre ++ c :: tl /\ ~ In c pre
                 /\ find_at [c] t k = k + Z.of_nat (length pre).
Proof.
  revert k. induction t as [|x t IH]; intros k Hk Hf.
  - cbn in Hf. congruence.
  - cbn [find_at starts_with] in *.
    destruct (Byte.eqb c x) eqn:E; cbn [andb] in *.
    + apply Byte.byte_dec_bl in E. subst x.
      exists [], t. cbn. repeat split; [tauto | lia].
    + destruct (IH (k + 1) ltac:(lia) Hf) as (pre & tl & -> & Hn & Hv).
      exists (x :: pre), tl. repeat split.
      * intros [->|H]; [|contradiction].
        now rewrite (Byte.byte_dec_lb eq_refl) in E.
      * rewrite Hv. cbn [length]. lia.
Qed.

Lemma rfind_at_spec c t k last :
  (~ In c t -> rfind_at c t k last = last)
  /\ (In c t -> exists u post, t = u ++ c :: post /\ ~ In c post
                 /\ rfind_at c t k last = k + Z.of_nat (length u)).
Proof.
  revert k last. induction t as [|x t IH]; intros k last; cbn [rfind_at].
  - split; [reflexivity | intros []].
  - destruct (IH (k + 1) (if Byte.eqb x c then k else last)) as [IHn IHy].
    destruct (byte_in c t) eqn:Hin.
    + apply byte_in_In in Hin.
      destruct (IHy Hin) as (u & post & -> & Hp & Hv).
      split; [intros H; exfalso; apply H; now right|].
      intros _. exists (x :: u), post. repeat split; [assumption|].
      rewrite Hv. cbn [length]. lia.
    + apply byte_in_not in Hin. rewrite (IHn Hin).
      destruct (Byte.eqb x c) eqn:E.
      * apply Byte.byte_dec_bl in E. subst x.
        split; [intros H; exfalso; apply H; now left|].
        intros _. exists [], t. cbn. repeat split; [assumption | lia].
      * apply Byte.eqb_false in E.
        split; [reflexivity|]. intros [H|H]; [congruence | contradiction].
Qed.

(** The span that step 5 keeps. *)
Lemma crop_span t :
  ~ no_object t ->
  cropped t (slice t (find (bs "{") t) (rfind "}"%byte t + 1)).
Proof.
  unfold no_object. intros Hn.
  assert (Hl : find (bs "{") t <> -1) by tauto.
  assert (Hr : rfind "}"%byte t <> -1) by tauto.
  assert (Hlt : find (bs "{") t < rfind "}"%byte t) by lia.
  unfold find in *. change (bs "{") with ["{"%byte] in *.
  destruct (find_char_split _ _ 0 ltac:(lia) Hl) as (pre & tl & Et & Hpre & Hv).
  unfold rfind in *.
  destruct (rfind_at_spec "}"%byte t 0 (-1)) as [Hno Hyes].
  assert (Hin : In "}"%byte t).
  { destruct (byte_in "}"%byte t) eqn:E; [now apply byte_in_In|].
    apply byte_in_not in E. specialize (Hno E). congruence. }
  destruct (Hyes Hin) as (u & post & Eu & Hpost & Hw).
  rewrite Hv, Hw in *. clear Hno Hyes Hl Hr.
  assert (Hlen : (length pre < length u)%nat) by lia.
  rewrite Et in Eu. apply app_eq_app in Eu as (l & [[E1 E2] | [E1 E2]]).
  - apply (f_equal length) in E1. rewrite length_app in E1. lia.
  - destruct l as [|x m].
    + apply (f_equal length) in E1. rewrite length_app in E1. cbn in E1. lia.
    + injection E2 as <- ->.
      exists pre, m, post. subst t u.
      repeat split; try assumption.
      * unfold slice.
        replace (Z.to_nat (0 + Z.of_nat (length pre))) with (length pre) by lia.
        rewrite drop_app_length.
        replace (Z.to_nat (0 + Z.of_nat (length (pre ++ "{"%byte :: m)) + 1
                           - (0 + Z.of_nat (length pre))))
          with (length ("{"%byte :: m ++ ["}"%byte]))
          by (rewrite length_app; cbn [length]; rewrite length_app; cbn [length]; lia).
        replace ("{"%byte :: m ++ "}"%byte :: post)
          with (("{"%byte :: m ++ ["}"%byte]) ++ post)
          by (cbn; now rewrite <- app_assoc).
        rewrite take_app_length.
        cbn. now rewrite <- app_assoc.
      * unfold slice.
        replace (Z.to_nat (0 + Z.of_nat (length pre))) with (length pre) by lia.
        rewrite drop_app_length.
        replace (Z.to_nat (0 + Z.of_nat (length (pre ++ "{"%byte :: m)) + 1
                           - (0 + Z.of_nat (length pre))))
          with (length ("{"%byte :: m ++ ["}"%byte]))
          by (rewrite length_app; cbn [length]; rewrite length_app; cbn [length]; lia).
        replace ("{"%byte :: m ++ "}"%byte :: post)
          with (("{"%byte :: m ++ ["}"%byte]) ++ post)
          by (cbn; now rewrite <- app_assoc).
        now rewrite take_app_length.
Qed.

Lemma clean_line_object line :
  ~ no_object (decode_clean (strip line)) ->
  exists s, cropped (decode_clean (strip line)) s /\ clean_line line = Some s.
Proof.
  intros Hn. eexists. split; [apply (crop_span _ Hn)|].
  unfold clean_line.
  destruct (strip line) as [|c l] eqn:Es.
  { exfalso. apply Hn. left. reflexivity. }
  destruct (decode_clean (c :: l)) as [|c' l'] eqn:Ed.
  { exfalso. apply Hn. left. reflexivity. }
  unfold no_object in Hn.
  destruct (Z.eqb_spec (find (bs "{") (c' :: l')) (-1)); [tauto|].
  destruct (Z.eqb_spec (rfind "}"%byte (c' :: l')) (-1)); [tauto|].
  destruct (Z.leb_spec (rfind "}"%byte (c' :: l')) (find (bs "{") (c' :: l')));
    [tauto|].
  reflexivity.
Qed.

Lemma first_split_unique (c : byte) u v u' v' :
  u ++ c :: v = u' ++ c :: v' -> ~ In c u -> ~ In c u' -> u = u' /\ v = v'.
Proof.
  revert u'. induction u as [|x u IH]; intros [|x' u'] E Hu Hu'; cbn in E.
  - injection E as ->. now split.
  - injection E as <- _. exfalso. apply Hu'. now left.
  - injection E as -> _. exfalso. apply Hu. now left.
  - injection E as -> E.
    destruct (IH u' E) as [-> ->].
    + intros H. apply Hu. now right.
    + intros H. apply Hu'. now right.
    + now split.
Qed.

Lemma last_split_unique (c : byte) u v u' v' :
  u ++ c :: v = u' ++ c :: v' -> ~ In c v -> ~ In c v' -> u = u' /\ v = v'.
Proof.
  intros E Hv Hv'.
  apply app_eq_app in E as (l & [[E1 E2] | [E1 E2]]).
  - destruct l as [|x l].
    + cbn in E2. injection E2 as ->. rewrite app_nil_r in E1. now split.
    + injection E2 as <- ->. exfalso. apply Hv'.
      apply in_or_app. right. now left.
  - destruct l as [|x l].
    + cbn in E2. injection E2 as ->. rewrite app_nil_r in E1. now split.
    + injection E2 as <- ->. exfalso. apply Hv.
      apply in_or_app. right. now left.
Qed.

(** A text has one span from its first ['{'] to its last ['}'] at most. *)
Lemma cropped_unique t s s' : cropped t s -> cropped t s' -> s = s'.
Proof.
  intros (pre & m & post & Et & -> & Hpre & Hpost)
         (pre' & m' & post' & Et' & -> & Hpre' & Hpost').
  rewrite Et in Et'. cbn in Et'. rewrite <- !app_assoc in Et'. cbn in Et'.
  destruct (first_split_unique _ _ _ _ _ Et' Hpre Hpre') as [_ E].
  destruct (last_split_unique _ _ _ _ _ E Hpost Hpost') as [-> _].
  reflexivity.
Qed.

(** A text with such a span passes the test of step 5. *)
Lemma cropped_object t s : cropped t s -> ~ no_object t.
Proof.
  intros (pre & m & post & -> & -> & Hpre & Hpost).
  assert (Ef : find (bs "{") (pre ++ ("{"%byte :: m ++ ["}"%byte]) ++ post)
               = Z.of_nat (length pre)).
  { unfold find. change (bs "{") with ["{"%byte]. cbn [app].
    now rewrite find_at_char. }
  destruct (rfind_at_spec "}"%byte (pre ++ ("{"%byte :: m ++ ["}"%byte]) ++ post) 0 (-1))
    as [_ Hyes].
  destruct Hyes as (u & post' & Eu & Hpost' & Hv).
  { apply in_or_app. right. apply in_or_app. left.
    right. apply in_or_app. right. now left. }
  assert (Eu' : (pre ++ "{"%byte :: m) ++ "}"%byte :: post = u ++ "}"%byte :: post').
  { rewrite <- Eu. cbn. rewrite <- !app_assoc. reflexivity. }
  destruct (last_split_unique _ _ _ _ _ Eu' Hpost Hpost') as [<- _].
  unfold no_object, rfind. rewrite Ef, Hv, length_app. cbn [length]. lia.
Qed.

Lemma cropped_clean line s :
  cropped (decode_clean (strip line)) s -> clean_line line = Some s.
Proof.
  intros Hc.
  destruct (clean_line_object line (cropped_object _ _ Hc)) as (s' & Hc' & ->).
  f_equal. now apply (cropped_unique _ _ _ Hc').
Qed.




End CropProps.



(** The same line, evaluated: the latitude stored is the one inside the
    span, 3.0, not the 9 that stands before the first ['{']. *)
Example cropped_span_example :
  let st0 := BLEScale.with_rx_buffer (bs "41") RefRuntime.fresh in
  let raw2 := field "latitude" "9" ++ bs " " ++ object1 "latitude" "3.0"
              ++ field "latitude" "7" ++ [NL] in
  BLEScale._extract_number
    (bs "41" ++ field "latitude" "9" ++ bs " " ++ object1 "latitude" "3.0"
     ++ field "latitude" "7") "latitude" = Some 9%Q
  /\ BLEScale.gps_rx_data (BLEScale.save_received_data 26 raw2 st0)
       !! "latitude"%string = Some (PFloat 3%Q)
  /\ BLEScale.stores (BLEScale.save_received_data 26 raw2 st0)
     = [(BLEScale.Gps, "latitude"%string, PFloat 3%Q)].
Proof. cbv zeta. repeat split; vm_compute; reflexivity. Qed.


(** ** Strict and tolerant decoding *)

(** C5 as stated fails: [save_received_data] of v1.3.2 is not the
    two-stage decode.  The line [{"a":{"latitude":5}}] is valid JSON whose
    object has the single key [a]; decoded strictly it updates nothing, but
    the parser never decodes it: its scan finds the quoted name [latitude]
    inside and stores latitude 5.0. *)
Lemma valid_json_scraped_counterexample :
  let line := bs "{" ++ quoted "a" ++ bs ":" ++ object1 "latitude" "5" ++ bs "}" in
  let st := RefRuntime.fresh in
  let code := BLEScale.save_received_data 22 (line ++ [NL]) st in
  let spec := BLEScale.ingest (two_stage_line 22) (line ++ [NL]) st in
  ujson_loads line = Some (PDict [("a"%string, PDict [("latitude"%string, PInt 5)])])
  /\ BLEScale.stores spec = []
  /\ BLEScale.fused_rx_data spec !! "latitude"%string = Some (PFloat 0%Q)
  /\ BLEScale.stores code = [(BLEScale.Fused, "latitude"%string, PFloat 5%Q)]
  /\ BLEScale.fused_rx_data code !! "latitude"%string = Some (PFloat 5%Q)
  /\ code <> spec.
Proof.
  cbv zeta. repeat split; try (vm_compute; reflexivity).
  intros H. apply (f_equal BLEScale.stores) in H. vm_compute in H. discriminate H.
Qed.

Section ScanProps.
Context `{PF : PyFloat}.
Import BLEScale.

Ltac other_keys :=
  rewrite !store_opt_lookup by (intros E; discriminate E).

Lemma scan_store_lookup tg s st :
  let st' := scan_store tg s st in
  (forall x, _extract_number s "latitude" = Some x ->
     rx_data tg st' !! "latitude"%string = Some (PFloat (round7 x)))
  /\ (forall x, _extract_number s "longitude" = Some x ->
        rx_data tg st' !! "longitude"%string = Some (PFloat (round7 x)))
  /\ (forall x, _extract_number s "altitude" = Some x ->
        rx_data tg st' !! "altitude"%string = Some (PFloat x))
  /\ (forall x, _extract_number s "speed" = Some x ->
        rx_data tg st' !! "speed"%string = Some (PFloat x))
  /\ (forall x, _extract_number s "time" = Some x ->
        rx_data tg st' !! "time"%string = Some (time_value x))
  /\ (forall x, _extract_number s "accuracy" = Some x ->
        rx_data tg st' !! "accuracy"%string = Some (PFloat x))
  /\ (forall k tg', _extract_number s k = None ->
        rx_data tg' st' !! k = rx_data tg' st !! k).
Proof.
  intros st'. unfold st', scan_store.
  repeat split; intros.
  - other_keys. rewrite H. apply store_lookup_same.
  - other_keys. rewrite H. apply store_lookup_same.
  - other_keys. rewrite H. apply store_lookup_same.
  - other_keys. rewrite H. apply store_lookup_same.
  - other_keys. rewrite H. apply store_lookup_same.
  - rewrite H. apply store_lookup_same.
  - rewrite !store_opt_lookup; try reflexivity; intros <-; now rewrite H.
Qed.

Lemma scan_store_stored tg s st k x :
  In k RX_KEYS -> _extract_number s k = Some x ->
  rx_data tg (scan_store tg s st) !! k = Some (stored_value k x).
Proof.
  intros Hk Hx.
  pose proof (scan_store_lookup tg s st) as H. cbv zeta in H.
  destruct H as (H1 & H2 & H3 & H4 & H5 & H6 & _).
  cbn in Hk. destruct Hk as [<-|[<-|[<-|[<-|[<-|[<-|[]]]]]]];
    unfold stored_value; cbn [String.eqb Ascii.eqb Bool.eqb orb]; auto.
  rewrite (H5 x Hx). reflexivity.
Qed.

Lemma store_opt_other_record tg tg' key v st :
  tg' <> tg -> rx_data tg' (store_opt tg key v st) = rx_data tg' st.
Proof.
  intros Hne. destruct v as [v|]; [|reflexivity].
  destruct tg, tg'; try congruence; reflexivity.
Qed.

Lemma scan_store_other_record tg tg' s st :
  tg' <> tg -> rx_data tg' (scan_store tg s st) = rx_data tg' st.
Proof.
  intros Hne. unfold scan_store.
  now rewrite !store_opt_other_record by assumption.
Qed.

Lemma scan_store_other_keys tg tg' s st k :
  ~ In k RX_KEYS ->
  rx_data tg' (scan_store tg s st) !! k = rx_data tg' st !! k.
Proof.
  intros Hk. unfold scan_store.
  rewrite !store_opt_lookup; try reflexivity;
    intros <-; exfalso; apply Hk; cbn; tauto.
Qed.

Lemma store_opt_buffer tg k v st : rx_buffer (store_opt tg k v st) = rx_buffer st.
Proof. now destruct v. Qed.

Lemma scan_store_buffer tg s st : rx_buffer (scan_store tg s st) = rx_buffer st.
Proof. unfold scan_store. now rewrite !store_opt_buffer. Qed.

End ScanProps.



(** Facts about a concrete text, by evaluation. *)
Ltac text_facts :=
  repeat match goal with
         | |- _ /\ _ => split
         | |- Forall _ _ => constructor
         | |- In _ _ => clear; vm_compute; tauto
         | |- ~ occurs_in _ _ =>
             apply (find_at_none _ _ 0); [lia | vm_compute; reflexivity]
         | |- ~ In _ _ => clear; vm_compute; intuition discriminate
         | |- stops_at _ _ => clear; vm_compute; intuition discriminate
         end.

(** C5 (as amended).  One-stage decode.  [save_received_data] of v1.3.2
    attempts no strict decode: a complete line that survives cleaning and
    cropping, valid JSON or not, is handled by the tolerant scan alone.
    For each of the six names the scan cuts the cropped text at the first
    occurrence of the quoted name and at the first colon from there on,
    skips spaces and tabs and reads the longest run of the characters
    [-+0123456789.eE] with [float]; the result is stored under the name,
    latitude and longitude rounded to seven places, time through [int]
    (the float itself where [int] raises).  A name that does not occur,
    has no colon after it, has no such character there or whose
    characters [float] rejects keeps its value, as does every other key
    and the record of the other characteristic.  No decoder is involved:
    the statement needs none. *)
Theorem tolerant_scan_only `{PF : PyFloat}
    (st : BLEScale.t) (h : Z) (tg : BLEScale.target) (line s : bytes) :
  BLEScale.rx_buffer st = [] ->
  BLEScale.split_nl line = None ->
  BLEScale.rx_target h st = Some tg ->
  cropped (BLEScale.decode_clean (strip line)) s ->
  let st' := BLEScale.save_received_data h (line ++ [NL]) st in
  (forall k number x,
     In k BLEScale.RX_KEYS -> field_text k number s -> number <> [] ->
     float_of_str number = Some x ->
     BLEScale.rx_data tg st' !! k = Some (stored_value k x))
  /\ (forall k number tg',
        field_text k number s -> number = [] \/ float_of_str number = None ->
        BLEScale.rx_data tg' st' !! k = BLEScale.rx_data tg' st !! k)
  /\ (forall k tg',
        ~ occurs_in (quoted k) s \/ field_cut k s ->
        BLEScale.rx_data tg' st' !! k = BLEScale.rx_data tg' st !! k)
  /\ (forall k tg',
        ~ In k BLEScale.RX_KEYS ->
        BLEScale.rx_data tg' st' !! k = BLEScale.rx_data tg' st !! k)
  /\ (forall tg', tg' <> tg -> BLEScale.rx_data tg' st' = BLEScale.rx_data tg' st)
  /\ BLEScale.rx_buffer st' = [].
Proof.
  intros Hb Hl Ht Hc st'. apply cropped_clean in Hc.
  assert (E : st' = BLEScale.scan_store tg s st).
  { unfold st', BLEScale.save_received_data.
    rewrite (ingest_one_line _ _ _ (rx_line_framed h) Hb Hl).
    unfold BLEScale.rx_line. now rewrite Hc, Ht. }
  clearbody st'. subst st'.
  pose proof (scan_store_lookup tg s st) as H. cbv zeta in H.
  destruct H as (_ & _ & _ & _ & _ & _ & Hnone).
  split; [|split; [|split; [|split; [|split]]]].
  - intros k number x Hk Hf Hne Hx.
    apply scan_store_stored; [assumption|].
    rewrite (extract_field _ _ _ Hf). now destruct number.
  - intros k number tg' Hf Hn. apply Hnone.
    rewrite (extract_field _ _ _ Hf).
    destruct Hn as [-> | Hn]; [reflexivity|]. now destruct number.
  - intros k tg' [Hn | Hn]; apply Hnone;
      [now apply extract_no_occurrence | now apply extract_cut].
  - intros k tg' Hk. now apply scan_store_other_keys.
  - intros tg' Hne. now apply scan_store_other_record.
  - now rewrite scan_store_buffer.
Qed.

(** The line [x{"time": 1.5,"speed":x}y] on the Fused characteristic is
    cropped to its braces: time becomes the integer 1; speed, which has
    no number after its colon, and latitude, which does not occur, keep
    their values, and so does the GPS record. *)
Lemma tolerant_scan_only_witness :
  let line := bs "x{" ++ field "time" " 1.5" ++ bs "," ++ field "speed" "x" ++ bs "}y" in
  let st := RefRuntime.fresh in
  let st' := BLEScale.save_received_data 22 (line ++ [NL]) st in
  BLEScale.fused_rx_data st' !! "time"%string = Some (PInt 1)
  /\ BLEScale.fused_rx_data st' !! "speed"%string
     = BLEScale.fused_rx_data st !! "speed"%string
  /\ BLEScale.fused_rx_data st' !! "latitude"%string
     = BLEScale.fused_rx_data st !! "latitude"%string
  /\ BLEScale.gps_rx_data st' = BLEScale.gps_rx_data st
  /\ BLEScale.rx_buffer st' = [].
Proof.
  cbv zeta.
  pose proof (tolerant_scan_only RefRuntime.fresh 22 BLEScale.Fused
                (bs "x{" ++ field "time" " 1.5" ++ bs "," ++ field "speed" "x" ++ bs "}y")
                (bs "{" ++ field "time" " 1.5" ++ bs "," ++ field "speed" "x" ++ bs "}")
                ltac:(reflexivity) ltac:(vm_compute; reflexivity)
                ltac:(reflexivity)
                ltac:(exists (bs "x"), (field "time" " 1.5" ++ bs "," ++ field "speed" "x"),
                        (bs "y");
                      split; [vm_compute; reflexivity|];
                      split; [vm_compute; reflexivity|];
                      split; clear; vm_compute; intuition discriminate)) as H.
  cbv zeta in H.
  destruct H as (Hstored & Hblank & Habsent & _ & Hother & Hbuf).
  split; [|split; [|split; [|split]]].
  - apply (Hstored "time"%string (bs "1.5") (3 # 2)%Q).
    + vm_compute. tauto.
    + exists (bs "{"), [], (bs " "), (bs "," ++ field "speed" "x" ++ bs "}").
      split; [reflexivity|]. text_facts.
    + discriminate.
    + vm_compute. reflexivity.
  - apply (Hblank "speed"%string [] BLEScale.Fused); [|now left].
    exists (bs "{" ++ field "time" " 1.5" ++ bs ","), [], [], (bs "x}").
    split; [reflexivity|]. text_facts.
  - apply (Habsent "latitude"%string BLEScale.Fused). left. text_facts.
  - apply (Hother BLEScale.Gps). discriminate.
  - exact Hbuf.
Defined.

(** ** Telemetry responder *)

(** C9. Weight payload.  Answering a read of the weight characteristic,
    [send_tx_as_json_response] hands to the JSON encoder a dictionary with
    exactly the keys from, weight, time, latitude, longitude, speed,
    altitude, accuracy and idle, in which from is "weight", weight is the
    stored [weight_tx] (12.5 when that was measured), idle is the power
    manager's flag, time is 0 and the other location fields are 0.0,
    whatever the Fused and GPS records hold; the same dictionary is left in
    [tx_data] and nothing else changes. *)
Theorem weight_payload `{PF : PyFloat} (st : BLEScale.t) :
  let r := BLEScale.send_tx_as_json_response (BLEScale.weight_tx_handle st) st in
  exists tx : gmap string (pyobj pyfloat),
    snd r = Some tx
    /\ BLEScale.tx_data (fst r) = tx
    /\ fst r = BLEScale.with_tx_data tx st
    /\ dom tx = {[ "from"; "weight"; "time"; "latitude"; "longitude"; "speed";
                   "altitude"; "accuracy"; "idle" ]}%string
    /\ tx !! "from"%string = Some (PStr (bs "weight"))
    /\ tx !! "weight"%string = Some (BLEScale.weight_tx st)
    /\ tx !! "idle"%string = Some (PBool (PowerManager.idle (BLEScale.pm st)))
    /\ tx !! "time"%string = Some (PInt 0)
    /\ tx !! "latitude"%string = Some (PFloat float_zero)
    /\ tx !! "longitude"%string = Some (PFloat float_zero)
    /\ tx !! "speed"%string = Some (PFloat float_zero)
    /\ tx !! "altitude"%string = Some (PFloat float_zero)
    /\ tx !! "accuracy"%string = Some (PFloat float_zero).
Proof.
  intros r. unfold r, BLEScale.send_tx_as_json_response.
  rewrite Z.eqb_refl. cbn [fst snd].
  eexists. split; [reflexivity|]. split; [reflexivity|]. split; [reflexivity|].
  split.
  - unfold BLEScale.tx_base. rewrite !dom_insert_L, dom_empty_L. set_solver.
  - unfold BLEScale.tx_base. repeat split; reflexivity.
Qed.

(** The instance of the specification: 12.5 kg measured, not idle, and
    both records filled with other values. *)
Example payload_12_5_example :
  let st := BLEScale.mk 16 18 20 22 24 26 (PFloat (25 # 2)%Q)
              (PowerManager.mk 3 0 false) []
              (<["latitude"%string := PFloat 48%Q]> BLEScale.rx_defaults)
              (<["speed"%string := PFloat 7%Q]> BLEScale.rx_defaults) ∅ [] in
  snd (BLEScale.send_tx_as_json_response 16 st) =
    Some (list_to_map
            [("from", PStr (bs "weight")); ("weight", PFloat (25 # 2)%Q);
             ("time", PInt 0); ("latitude", PFloat 0%Q);
             ("longitude", PFloat 0%Q); ("speed", PFloat 0%Q);
             ("altitude", PFloat 0%Q); ("accuracy", PFloat 0%Q);
             ("idle", PBool false)]%string).
Proof. vm_compute. reflexivity. Qed.

(* ===================================================================== *)
(** * Part IV: further properties of the code                             *)
(* ===================================================================== *)

(** ** The power manager over an arbitrary run of readings *)

Section PowerManagerRuns.
Import PowerManager.

Lemma quiet_since_snoc samples s :
  quiet_since (samples ++ [s]) =
    if no_load (snd s) then S (quiet_since samples) else O.
Proof.
  induction samples as [|x r IH]; cbn.
  - now destruct (no_load (snd s)).
  - rewrite forallb_app, length_app, IH. cbn.
    destruct (no_load (snd s)); cbn.
    + rewrite andb_true_r.
      destruct (forallb _ r); [|reflexivity].
      destruct (no_load (snd x)); lia.
    + rewrite andb_false_r. reflexivity.
Qed.

Lemma last_load_snoc samples s :
  last_load (samples ++ [s]) =
    if no_load (snd s) then last_load samples else Some (fst s).
Proof.
  induction samples as [|x r IH]; cbn.
  - reflexivity.
  - rewrite IH. destruct (no_load (snd s)); reflexivity.
Qed.

Lemma feed_state t0 samples :
  let pm := feed samples (init t0) in
  _no_load_count pm = Z.of_nat (quiet_since samples)
  /\ _last_active_ms pm = default t0 (last_load samples)
  /\ idle pm = (NO_LOAD_STABLE_SAMPLES <=? Z.of_nat (quiet_since samples)).
Proof.
  induction samples as [|s samples IH] using rev_ind; cbv zeta.
  - cbn. repeat split.
  - cbv zeta in IH. destruct IH as (Hc & Ht & Hi).
    rewrite feed_snoc, quiet_since_snoc, last_load_snoc.
    unfold update_with_weight.
    destruct (no_load (snd s)); cbn [_no_load_count _last_active_ms idle].
    + rewrite Hc.
      replace (Z.of_nat (quiet_since samples) + 1)
        with (Z.of_nat (S (quiet_since samples))) by lia.
      destruct (Z.leb_spec NO_LOAD_STABLE_SAMPLES (Z.of_nat (S (quiet_since samples))));
        cbn [_no_load_count _last_active_ms idle]; repeat split; try assumption.
      rewrite Hi. apply Z.leb_gt. lia.
    + repeat split.
Qed.

(** X1.  [update_with_weight] over any run of readings from a fresh
    manager: the counter is the number of no-load readings since the last
    load reading, [_last_active_ms] is the clock of that load reading (the
    clock of construction when there was none), and [idle] is set exactly
    when the last twenty readings or more were all no-load readings. *)
Theorem feed_characterised (t0 : Z) (samples : list (Z * Q)) :
  let pm := feed samples (init t0) in
  _no_load_count pm = Z.of_nat (quiet_since samples)
  /\ _last_active_ms pm = default t0 (last_load samples)
  /\ (idle pm = true <-> (20 <= quiet_since samples)%nat).
Proof.
  cbv zeta. destruct (feed_state t0 samples) as (Hc & Ht & Hi).
  repeat split; try assumption.
  - rewrite Hi. intros H. apply Z.leb_le in H. unfold NO_LOAD_STABLE_SAMPLES in H. lia.
  - intros H. rewrite Hi. apply Z.leb_le. unfold NO_LOAD_STABLE_SAMPLES. lia.
Qed.

Lemma deep_idle_ms now pm :
  DeepIdle.should_enter_deep_idle now pm =
    idle pm && (30000 <? ticks_diff now (_last_active_ms pm)).
Proof.
  unfold DeepIdle.should_enter_deep_idle.
  destruct (idle pm); cbn [negb andb]; [|reflexivity].
  unfold Qltb, Qle_bool, NO_LOAD_IDLE_SECONDS. cbn.
  destruct (Z.ltb_spec 30000 (ticks_diff now (_last_active_ms pm)));
    [apply negb_true_iff, Z.leb_gt | apply negb_false_iff, Z.leb_le]; lia.
Qed.

(** X2.  [should_enter_deep_idle] and the cadence of [run]: after any run
    of readings the loop sleeps 0.5 s while fewer than twenty no-load
    readings have come in a row, 5 s once in addition more than 30000 ms
    have passed (by [ticks_diff]) since the last load reading, and 2 s in
    between. *)
Theorem base_sleep_cadence (t0 now : Z) (samples : list (Z * Q)) :
  DeepIdle.base_sleep now (feed samples (init t0)) =
    if (quiet_since samples <? 20)%nat then (1 # 2)%Q
    else if 30000 <? ticks_diff now (default t0 (last_load samples)) then 5%Q
    else 2%Q.
Proof.
  destruct (feed_state t0 samples) as (_ & Ht & Hi).
  unfold DeepIdle.base_sleep. rewrite deep_idle_ms, Ht, Hi.
  unfold NO_LOAD_STABLE_SAMPLES.
  destruct (Nat.ltb_spec (quiet_since samples) 20).
  - replace (20 <=? Z.of_nat (quiet_since samples)) with false
      by (symmetry; apply Z.leb_gt; lia).
    reflexivity.
  - replace (20 <=? Z.of_nat (quiet_since samples)) with true
      by (symmetry; apply Z.leb_le; lia).
    cbn [andb]. now destruct (30000 <? _).
Qed.

End PowerManagerRuns.

(** ** The HX711 driver *)

Section HX711Props.
Import HX711.

Lemma shift_step r b : 0 <= r -> is_bit b -> Z.lor (Z.shiftl r 1) b = 2 * r + b.
Proof.
  intros Hr [-> | ->].
  - rewrite Z.lor_0_r, Z.shiftl_mul_pow2 by lia. lia.
  - rewrite Z.shiftl_mul_pow2 by lia.
    destruct r as [|p|p]; [reflexivity| |lia].
    replace (Z.pos p * 2 ^ 1) with (Z.pos p~0) by lia. reflexivity.
Qed.

Lemma msb_first_range bits :
  Forall is_bit bits -> 0 <= msb_first bits < 2 ^ Z.of_nat (length bits).
Proof.
  induction 1 as [|b r Hb _ IH]; cbn [msb_first length].
  - cbn. lia.
  - rewrite Nat2Z.inj_succ, Z.pow_succ_r by lia.
    assert (0 < 2 ^ Z.of_nat (length r)) by (apply Z.pow_pos_nonneg; lia).
    destruct Hb as [-> | ->]; lia.
Qed.

Lemma fold_shift bits r :
  0 <= r -> Forall is_bit bits ->
  fold_left (fun result b => Z.lor (Z.shiftl result 1) b) bits r
  = r * 2 ^ Z.of_nat (length bits) + msb_first bits.
Proof.
  intros Hr Hb. revert r Hr.
  induction Hb as [|b l Hb _ IH]; intros r Hr; cbn [fold_left msb_first length].
  - cbn. lia.
  - rewrite shift_step by assumption.
    rewrite IH by (destruct Hb as [-> | ->]; lia).
    rewrite Nat2Z.inj_succ, Z.pow_succ_r by lia. ring.
Qed.

Lemma shift_in_app hi lo :
  Forall is_bit hi -> Forall is_bit lo ->
  Z.shiftr (shift_in (hi ++ lo)) (Z.of_nat (length lo)) = msb_first hi.
Proof.
  intros Hh Hl. unfold shift_in.
  rewrite fold_left_app, (fold_shift hi 0) by (assumption || lia).
  rewrite fold_shift; [| |assumption].
  2:{ pose proof (msb_first_range hi Hh). lia. }
  rewrite Z.shiftr_div_pow2 by lia.
  pose proof (msb_first_range lo Hl).
  cbn [Z.mul]. rewrite Z.add_0_l.
  rewrite Z.div_add_l by lia.
  rewrite Z.div_small by lia. lia.
Qed.

Lemma read_word pout hx j0 :
  0 <= GAIN hx ->
  (forall j, is_bit (pout j)) ->
  Z.shiftr (shift_in (map pout (seq j0 (Z.to_nat (24 + GAIN hx))))) (GAIN hx)
  = msb_first (map pout (seq j0 24)).
Proof.
  intros Hg Hb.
  replace (Z.to_nat (24 + GAIN hx)) with (24 + Z.to_nat (GAIN hx))%nat by lia.
  rewrite seq_app, map_app.
  replace (GAIN hx)
    with (Z.of_nat (length (map pout (seq (j0 + 24) (Z.to_nat (GAIN hx))))))
    at 2 by (rewrite length_map, length_seq; lia).
  apply shift_in_app; apply Forall_map, Forall_forall; intros; apply Hb.
Qed.

(** The sign test on a 24-bit word: its top bit weighs [-2^23]. *)
Lemma word_signed pout j0 :
  (forall j, is_bit (pout j)) ->
  let w := msb_first (map pout (seq j0 24)) in
  (if 0x7fffff <? w then w - 0x1000000 else w) = w - pout j0 * 2 ^ 24
  /\ - 2 ^ 23 <= w - pout j0 * 2 ^ 24 < 2 ^ 23.
Proof.
  intros Hb w. unfold w.
  assert (Hw : Forall is_bit (map pout (seq (S j0) 23)))
    by (apply Forall_map, Forall_forall; intros; apply Hb).
  change (map pout (seq j0 24)) with (pout j0 :: map pout (seq (S j0) 23)).
  cbn [msb_first].
  apply msb_first_range in Hw.
  rewrite length_map, length_seq in *.
  change (2 ^ Z.of_nat 23) with 8388608 in *.
  change (2 ^ 24) with 16777216. change (2 ^ 23) with 8388608.
  destruct (Hb j0) as [-> | ->].
  - destruct (Z.ltb_spec 8388607 (0 * 8388608 + msb_first (map pout (seq (S j0) 23))));
      lia.
  - destruct (Z.ltb_spec 8388607 (1 * 8388608 + msb_first (map pout (seq (S j0) 23))));
      lia.
Qed.

(** The wait loop is left at the first read that is not 1. *)
Lemma wait_ready_at pout n fuel j :
  (forall i, (i < n)%nat -> pout (j + i)%nat = 1) ->
  pout (j + n)%nat <> 1 ->
  (n < fuel)%nat ->
  wait_ready fuel pout j = Some (S (j + n)).
Proof.
  revert fuel j. induction n as [|n IH]; intros fuel j Hw Hr Hf;
    (destruct fuel as [|fuel]; [lia|]); cbn [wait_ready].
  - rewrite Nat.add_0_r in *.
    destruct (Z.eqb_spec (pout j) 1); [contradiction|reflexivity].
  - pose proof (Hw 0%nat ltac:(lia)) as H0. rewrite Nat.add_0_r in H0.
    rewrite H0. cbn.
    rewrite IH; [f_equal; lia | | | lia].
    + intros i Hi. replace (S j + i)%nat with (j + S i)%nat by lia.
      apply Hw. lia.
    + now replace (S j + n)%nat with (j + S n)%nat by lia.
Qed.

Lemma wait_ready_never pout fuel j :
  (forall i, pout i = 1) -> wait_ready fuel pout j = None.
Proof.
  intros H. revert j.
  induction fuel as [|fuel IH]; intros j; cbn [wait_ready]; [reflexivity|].
  rewrite H. cbn. apply IH.
Qed.

(** X3.  [read]: it waits for as long as the data pin reads 1 and does not
    return while it does.  Once the pin has read 0, at the read number
    [n], the 24 levels read next, most significant first, give the result
    as a two's-complement word: it lies in [-2^23, 2^23), does not depend
    on the [GAIN] levels clocked in after them, and the clock pin is left
    low. *)
Theorem read_twos_complement (pout : nat -> Z) (hx : HX711.t) (n fuel : nat) :
  0 <= GAIN hx ->
  (forall j, pout j = 0 \/ pout j = 1) ->
  (forall j, (j < n)%nat -> pout j = 1) ->
  pout n = 0 ->
  (n < fuel)%nat ->
  (exists v hx',
     read fuel pout hx = Some (v, hx')
     /\ v = msb_first (map pout (seq (S n) 24)) - pout (S n) * 2 ^ 24
     /\ - 2 ^ 23 <= v < 2 ^ 23
     /\ pSCK hx' = 0 /\ GAIN hx' = GAIN hx)
  /\ (forall k, (k <= n)%nat -> read k pout hx = None)
  /\ (forall stuck k, (forall j, stuck j = 1) -> read k stuck hx = None).
Proof.
  intros Hg Hb Hw Hn Hf.
  split; [|split].
  - unfold read.
    rewrite (wait_ready_at pout n fuel 0); [| |cbn; lia|assumption].
    2:{ intros i Hi. cbn. now apply Hw. }
    cbn [Nat.add]. rewrite read_word by assumption.
    destruct (word_signed pout (S n) Hb) as [Hs Hr]. cbv zeta in Hs, Hr.
    eexists _, _. split; [reflexivity|].
    split; [exact Hs|]. split; [rewrite Hs; exact Hr|].
    cbn. split; [|reflexivity].
    destruct (Z.ltb_spec 0 (24 + GAIN hx)); [reflexivity|lia].
  - intros k Hk. unfold read.
    assert (E : forall j, (j + k <= n)%nat -> wait_ready k pout j = None).
    { clear Hk. induction k as [|k IH]; intros j Hj; cbn; [reflexivity|].
      rewrite (Hw j) by lia. cbn. apply IH. lia. }
    now rewrite E by lia.
  - intros stuck k Hs. unfold read. now rewrite wait_ready_never.
Qed.

Lemma read_twos_complement_witness :
  let pout := fun j : nat => if (j <? 3)%nat then 1
                             else if Nat.even j then 1 else 0 in
  let hx := HX711.mk 1 1 in
  (exists v hx',
     read 10 pout hx = Some (v, hx')
     /\ v = msb_first (map pout (seq 4 24)) - pout 4%nat * 2 ^ 24
     /\ - 2 ^ 23 <= v < 2 ^ 23
     /\ pSCK hx' = 0 /\ GAIN hx' = GAIN hx)
  /\ (forall k, (k <= 3)%nat -> read k pout hx = None)
  /\ (forall stuck k, (forall j, stuck j = 1) -> read k stuck hx = None).
Proof.
  cbv zeta.
  apply (read_twos_complement
           (fun j : nat => if (j <? 3)%nat then 1 else if Nat.even j then 1 else 0)
           (HX711.mk 1 1) 3 10).
  - cbn. lia.
  - intros j. destruct (j <? 3)%nat; [now right|].
    destruct (Nat.even j); [right|left]; reflexivity.
  - intros j Hj. apply Nat.ltb_lt in Hj. now rewrite Hj.
  - reflexivity.
  - lia.
Defined.

(** The witness, evaluated: three reads of 1, the read of 0, then the
    word 1010...10, whose top bit is set. *)
Example read_after_wait_example :
  read 10 (fun j : nat => if (j <? 3)%nat then 1 else if Nat.even j then 1 else 0)
       (HX711.mk 1 1)
  = Some (-5592406, HX711.mk 0 1).
Proof. vm_compute. reflexivity. Qed.

End HX711Props.

(** ** The weighing turn of the main loop *)

Section ScaleLoopProps.
Context {kg : Type} (kg_of_g : Q -> kg) (kg_zero : kg).

Lemma idle_kept now w pm :
  PowerManager.idle pm = true -> PowerManager.no_load w = true ->
  PowerManager.idle (PowerManager.update_with_weight now w pm) = true.
Proof.
  intros Hi Hq. unfold PowerManager.update_with_weight. rewrite Hq.
  cbn. now destruct (_ <=? _).
Qed.

Lemma idle_lost now w pm :
  PowerManager.no_load w = false ->
  PowerManager.idle (PowerManager.update_with_weight now w pm) = false.
Proof.
  intros Hq. unfold PowerManager.update_with_weight. now rewrite Hq.
Qed.

Lemma check_scale_pm now units (b : ScaleLoop.t kg) :
  loop_pm (ScaleLoop.check_scale kg_of_g kg_zero now units b) =
    match units with
    | Some w => PowerManager.update_with_weight now w (loop_pm b)
    | None => loop_pm b
    end.
Proof.
  unfold loop_pm, ScaleLoop.check_scale, ScaleLoop.get_weight,
    LowPowerScale.read_weight_low_power, LowPowerScale.read_weight_normal.
  destruct (PowerManager.idle _), units; reflexivity.
Qed.

Lemma check_scale_sck now units (b : ScaleLoop.t kg) :
  loop_sck (ScaleLoop.check_scale kg_of_g kg_zero now units b) =
    match units with
    | Some w =>
        if PowerManager.idle (loop_pm b) && PowerManager.no_load w then 1 else 0
    | None => 0
    end.
Proof.
  unfold loop_sck, loop_pm, ScaleLoop.check_scale, ScaleLoop.get_weight,
    LowPowerScale.read_weight_low_power, LowPowerScale.read_weight_normal.
  destruct (PowerManager.idle (LowPowerScale.pm (ScaleLoop.scale b))) eqn:Hi,
    units as [w|]; cbn; try reflexivity.
  destruct (PowerManager.no_load w) eqn:Hq.
  - now rewrite idle_kept.
  - now rewrite idle_lost.
Qed.

(** X4.  [check_scale], through [get_weight] and the two read methods of
    [LowPowerScale], on a turn whose reading [w] (grams) succeeds: the
    weight to send becomes [w / 1000], [last_weight_g] becomes [w], the
    power manager is updated with [w], and the HX711 is left powered down
    (clock pin high) exactly when the power manager was idle before the
    turn and [w] is a no-load reading; otherwise the clock pin is low. *)
Theorem hx711_power_state (now : Z) (w : Q) (b : ScaleLoop.t kg) :
  let b' := ScaleLoop.check_scale kg_of_g kg_zero now (Some w) b in
  ScaleLoop.weight_tx b' = kg_of_g w
  /\ ScaleLoop.last_weight_g b' = w
  /\ loop_pm b' = PowerManager.update_with_weight now w (loop_pm b)
  /\ (loop_sck b' = 1 <->
        PowerManager.idle (loop_pm b) = true /\ PowerManager.no_load w = true)
  /\ (loop_sck b' = 0 <->
        PowerManager.idle (loop_pm b) = false \/ PowerManager.no_load w = false).
Proof.
  cbv zeta. split; [|split; [|split]].
  - unfold ScaleLoop.check_scale, ScaleLoop.get_weight,
      LowPowerScale.read_weight_low_power, LowPowerScale.read_weight_normal.
    now destruct (PowerManager.idle _).
  - unfold ScaleLoop.check_scale, ScaleLoop.get_weight,
      LowPowerScale.read_weight_low_power, LowPowerScale.read_weight_normal.
    now destruct (PowerManager.idle _).
  - apply check_scale_pm.
  - rewrite check_scale_sck.
    destruct (PowerManager.idle (loop_pm b)), (PowerManager.no_load w); cbn;
      (split; split; intros; try tauto; try lia; try discriminate).
    all: try (destruct H; discriminate).
    all: try (destruct H as [H|H]; discriminate).
Qed.

Lemma turns_snoc rs r (b : ScaleLoop.t kg) :
  ScaleLoop.turns kg_of_g kg_zero (rs ++ [r]) b =
    ScaleLoop.check_scale kg_of_g kg_zero (fst r) (snd r)
      (ScaleLoop.turns kg_of_g kg_zero rs b).
Proof. unfold ScaleLoop.turns. now rewrite fold_left_app. Qed.

Lemma readings_snoc rs r :
  readings (rs ++ [r]) =
    readings rs ++ match snd r with Some w => [(fst r, w)] | None => [] end.
Proof.
  unfold readings. rewrite omap_app. cbn. now destruct (snd r).
Qed.

Lemma turns_pm rs (b : ScaleLoop.t kg) :
  loop_pm (ScaleLoop.turns kg_of_g kg_zero rs b) =
    PowerManager.feed (readings rs) (loop_pm b).
Proof.
  induction rs as [|r rs IH] using rev_ind.
  - reflexivity.
  - rewrite turns_snoc, check_scale_pm, readings_snoc, IH.
    destruct (snd r) as [w|].
    + now rewrite feed_snoc.
    + now rewrite app_nil_r.
Qed.

(** X5.  [get_weight] and [check_scale] when [hx.get_units] raises: over
    any run of turns the power manager has seen exactly the readings that
    succeeded, in order; a failed turn reports [0.0] as the weight to
    send, leaves the power manager and [last_weight_g] as they were, and
    leaves the HX711 powered up even when the manager is idle. *)
Theorem failed_readings_skipped (rs : list (Z * option Q)) (b : ScaleLoop.t kg) :
  loop_pm (ScaleLoop.turns kg_of_g kg_zero rs b) =
    PowerManager.feed (readings rs) (loop_pm b)
  /\ forall now,
       let b1 := ScaleLoop.turns kg_of_g kg_zero rs b in
       let b2 := ScaleLoop.check_scale kg_of_g kg_zero now None b1 in
       ScaleLoop.weight_tx b2 = kg_zero
       /\ loop_pm b2 = loop_pm b1
       /\ ScaleLoop.last_weight_g b2 = ScaleLoop.last_weight_g b1
       /\ loop_sck b2 = 0.
Proof.
  split; [apply turns_pm|].
  intros now. cbv zeta.
  unfold loop_sck, loop_pm, ScaleLoop.check_scale, ScaleLoop.get_weight,
    LowPowerScale.read_weight_low_power, LowPowerScale.read_weight_normal.
  destruct (PowerManager.idle _); cbn; repeat split.
Qed.

(** X6.  From a fresh power manager, a run of no-load readings powers the
    HX711 down for the first time at the twenty-first reading: the
    twentieth raises [idle], but was taken in normal mode, which never
    powers down; every later no-load reading is taken in low-power mode
    and ends with the chip powered down. *)
Theorem first_power_down (t0 : Z) (rs : list (Z * Q)) (r : Z * Q)
    (b : ScaleLoop.t kg) :
  loop_pm b = PowerManager.init t0 ->
  Forall quiet rs -> quiet r ->
  let turn (x : Z * Q) := (fst x, Some (snd x)) in
  loop_sck (ScaleLoop.turns kg_of_g kg_zero (map turn (rs ++ [r])) b) =
    if (20 <=? length rs)%nat then 1 else 0.
Proof.
  intros Hpm Hq Hr turn.
  rewrite map_app. cbn [map]. rewrite turns_snoc, check_scale_sck.
  cbn [turn fst snd]. red in Hr. rewrite Hr, andb_true_r.
  rewrite turns_pm, Hpm.
  assert (E : readings (map turn rs) = rs).
  { clear. induction rs as [|[t w] rs IH]; [reflexivity|].
    cbn. unfold readings in IH. now rewrite IH. }
  rewrite E.
  rewrite feed_quiet_idle; [|assumption|reflexivity|cbn; lia].
  cbn [PowerManager.init PowerManager._no_load_count].
  unfold PowerManager.NO_LOAD_STABLE_SAMPLES.
  destruct (Nat.leb_spec 20 (length rs)).
  - rewrite bool_decide_true by (intros ->; cbn in *; lia).
    replace (20 <=? 0 + Z.of_nat (length rs)) with true
      by (symmetry; apply Z.leb_le; lia).
    reflexivity.
  - replace (20 <=? 0 + Z.of_nat (length rs)) with false
      by (symmetry; apply Z.leb_gt; lia).
    now rewrite andb_false_r.
Qed.

End ScaleLoopProps.

Lemma first_power_down_witness :
  let b := ScaleLoop.mk (LowPowerScale.mk (HX711.mk 0 1) (PowerManager.init 0) 0) 0%Q 0%Q in
  let turn (x : Z * Q) := (fst x, Some (snd x)) in
  loop_sck
    (ScaleLoop.turns (fun g => g / 1000)%Q 0%Q
       (map turn (repeat (0, (1 # 2)%Q) 20 ++ [(7, (-1 # 4)%Q)])) b) =
    if (20 <=? length (repeat (0, (1 # 2)%Q) 20))%nat then 1 else 0.
Proof.
  cbv zeta.
  apply (first_power_down (fun g => g / 1000)%Q 0%Q 0
           (repeat (0, (1 # 2)%Q) 20) (7, (-1 # 4)%Q)).
  - reflexivity.
  - cbn [repeat]. repeat constructor.
  - reflexivity.
Defined.

(** ** The RX records and the payloads over any run of writes *)

Section RecordProps.
Context `{PF : PyFloat}.
Import BLEScale.

Lemma rx_loop_preserves (P : t -> Prop) body :
  (forall b st, P st -> P (with_rx_buffer b st)) ->
  (forall l st, P st -> P (body l st)) ->
  forall fuel st, P st -> P (rx_loop body fuel st).
Proof.
  intros Hb Hl. induction fuel as [|fuel IH]; intros st H; cbn; [assumption|].
  destruct (split_nl (rx_buffer st)) as [[line rest]|]; [|assumption].
  apply IH, Hl, Hb, H.
Qed.

Lemma ingest_preserves (P : t -> Prop) body raw st :
  (forall b st, P st -> P (with_rx_buffer b st)) ->
  (forall l st, P st -> P (body l st)) ->
  P st -> P (ingest body raw st).
Proof.
  intros Hb Hl H. unfold ingest. apply rx_loop_preserves; auto.
Qed.

Lemma writes_preserves (P : t -> Prop) save ws st :
  (forall h raw st, P st -> P (save h raw st)) ->
  P st -> P (writes save ws st).
Proof.
  intros Hs. unfold writes. revert st.
  induction ws as [|w ws IH]; intros st H; cbn [fold_left]; auto.
Qed.

Lemma store_opt_preserves (P : t -> Prop) tg k v st :
  (forall v st, P st -> P (store tg k v st)) ->
  P st -> P (store_opt tg k v st).
Proof. intros Hs H. destruct v; cbn; auto. Qed.

Lemma scan_store_preserves (P : t -> Prop) tg s st :
  (forall k v st, In k RX_KEYS -> P st -> P (store tg k v st)) ->
  P st -> P (scan_store tg s st).
Proof.
  intros Hs H. unfold scan_store.
  repeat (apply store_opt_preserves;
          [intros; apply Hs; [cbn; tauto | assumption]|]).
  assumption.
Qed.

Lemma rx_line_preserves (P : t -> Prop) h line st :
  (forall tg k v st, In k RX_KEYS -> P st -> P (store tg k v st)) ->
  P st -> P (rx_line h line st).
Proof.
  intros Hs H. unfold rx_line.
  destruct (clean_line line); [|assumption].
  destruct (rx_target h st); [|assumption].
  apply scan_store_preserves; auto.
Qed.

Lemma copy_keys_preserves (P : t -> Prop) tg keys data st :
  (forall k v st, In k keys -> P st -> P (store tg k v st)) ->
  P st -> P (copy_keys tg keys data st).
Proof.
  revert st. induction keys as [|k keys IH]; intros st Hs H; cbn; [assumption|].
  destruct (py_contains k data) as [[|]|]; try assumption.
  - destruct (py_getitem data k); [|assumption].
    apply IH.
    + intros; apply Hs; [now right | assumption].
    + apply Hs; [now left | assumption].
  - apply IH; [|assumption]. intros; apply Hs; [now right | assumption].
Qed.

Lemma rx_line_1_preserves `{UJ : !Ujson} (P : t -> Prop) h line st :
  (forall tg k v st, In k RX_KEYS -> P st -> P (store tg k v st)) ->
  P st -> P (rx_line_1 h line st).
Proof.
  intros Hs H. unfold rx_line_1.
  destruct line; [assumption|].
  destruct (utf8_decode _); [|assumption].
  destruct (ujson_loads _); [|assumption].
  destruct (h =? _); [apply copy_keys_preserves; auto|].
  destruct (h =? _); [apply copy_keys_preserves; auto|assumption].
Qed.

(** Every write of either parser, whatever the handle and the bytes,
    keeps a property that a store under one of the six keys keeps and
    that does not concern the line buffer. *)
Lemma save_preserves `{UJ : !Ujson} (P : t -> Prop) :
  (forall b st, P st -> P (with_rx_buffer b st)) ->
  (forall tg k v st, In k RX_KEYS -> P st -> P (store tg k v st)) ->
  forall h raw st,
    P st -> P (save_received_data h raw st) /\ P (save_received_data_1 h raw st).
Proof.
  intros Hb Hs h raw st H. split.
  - unfold save_received_data.
    apply ingest_preserves; auto. intros; now apply rx_line_preserves.
  - unfold save_received_data_1.
    apply ingest_preserves; auto. intros; now apply rx_line_1_preserves.
Qed.

Lemma rx_keys_in k : In k RX_KEYS -> k ∈ RX_KEY_SET.
Proof. intros H. unfold RX_KEY_SET. now apply elem_of_list_to_set, list_elem_of_In. Qed.

Lemma store_shaped tg k v st :
  In k RX_KEYS -> records_shaped st -> records_shaped (store tg k v st).
Proof.
  intros Hk [Hf Hg]. apply rx_keys_in in Hk.
  destruct tg; split; cbn; try assumption;
    (rewrite dom_insert_lookup_L; [assumption|]; apply elem_of_dom; congruence).
Qed.

Lemma store_numeric tg k v st :
  is_number v -> records_numeric st -> records_numeric (store tg k v st).
Proof.
  intros Hv [Hf Hg].
  destruct tg; split; cbn; try assumption; now apply map_Forall_insert_2.
Qed.

Lemma tx_base_dom st : dom (tx_base st) = PAYLOAD_KEY_SET.
Proof.
  unfold tx_base, PAYLOAD_KEY_SET. rewrite !dom_insert_L, dom_empty_L. set_solver.
Qed.

Lemma rx_keys_payload : RX_KEY_SET ∪ PAYLOAD_KEY_SET = PAYLOAD_KEY_SET.
Proof. unfold RX_KEY_SET, PAYLOAD_KEY_SET, RX_KEYS. cbn. set_solver. Qed.

Lemma from_payload : {[ "from"%string ]} ∪ PAYLOAD_KEY_SET = PAYLOAD_KEY_SET.
Proof. unfold PAYLOAD_KEY_SET. set_solver. Qed.

Lemma send_payload_keys h st tx :
  records_shaped st ->
  snd (send_tx_as_json_response h st) = Some tx -> dom tx = PAYLOAD_KEY_SET.
Proof.
  intros [Hf Hg]. unfold send_tx_as_json_response.
  destruct (h =? weight_tx_handle st); [|destruct (h =? fused_tx_handle st);
    [|destruct (h =? gps_tx_handle st)]]; cbn; intros E; try discriminate;
    injection E as <-;
    rewrite dom_insert_L, ?dom_union_L, ?Hf, ?Hg, tx_base_dom,
      ?rx_keys_payload; apply from_payload.
Qed.

End RecordProps.

(** X7.  Both parsers assign only under the six record keys, so over any
    run of writes, on any handles and with any bytes, both RX records
    keep exactly their six keys, and every payload
    [send_tx_as_json_response] hands out has exactly the nine payload
    keys. *)
Theorem payload_keys_invariant `{PF : PyFloat} `{UJ : !Ujson}
    (ws : list (Z * bytes)) (st : BLEScale.t) :
  records_shaped st ->
  let a := writes BLEScale.save_received_data ws st in
  let b := writes BLEScale.save_received_data_1 ws st in
  (records_shaped a
   /\ forall h tx, snd (BLEScale.send_tx_as_json_response h a) = Some tx ->
                   dom tx = PAYLOAD_KEY_SET)
  /\ (records_shaped b
      /\ forall h tx, snd (BLEScale.send_tx_as_json_response h b) = Some tx ->
                      dom tx = PAYLOAD_KEY_SET).
Proof.
  intros H a b.
  assert (Ha : records_shaped a).
  { apply writes_preserves; [|assumption]. intros h raw s Hs.
    apply (save_preserves records_shaped); try assumption.
    - intros ? ? Hs0. exact Hs0.
    - intros. now apply store_shaped. }
  assert (Hb : records_shaped b).
  { apply writes_preserves; [|assumption]. intros h raw s Hs.
    apply (save_preserves records_shaped); try assumption.
    - intros ? ? Hs0. exact Hs0.
    - intros. now apply store_shaped. }
  split; (split; [assumption|]); intros h tx; now apply send_payload_keys.
Qed.

Lemma payload_keys_invariant_witness :
  let ws := [(22, object1 "latitude" "1.5" ++ [NL] ++ bs "{"); (26, bs "x}" ++ [NL])] in
  let a := writes BLEScale.save_received_data ws RefRuntime.fresh in
  let b := writes BLEScale.save_received_data_1 ws RefRuntime.fresh in
  (records_shaped a
   /\ forall h tx, snd (BLEScale.send_tx_as_json_response h a) = Some tx ->
                   dom tx = PAYLOAD_KEY_SET)
  /\ (records_shaped b
      /\ forall h tx, snd (BLEScale.send_tx_as_json_response h b) = Some tx ->
                      dom tx = PAYLOAD_KEY_SET).
Proof.
  cbv zeta.
  apply (payload_keys_invariant
           [(22, object1 "latitude" "1.5" ++ [NL] ++ bs "{"); (26, bs "x}" ++ [NL])]
           RefRuntime.fresh).
  split; vm_compute; reflexivity.
Defined.

Section NumericProps.
Context `{PF : PyFloat}.
Import BLEScale.

Lemma time_value_number x : is_number (time_value x).
Proof. unfold time_value. now destruct (int_of_float x). Qed.

Lemma store_map_numeric tg k (f : pyfloat -> pyobj pyfloat) v st :
  (forall x, is_number (f x)) ->
  records_numeric st -> records_numeric (store_opt tg k (option_map f v) st).
Proof.
  intros Hf H. destruct v as [x|]; [|assumption].
  cbn. now apply store_numeric.
Qed.

Lemma scan_store_numeric tg s st :
  records_numeric st -> records_numeric (scan_store tg s st).
Proof.
  intros H. unfold scan_store.
  repeat (apply store_map_numeric; [first [exact time_value_number | exact (fun _ => I)]|]).
  assumption.
Qed.

Lemma rx_line_numeric h line st :
  records_numeric st -> records_numeric (rx_line h line st).
Proof.
  intros H. unfold rx_line.
  destruct (clean_line line); [|assumption].
  destruct (rx_target h st); [|assumption].
  now apply scan_store_numeric.
Qed.

Lemma payload_numeric h st tx k :
  records_numeric st -> In k RX_KEYS ->
  snd (send_tx_as_json_response h st) = Some tx ->
  exists v, tx !! k = Some v /\ is_number v.
Proof.
  intros [Hf Hg] Hk. unfold send_tx_as_json_response.
  assert (Hne : "from"%string <> k).
  { intros <-. cbn in Hk. intuition discriminate. }
  assert (Hb : exists v, tx_base st !! k = Some v /\ is_number v).
  { cbn in Hk. destruct Hk as [<-|[<-|[<-|[<-|[<-|[<-|[]]]]]]];
      (eexists; split; [reflexivity | exact I]). }
  assert (Hu : forall d, map_Forall (fun _ v => is_number v) d ->
                         exists v, (d ∪ tx_base st) !! k = Some v /\ is_number v).
  { intros d Hd. destruct (d !! k) as [v|] eqn:E.
    - exists v. split; [now apply lookup_union_Some_l | now apply (Hd k)].
    - destruct Hb as (v & Hv & Hn). exists v. split; [|assumption].
      rewrite lookup_union_r; assumption. }
  destruct (h =? weight_tx_handle st); [|destruct (h =? fused_tx_handle st);
    [|destruct (h =? gps_tx_handle st)]]; cbn; intros E; try discriminate;
    injection E as <-; rewrite lookup_insert_ne by assumption; auto.
Qed.

End NumericProps.

(** X8.  The tolerant parser of v1.3.2 stores numbers only (a float, or
    an integer for [time]): when every value of both records is a number,
    it stays so over any run of writes, and in every payload handed out
    afterwards each of the six location fields is a number. *)
Theorem tolerant_records_numeric `{PF : PyFloat}
    (ws : list (Z * bytes)) (st : BLEScale.t) :
  records_numeric st ->
  let st' := writes BLEScale.save_received_data ws st in
  records_numeric st'
  /\ forall h tx k,
       In k BLEScale.RX_KEYS ->
       snd (BLEScale.send_tx_as_json_response h st') = Some tx ->
       exists v, tx !! k = Some v /\ is_number v.
Proof.
  intros H st'.
  assert (H' : records_numeric st').
  { apply writes_preserves; [|assumption]. intros h raw s Hs.
    unfold BLEScale.save_received_data. apply ingest_preserves; try assumption.
    - intros ? ? Hs0. exact Hs0.
    - intros. now apply rx_line_numeric. }
  split; [assumption|].
  intros h tx k Hk. now apply payload_numeric.
Qed.

Lemma tolerant_records_numeric_witness :
  let ws := [(22, bs "{" ++ field "time" "1.5" ++ bs "," ++ field "speed" "fast" ++ bs "}" ++ [NL]);
             (26, object1 "latitude" "48.1234567891" ++ [NL])] in
  let st' := writes BLEScale.save_received_data ws RefRuntime.fresh in
  records_numeric st'
  /\ forall h tx k,
       In k BLEScale.RX_KEYS ->
       snd (BLEScale.send_tx_as_json_response h st') = Some tx ->
       exists v, tx !! k = Some v /\ is_number v.
Proof.
  cbv zeta.
  apply (tolerant_records_numeric
           [(22, bs "{" ++ field "time" "1.5" ++ bs "," ++ field "speed" "fast" ++ bs "}" ++ [NL]);
            (26, object1 "latitude" "48.1234567891" ++ [NL])]
           RefRuntime.fresh).
  split; apply map_Forall_lookup; intros k v; unfold RefRuntime.fresh; cbn;
    unfold BLEScale.rx_defaults;
    rewrite !lookup_insert_Some, lookup_empty;
    intros Hk; decompose [and or] Hk; subst; try discriminate; exact I.
Defined.

(** ** Separation of the two channels *)

Section IsolationProps.
Context `{PF : PyFloat}.
Import BLEScale.

Lemma rx_frame_fields st' st :
  rx_frame st' = rx_frame st ->
  weight_tx_handle st' = weight_tx_handle st
  /\ weight_rx_handle st' = weight_rx_handle st
  /\ fused_tx_handle st' = fused_tx_handle st
  /\ fused_rx_handle st' = fused_rx_handle st
  /\ gps_tx_handle st' = gps_tx_handle st
  /\ gps_rx_handle st' = gps_rx_handle st
  /\ weight_tx st' = weight_tx st
  /\ pm st' = pm st
  /\ tx_data st' = tx_data st.
Proof.
  unfold rx_frame. intros H. injection H. intros. repeat split; assumption.
Qed.

Lemma send_depends h st st' :
  rx_frame st' = rx_frame st ->
  (h = fused_tx_handle st -> h <> weight_tx_handle st ->
   fused_rx_data st' = fused_rx_data st) ->
  (h = gps_tx_handle st -> h <> weight_tx_handle st -> h <> fused_tx_handle st ->
   gps_rx_data st' = gps_rx_data st) ->
  snd (send_tx_as_json_response h st') = snd (send_tx_as_json_response h st).
Proof.
  intros Hfr Hf Hg.
  destruct (rx_frame_fields _ _ Hfr) as (Hwt & _ & Hft & _ & Hgt & _ & Hw & Hpm & _).
  unfold send_tx_as_json_response, tx_base.
  rewrite Hwt, Hft, Hgt, Hw, Hpm.
  destruct (Z.eqb_spec h (weight_tx_handle st)); [reflexivity|].
  destruct (Z.eqb_spec h (fused_tx_handle st)); [cbn; now rewrite Hf|].
  destruct (Z.eqb_spec h (gps_tx_handle st)); [cbn; now rewrite Hg|].
  reflexivity.
Qed.

(** What a write leaves alone, as one property of the state after it,
    given the state [st0] before it. *)
Lemma save_frame `{UJ : !Ujson} h raw st :
  rx_frame (save_received_data h raw st) = rx_frame st
  /\ rx_frame (save_received_data_1 h raw st) = rx_frame st.
Proof.
  apply (save_preserves (fun s => rx_frame s = rx_frame st)); auto.
Qed.

Lemma save_other_record `{UJ : !Ujson} h raw st tg :
  rx_target h st <> Some tg ->
  rx_data tg (save_received_data h raw st) = rx_data tg st
  /\ rx_data tg (save_received_data_1 h raw st) = rx_data tg st.
Proof.
  intros Hne.
  set (P := fun s : t =>
         rx_frame s = rx_frame st /\ rx_data tg s = rx_data tg st).
  assert (Hh : forall s, P s -> rx_target h s = rx_target h st).
  { intros s [Hfr _].
    destruct (rx_frame_fields _ _ Hfr) as (_ & _ & _ & Hf & _ & Hg & _).
    unfold rx_target. now rewrite Hf, Hg. }
  assert (Hs : forall tg' k v s, tg' <> tg -> P s -> P (store tg' k v s)).
  { intros tg' k v s Hd [Hfr Hr]. split; [exact Hfr|].
    destruct tg', tg; try congruence; exact Hr. }
  assert (Hb : forall b s, P s -> P (with_rx_buffer b s)) by (intros ? ? H; exact H).
  assert (H0 : P st) by (split; reflexivity).
  split.
  - unfold save_received_data.
    apply (ingest_preserves P); try assumption.
    intros l s Hp. unfold rx_line.
    destruct (clean_line l); [|assumption].
    rewrite (Hh s Hp).
    destruct (rx_target h st) as [tg'|] eqn:E; [|assumption].
    apply scan_store_preserves; [|assumption].
    intros. apply Hs; [congruence|assumption].
  - unfold save_received_data_1.
    apply (ingest_preserves P); try assumption.
    intros l s Hp. unfold rx_line_1.
    destruct l; [assumption|].
    destruct (utf8_decode _); [|assumption].
    destruct (ujson_loads _); [|assumption].
    pose proof (Hh s Hp) as Ht. unfold rx_target in Ht.
    unfold rx_target in Hne.
    pose proof Hp as [Hfr Hr].
    destruct (rx_frame_fields _ _ Hfr) as (_ & _ & _ & Hf & _ & Hg & _).
    rewrite Hf, Hg.
    destruct (h =? fused_rx_handle st).
    + apply copy_keys_preserves; [|assumption].
      intros. apply Hs; [congruence|assumption].
    + destruct (h =? gps_rx_handle st); [|assumption].
      apply copy_keys_preserves; [|assumption].
      intros. apply Hs; [congruence|assumption].
Qed.

End IsolationProps.

(** X9.  A write on an RX handle that does not select a channel's record
    leaves that record as it was, whatever the bytes and with either
    parser; the payload sent on the TX handle of that channel is the same
    before and after the write, and no write changes the handles, the
    weight to send, the power manager or [tx_data]. *)
Theorem rx_channels_isolated `{PF : PyFloat} `{UJ : !Ujson}
    (st : BLEScale.t) (h : Z) (raw : bytes) (tg : BLEScale.target) :
  handles_distinct st ->
  BLEScale.rx_target h st <> Some tg ->
  let a := BLEScale.save_received_data h raw st in
  let b := BLEScale.save_received_data_1 h raw st in
  (BLEScale.rx_data tg a = BLEScale.rx_data tg st
   /\ rx_frame a = rx_frame st
   /\ snd (BLEScale.send_tx_as_json_response (tx_handle tg st) a)
      = snd (BLEScale.send_tx_as_json_response (tx_handle tg st) st))
  /\ (BLEScale.rx_data tg b = BLEScale.rx_data tg st
      /\ rx_frame b = rx_frame st
      /\ snd (BLEScale.send_tx_as_json_response (tx_handle tg st) b)
         = snd (BLEScale.send_tx_as_json_response (tx_handle tg st) st)).
Proof.
  intros (_ & Hwf & Hwg & Hfg) Hne a b.
  destruct (save_other_record h raw st tg Hne) as [Ha Hb].
  destruct (save_frame h raw st) as [Fa Fb].
  split; (split; [assumption|]); (split; [assumption|]);
    (apply send_depends; [assumption| |]).
  - intros E _. destruct tg; cbn in *; [assumption|congruence].
  - intros E _ Hd. destruct tg; cbn in *; [congruence|assumption].
  - intros E _. destruct tg; cbn in *; [assumption|congruence].
  - intros E _ Hd. destruct tg; cbn in *; [congruence|assumption].
Qed.

Lemma rx_channels_isolated_witness :
  let st := RefRuntime.fresh in
  let raw := object1 "latitude" "1.5" ++ [NL] in
  let a := BLEScale.save_received_data 26 raw st in
  let b := BLEScale.save_received_data_1 26 raw st in
  (BLEScale.rx_data BLEScale.Fused a = BLEScale.rx_data BLEScale.Fused st
   /\ rx_frame a = rx_frame st
   /\ snd (BLEScale.send_tx_as_json_response (tx_handle BLEScale.Fused st) a)
      = snd (BLEScale.send_tx_as_json_response (tx_handle BLEScale.Fused st) st))
  /\ (BLEScale.rx_data BLEScale.Fused b = BLEScale.rx_data BLEScale.Fused st
      /\ rx_frame b = rx_frame st
      /\ snd (BLEScale.send_tx_as_json_response (tx_handle BLEScale.Fused st) b)
         = snd (BLEScale.send_tx_as_json_response (tx_handle BLEScale.Fused st) st)).
Proof.
  cbv zeta.
  apply (rx_channels_isolated RefRuntime.fresh 26
           (object1 "latitude" "1.5" ++ [NL]) BLEScale.Fused).
  - vm_compute. repeat split; discriminate.
  - vm_compute. discriminate.
Defined.

Section OtherHandle.
Context `{PF : PyFloat}.
Import BLEScale.

Lemma apply_lines_id body ls st :
  (forall l, body l st = st) -> apply_lines body ls st = st.
Proof.
  intros H. unfold apply_lines.
  induction ls as [|l ls IH]; cbn [fold_left]; [reflexivity|].
  now rewrite H.
Qed.

Lemma rx_line_no_target h l st : rx_target h st = None -> rx_line h l st = st.
Proof.
  intros H. unfold rx_line. rewrite H. now destruct (clean_line l).
Qed.

Lemma rx_line_1_no_target `{UJ : !Ujson} h l st :
  rx_target h st = None -> rx_line_1 h l st = st.
Proof.
  intros H. unfold rx_line_1, rx_target in *.
  destruct l; [reflexivity|].
  destruct (utf8_decode _); [|reflexivity].
  destruct (ujson_loads _); [|reflexivity].
  destruct (h =? fused_rx_handle st); [discriminate|].
  destruct (h =? gps_rx_handle st); [discriminate|reflexivity].
Qed.

End OtherHandle.

(** X10.  A write on a handle that is neither RX handle (the weight RX
    handle, say) still goes through the one line buffer: with either
    parser the state afterwards is the state before with [rx_buffer]
    replaced by the bytes that follow the last newline of the old buffer
    and the written bytes together.  Every complete line, pending bytes
    of another channel included, is consumed and updates nothing. *)
Theorem write_on_other_handle `{PF : PyFloat} `{UJ : !Ujson}
    (st : BLEScale.t) (h : Z) (raw : bytes) :
  h <> BLEScale.fused_rx_handle st ->
  h <> BLEScale.gps_rx_handle st ->
  let rem := snd (lines_rem (BLEScale.rx_buffer st ++ raw)) in
  BLEScale.save_received_data h raw st = BLEScale.with_rx_buffer rem st
  /\ BLEScale.save_received_data_1 h raw st = BLEScale.with_rx_buffer rem st.
Proof.
  intros Hf Hg rem.
  assert (Ht : BLEScale.rx_target h st = None).
  { unfold BLEScale.rx_target.
    destruct (Z.eqb_spec h (BLEScale.fused_rx_handle st)); [congruence|].
    destruct (Z.eqb_spec h (BLEScale.gps_rx_handle st)); [congruence|reflexivity]. }
  split.
  - unfold BLEScale.save_received_data.
    rewrite (ingest_lines _ (rx_line_framed h)).
    rewrite apply_lines_id; [reflexivity|].
    intros l. now apply rx_line_no_target.
  - unfold BLEScale.save_received_data_1.
    rewrite (ingest_lines _ (rx_line_1_framed h)).
    rewrite apply_lines_id; [reflexivity|].
    intros l. now apply rx_line_1_no_target.
Qed.

Lemma write_on_other_handle_witness :
  let st := BLEScale.with_rx_buffer (object1 "latitude" "1.5") RefRuntime.fresh in
  let raw := [NL; "x"%byte] in
  let rem := snd (lines_rem (BLEScale.rx_buffer st ++ raw)) in
  BLEScale.save_received_data 18 raw st = BLEScale.with_rx_buffer rem st
  /\ BLEScale.save_received_data_1 18 raw st = BLEScale.with_rx_buffer rem st.
Proof.
  cbv zeta.
  apply (write_on_other_handle
           (BLEScale.with_rx_buffer (object1 "latitude" "1.5") RefRuntime.fresh)
           18 [NL; "x"%byte]); vm_compute; discriminate.
Defined.

(** ** From a write to a read *)

Section RoundTrip.
Context `{PF : PyFloat}.
Import BLEScale.

Lemma send_channel tg st :
  handles_distinct st ->
  snd (send_tx_as_json_response (tx_handle tg st) st) =
    Some (<["from"%string := PStr (channel_name tg)]> (rx_data tg st ∪ tx_base st)).
Proof.
  intros (_ & Hwf & Hwg & Hfg). unfold send_tx_as_json_response.
  destruct tg; cbn [tx_handle rx_data channel_name].
  - destruct (Z.eqb_spec (fused_tx_handle st) (weight_tx_handle st)); [congruence|].
    now rewrite Z.eqb_refl.
  - destruct (Z.eqb_spec (gps_tx_handle st) (weight_tx_handle st)); [congruence|].
    destruct (Z.eqb_spec (gps_tx_handle st) (fused_tx_handle st)); [congruence|].
    now rewrite Z.eqb_refl.
Qed.

Lemma rx_handle_target tg st :
  handles_distinct st -> rx_target (rx_handle tg st) st = Some tg.
Proof.
  intros (Hr & _). unfold rx_target.
  destruct tg; cbn [rx_handle].
  - now rewrite Z.eqb_refl.
  - destruct (Z.eqb_spec (gps_rx_handle st) (fused_rx_handle st)); [congruence|].
    now rewrite Z.eqb_refl.
Qed.

End RoundTrip.

(** X11.  What is written on the RX handle of a channel is what a read of
    the TX handle of that channel returns (v1.3.2): after a complete line
    whose cropped text holds for one of the six keys the characters of a
    number that [float] reads as [x], the payload of the channel carries
    under that key the value kept for [x] (rounded to seven places for
    latitude and longitude, [int(x)] for time, or [x] itself where [int]
    raises), under [from] the name of the channel, and the current weight
    and idle flag. *)
Theorem rx_to_tx_round_trip `{PF : PyFloat}
    (st : BLEScale.t) (tg : BLEScale.target) (line s number : bytes)
    (k : string) (x : pyfloat) :
  handles_distinct st ->
  records_shaped st ->
  BLEScale.rx_buffer st = [] ->
  BLEScale.split_nl line = None ->
  cropped (BLEScale.decode_clean (strip line)) s ->
  In k BLEScale.RX_KEYS ->
  field_text k number s ->
  number <> [] ->
  float_of_str number = Some x ->
  let st1 := BLEScale.save_received_data (rx_handle tg st) (line ++ [NL]) st in
  exists tx,
    snd (BLEScale.send_tx_as_json_response (tx_handle tg st) st1) = Some tx
    /\ tx !! k = Some (stored_value k x)
    /\ tx !! "from"%string = Some (PStr (channel_name tg))
    /\ tx !! "weight"%string = Some (BLEScale.weight_tx st)
    /\ tx !! "idle"%string = Some (PBool (PowerManager.idle (BLEScale.pm st))).
Proof.
  intros Hd Hsh Hb Hl Hc Hk Hft Hnum Hfx st1. apply cropped_clean in Hc.
  assert (Hx : BLEScale._extract_number s k = Some x).
  { rewrite (extract_field _ _ _ Hft). now destruct number. }
  assert (E : st1 = BLEScale.scan_store tg s st).
  { unfold st1, BLEScale.save_received_data.
    rewrite (ingest_one_line _ _ _ (rx_line_framed _) Hb Hl).
    unfold BLEScale.rx_line. now rewrite Hc, (rx_handle_target tg st Hd). }
  clearbody st1.
  assert (Hfr : rx_frame st1 = rx_frame st).
  { rewrite E. apply (scan_store_preserves (fun s0 => rx_frame s0 = rx_frame st)); auto. }
  assert (Hsh1 : records_shaped st1).
  { rewrite E. apply scan_store_preserves; [|assumption].
    intros. now apply store_shaped. }
  assert (Hd1 : handles_distinct st1).
  { destruct (rx_frame_fields _ _ Hfr) as (H1 & _ & H3 & H4 & H5 & H6 & _).
    unfold handles_distinct. now rewrite H1, H3, H4, H5, H6. }
  assert (Ht : tx_handle tg st = tx_handle tg st1).
  { destruct (rx_frame_fields _ _ Hfr) as (_ & _ & H3 & _ & H5 & _).
    destruct tg; cbn [tx_handle]; symmetry; assumption. }
  assert (Hne : "from"%string <> k).
  { intros <-. cbn in Hk. intuition discriminate. }
  assert (Hout : forall k', k' ∉ RX_KEY_SET -> BLEScale.rx_data tg st1 !! k' = None).
  { intros k' Hk'. apply not_elem_of_dom.
    destruct Hsh1 as [Hf Hg]. destruct tg; cbn; [rewrite Hf|rewrite Hg]; exact Hk'. }
  eexists. split; [rewrite Ht; apply (send_channel tg st1 Hd1)|].
  destruct (rx_frame_fields _ _ Hfr) as (_ & _ & _ & _ & _ & _ & Hw & Hpm & _).
  repeat split.
  - rewrite lookup_insert_ne by assumption.
    apply lookup_union_Some_l. rewrite E. now apply scan_store_stored.
  - apply lookup_insert_eq.
  - rewrite lookup_insert_ne by discriminate.
    rewrite lookup_union_r by (apply Hout; vm_compute; intuition discriminate).
    unfold BLEScale.tx_base. rewrite lookup_insert_ne by discriminate.
    rewrite lookup_insert_eq. now rewrite Hw.
  - rewrite lookup_insert_ne by discriminate.
    rewrite lookup_union_r by (apply Hout; vm_compute; intuition discriminate).
    unfold BLEScale.tx_base. rewrite !lookup_insert_ne by discriminate.
    rewrite lookup_insert_eq. now rewrite Hpm.
Qed.

Lemma rx_to_tx_round_trip_witness :
  let st := RefRuntime.fresh in
  let line := bs "{" ++ field "speed" " 3.5 " ++ bs "," ++ field "time" "12.7" ++ bs "}" in
  let st1 := BLEScale.save_received_data (rx_handle BLEScale.Gps st) (line ++ [NL]) st in
  exists tx,
    snd (BLEScale.send_tx_as_json_response (tx_handle BLEScale.Gps st) st1) = Some tx
    /\ tx !! "time"%string = Some (PInt 12)
    /\ tx !! "from"%string = Some (PStr (bs "gps"))
    /\ tx !! "weight"%string = Some (PFloat 0%Q)
    /\ tx !! "idle"%string = Some (PBool false).
Proof.
  cbv zeta.
  apply (rx_to_tx_round_trip RefRuntime.fresh BLEScale.Gps
           (bs "{" ++ field "speed" " 3.5 " ++ bs "," ++ field "time" "12.7" ++ bs "}")
           (bs "{" ++ field "speed" " 3.5 " ++ bs "," ++ field "time" "12.7" ++ bs "}")
           (bs "12.7") "time" (127 # 10)%Q).
  - vm_compute. repeat split; discriminate.
  - split; vm_compute; reflexivity.
  - reflexivity.
  - vm_compute. reflexivity.
  - exists [], (field "speed" " 3.5 " ++ bs "," ++ field "time" "12.7"), [].
    split; [vm_compute; reflexivity|]. split; [vm_compute; reflexivity|].
    split; clear; vm_compute; intuition discriminate.
  - vm_compute. tauto.
  - exists (bs "{" ++ field "speed" " 3.5 " ++ bs ","), [], [], (bs "}").
    split; [reflexivity|]. text_facts.
  - discriminate.
  - vm_compute. reflexivity.
Defined.

(** ** What the line buffer holds after a write *)

Section TailProps.
Context `{PF : PyFloat}.
Import BLEScale.

Lemma lines_rem_join buf :
  buf = join_lines (fst (lines_rem buf)) (snd (lines_rem buf))
  /\ Forall no_newline (fst (lines_rem buf))
  /\ no_newline (snd (lines_rem buf)).
Proof.
  unfold join_lines, no_newline.
  induction buf as [|c r (IH1 & IH2 & IH3)]; cbn [lines_rem].
  - cbn. repeat split; [constructor | intros []].
  - destruct (lines_rem r) as [ls rem]. cbn [fst snd] in *.
    destruct (Byte.eqb c NL) eqn:E.
    + apply Byte.byte_dec_bl in E. subst c. cbn [fst snd map concat app].
      repeat split; [now rewrite <- IH1 | | assumption].
      constructor; [intros [] | assumption].
    + apply Byte.eqb_false in E.
      destruct ls as [|l ls]; cbn [fst snd map concat app] in *.
      * repeat split; [now rewrite <- IH1 | constructor |].
        intros [H|H]; [congruence | contradiction].
      * repeat split; [now rewrite IH1 at 1 | | assumption].
        apply Forall_cons in IH2 as [Hl Hls].
        constructor; [|assumption].
        intros [H|H]; [congruence | contradiction].
Qed.

End TailProps.

(** X12.  The framing loop of both parsers, on any write: the old buffer
    followed by the written bytes is cut at its newlines; the lines, none
    of which holds a newline, are handed one after the other to the body
    of the parser, and [rx_buffer] is left holding exactly the bytes after
    the last newline, so it never holds a newline between two writes. *)
Theorem rx_buffer_is_unterminated_tail `{PF : PyFloat} `{UJ : !Ujson}
    (st : BLEScale.t) (h : Z) (raw : bytes) :
  exists ls : list bytes,
    Forall no_newline ls
    /\ (let st' := BLEScale.save_received_data h raw st in
        BLEScale.rx_buffer st ++ raw = join_lines ls (BLEScale.rx_buffer st')
        /\ no_newline (BLEScale.rx_buffer st')
        /\ st' = BLEScale.with_rx_buffer (BLEScale.rx_buffer st')
                   (apply_lines (BLEScale.rx_line h) ls st))
    /\ (let st' := BLEScale.save_received_data_1 h raw st in
        BLEScale.rx_buffer st ++ raw = join_lines ls (BLEScale.rx_buffer st')
        /\ no_newline (BLEScale.rx_buffer st')
        /\ st' = BLEScale.with_rx_buffer (BLEScale.rx_buffer st')
                   (apply_lines (BLEScale.rx_line_1 h) ls st)).
Proof.
  exists (fst (lines_rem (BLEScale.rx_buffer st ++ raw))).
  destruct (lines_rem_join (BLEScale.rx_buffer st ++ raw)) as (Hj & Hl & Hr).
  split; [assumption|].
  unfold BLEScale.save_received_data, BLEScale.save_received_data_1.
  rewrite (ingest_lines _ (rx_line_framed h)), (ingest_lines _ (rx_line_1_framed h)).
  cbn [BLEScale.rx_buffer BLEScale.with_rx_buffer].
  repeat split; assumption.
Qed.

(** ** Disconnecting with bytes pending *)

Section ClearProps.
Context `{PF : PyFloat}.
Import BLEScale.

Lemma ingest_pending body raw st :
  buffer_framed body ->
  split_nl (rx_buffer st ++ raw) = None ->
  ingest body raw st = with_rx_buffer (rx_buffer st ++ raw) st.
Proof.
  intros Hf Hn. rewrite (ingest_lines _ Hf), (split_nl_none _ Hn). reflexivity.
Qed.

End ClearProps.

(** X13.  [clear], which the disconnect handler calls, resets both
    records and [tx_data].  In unf_s3_v1_3_2.py it does not touch
    [rx_buffer]: bytes of an unfinished line that were pending at the
    disconnect are the head of the first line of the next connection, on
    whatever handle that is written.  In unf_s3.py it empties the buffer:
    the pending bytes are gone and the next connection starts as from a
    cleared state. *)
Theorem clear_and_pending_bytes `{PF : PyFloat} `{UJ : !Ujson}
    (st : BLEScale.t) (h h' : Z) (a b : bytes) :
  BLEScale.split_nl (BLEScale.rx_buffer st ++ a) = None ->
  BLEScale.save_received_data h' b
    (BLEScale.clear (BLEScale.save_received_data h a st))
  = BLEScale.save_received_data h' (a ++ b) (BLEScale.clear st)
  /\ BLEScale.save_received_data_1 h' b
       (BLEScale.clear_unf_s3 (BLEScale.save_received_data_1 h a st))
     = BLEScale.save_received_data_1 h' b (BLEScale.clear_unf_s3 st)
  /\ (let c := BLEScale.clear (BLEScale.save_received_data h a st) in
      BLEScale.rx_buffer c = BLEScale.rx_buffer st ++ a
      /\ BLEScale.fused_rx_data c = BLEScale.rx_defaults
      /\ BLEScale.gps_rx_data c = BLEScale.rx_defaults
      /\ BLEScale.tx_data c = ∅)
  /\ (let c := BLEScale.clear_unf_s3 (BLEScale.save_received_data_1 h a st) in
      BLEScale.rx_buffer c = []
      /\ BLEScale.fused_rx_data c = BLEScale.rx_defaults
      /\ BLEScale.gps_rx_data c = BLEScale.rx_defaults
      /\ BLEScale.tx_data c = ∅).
Proof.
  intros Hn. unfold BLEScale.save_received_data, BLEScale.save_received_data_1.
  rewrite (ingest_pending _ a st (rx_line_framed h) Hn).
  rewrite (ingest_pending _ a st (rx_line_1_framed h) Hn).
  repeat split.
  unfold BLEScale.ingest at 1 2.
  cbn [BLEScale.rx_buffer BLEScale.clear BLEScale.with_rx_buffer].
  now rewrite app_assoc.
Qed.

Lemma clear_and_pending_bytes_witness :
  let st := RefRuntime.fresh in
  let a := bs "{" ++ field "latitude" "1.5" in
  let b := bs "}" ++ [NL] in
  BLEScale.save_received_data 26 b
    (BLEScale.clear (BLEScale.save_received_data 22 a st))
  = BLEScale.save_received_data 26 (a ++ b) (BLEScale.clear st)
  /\ BLEScale.save_received_data_1 26 b
       (BLEScale.clear_unf_s3 (BLEScale.save_received_data_1 22 a st))
     = BLEScale.save_received_data_1 26 b (BLEScale.clear_unf_s3 st)
  /\ (let c := BLEScale.clear (BLEScale.save_received_data 22 a st) in
      BLEScale.rx_buffer c = BLEScale.rx_buffer st ++ a
      /\ BLEScale.fused_rx_data c = BLEScale.rx_defaults
      /\ BLEScale.gps_rx_data c = BLEScale.rx_defaults
      /\ BLEScale.tx_data c = ∅)
  /\ (let c := BLEScale.clear_unf_s3 (BLEScale.save_received_data_1 22 a st) in
      BLEScale.rx_buffer c = []
      /\ BLEScale.fused_rx_data c = BLEScale.rx_defaults
      /\ BLEScale.gps_rx_data c = BLEScale.rx_defaults
      /\ BLEScale.tx_data c = ∅).
Proof.
  cbv zeta.
  apply (clear_and_pending_bytes RefRuntime.fresh 22 26
           (bs "{" ++ field "latitude" "1.5") (bs "}" ++ [NL])).
  vm_compute. reflexivity.
Defined.

(** The witness, evaluated: across the disconnect the GPS record receives
    the latitude whose line was begun on the Fused handle before it. *)
Example pending_line_survives_disconnect :
  let st := RefRuntime.fresh in
  let a := bs "{" ++ field "latitude" "1.5" in
  let b := bs "}" ++ [NL] in
  BLEScale.gps_rx_data
    (BLEScale.save_received_data 26 b
       (BLEScale.clear (BLEScale.save_received_data 22 a st)))
    !! "latitude"%string = Some (PFloat (3 # 2)%Q)
  /\ BLEScale.gps_rx_data
       (BLEScale.save_received_data_1 26 b
          (BLEScale.clear_unf_s3 (BLEScale.save_received_data_1 22 a st)))
       !! "latitude"%string = Some (PFloat 0%Q).
Proof. split; vm_compute; reflexivity. Qed.
